(** * Knowledge-base index manager and URL ingestion: a shallow embedding

    The development follows the TypeScript sources:
    - [utils.ts]            : [calculateSHA256], [getFilesRecursively]
    - [FaissIndexManager.ts]: constructor, [initialize], [updateIndex],
                              [similaritySearch]
    - [UrlManager.ts]       : [sanitizeUrlForFilename], [loadPendingUrls],
                              [savePendingUrls], [saveMarkdown], [suggestUrl],
                              [listPendingUrls], [approveUrl], [rejectUrl],
                              [addUrl]
    - [logger.ts]           : the level filter, the destinations, [write]
    - [KnowledgeBaseServer.ts]: the tool list, the dispatch of a tool call,
                              the seven handlers, [run]

    Asynchronous code is run to completion one call at a time (the caller is
    serialized), so every [async] function becomes a state-passing function
    in an exception-and-state monad over a [World] that holds the relevant
    part of the file system, the manager's in-memory handle and a trace of
    the observable events. *)

From Stdlib Require Import Ascii String QArith.QArith_base Sorting.Sorted.
From stdpp Require Import gmap strings list fin_maps sorting pretty.

Close Scope Q_scope.
Local Open Scope string_scope.
Local Open Scope list_scope.

(** ** Strings *)

Module Str.

(** [s.startsWith('.')] *)
Definition startsWithDot (s : string) : bool :=
  match s with
  | String "."%char _ => true
  | _ => false
  end.

(** [String.prototype.toLowerCase] on the ASCII range. *)
Definition lowerChar (c : ascii) : ascii :=
  let n := nat_of_ascii c in
  if (65 <=? n)%nat && (n <=? 90)%nat then ascii_of_nat (n + 32) else c.

Fixpoint toLowerCase (s : string) : string :=
  match s with
  | EmptyString => EmptyString
  | String c s' => String (lowerChar c) (toLowerCase s')
  end.

(** Position of the last ['.'] of [s], counted from the left. *)
Fixpoint lastDot (s : string) (i : nat) (acc : option nat) : option nat :=
  match s with
  | EmptyString => acc
  | String c s' =>
      lastDot s' (S i) (if Ascii.eqb c "."%char then Some i else acc)
  end.

(** [path.extname] of a base name (a string without separators): the suffix
    from the last dot, and the empty string when there is no dot, when the
    only dot is the first character, or for [".."]. *)
Definition extname (base : string) : string :=
  match lastDot base 0 None with
  | None => ""
  | Some 0 => ""
  | Some i =>
      if String.eqb base ".." then ""
      else substring i (String.length base - i) base
  end.

End Str.

(** ** Paths

    A path is the list of its segments; [path.join(p, name)] appends one
    segment.  Names handed to [path.join] are single segments: directory
    entries never contain a separator, and the file names built by
    [sanitizeUrlForFilename] have every ['/'] replaced. *)

Abbreviation Path := (list string).

Module PathOps.

Definition join (p : Path) (name : string) : Path := p ++ [name].

(** [path.relative(from, to)] for [to] below [from]. *)
Definition relative (from to : Path) : Path := drop (length from) to.

(** [path.dirname]: all segments but the last. *)
Definition dirname (p : Path) : Path := removelast p.

(** [path.basename]: the last segment. *)
Definition basename (p : Path) : string := List.last p "".

End PathOps.

(** ** utils.ts *)

Module Utils.

#[local] Set Warnings "-register-all".

(** What [fsp.readdir(dir, { withFileTypes: true })] shows of a tree.  A
    directory whose listing is [None] cannot be read ([readdir] throws). *)
Inductive Dirent :=
| DFile (name : string)
| DDir (name : string) (entries : option (list Dirent))
| DOther (name : string).

Definition direntName (d : Dirent) : string :=
  match d with
  | DFile n | DDir n _ | DOther n => n
  end.

(** The body of [traverse]: the files pushed while walking [entries], in
    order.  Hidden entries are skipped, directories are entered, anything
    that is neither a file nor a directory is ignored. *)
Fixpoint traverseEntry (currentPath : Path) (entry : Dirent) : list Path :=
  if Str.startsWithDot (direntName entry) then []
  else
    let fullPath := PathOps.join currentPath (direntName entry) in
    match entry with
    | DFile _ => [fullPath]
    | DDir _ (Some entries) =>
        (fix loop (es : list Dirent) : list Path :=
           match es with
           | [] => []
           | e :: es' => traverseEntry fullPath e ++ loop es'
           end) entries
    | DDir _ None => []
    | DOther _ => []
    end.

Definition traverseEntries (currentPath : Path) (entries : list Dirent) : list Path :=
  concat (map (traverseEntry currentPath) entries).

(** [traverse(currentPath)] where [listing] is what [readdir] yields there;
    a failing [readdir] is caught and contributes no file. *)
Definition traverse (currentPath : Path) (listing : option (list Dirent)) : list Path :=
  match listing with
  | Some entries => traverseEntries currentPath entries
  | None => []
  end.

(** The directories whose [readdir] failed during the walk (each one is
    reported through [logger.error]). *)
Fixpoint failedEntry (currentPath : Path) (entry : Dirent) : list Path :=
  if Str.startsWithDot (direntName entry) then []
  else
    let fullPath := PathOps.join currentPath (direntName entry) in
    match entry with
    | DDir _ (Some entries) =>
        (fix loop (es : list Dirent) : list Path :=
           match es with
           | [] => []
           | e :: es' => failedEntry fullPath e ++ loop es'
           end) entries
    | DDir _ None => [fullPath]
    | _ => []
    end.

Definition traverseFailures (currentPath : Path) (listing : option (list Dirent)) : list Path :=
  match listing with
  | Some entries => concat (map (failedEntry currentPath) entries)
  | None => [currentPath]
  end.

End Utils.

(** ** UrlManager.ts: file names from URLs *)

Module Sanitize.

(** [.replace(/https?:\/\//g, '')]: every occurrence of ["http://"] or
    ["https://"], scanning from the left, is dropped.  [skip] counts the
    characters of the current match that are still to be dropped. *)
Fixpoint stripProtocol (skip : nat) (s : string) : string :=
  match s with
  | EmptyString => EmptyString
  | String c s' =>
      match skip with
      | S n => stripProtocol n s'
      | O =>
          if String.prefix "https://" s then stripProtocol 7 s'
          else if String.prefix "http://" s then stripProtocol 6 s'
          else String c (stripProtocol 0 s')
      end
  end.

Definition isReserved (c : ascii) : bool :=
  Ascii.eqb c "/"%char || Ascii.eqb c ":"%char
  || Ascii.eqb c "?"%char || Ascii.eqb c "#"%char.

(** [.replace(/[/:?#]/g, '_')] *)
Fixpoint replaceReserved (s : string) : string :=
  match s with
  | EmptyString => EmptyString
  | String c s' =>
      String (if isReserved c then "_"%char else c) (replaceReserved s')
  end.

(** [.replace(/_{2,}/g, '_')]: a run of underscores keeps its first one. *)
Fixpoint collapseUnderscores (s : string) : string :=
  match s with
  | EmptyString => EmptyString
  | String c s' =>
      match s' with
      | String c' _ =>
          if Ascii.eqb c "_"%char && Ascii.eqb c' "_"%char
          then collapseUnderscores s'
          else String c (collapseUnderscores s')
      | EmptyString => String c EmptyString
      end
  end.

Definition dropLeadingUnderscore (s : string) : string :=
  match s with
  | String "_"%char s' => s'
  | _ => s
  end.

Fixpoint dropTrailingUnderscore (s : string) : string :=
  match s with
  | EmptyString => EmptyString
  | String c EmptyString => if Ascii.eqb c "_"%char then EmptyString else s
  | String c s' => String c (dropTrailingUnderscore s')
  end.

(** [.replace(/^_|_$/g, '')]: the first match is a leading underscore, a
    later one the underscore that ends what is left. *)
Definition trimUnderscores (s : string) : string :=
  dropTrailingUnderscore (dropLeadingUnderscore s).

(** [.slice(0, 200)] *)
Definition slice200 (s : string) : string := substring 0 200 s.

Definition sanitizeUrlForFilename (url : string) : string :=
  slice200 (trimUnderscores (collapseUnderscores
    (replaceReserved (stripProtocol 0 url)))).

End Sanitize.

(** ** Data model *)

(** A chunk as the vector store keeps it: its text and [{ source }]. *)
Record Metadata := { source : Path }.
Record Document := { pageContent : string; metadata : Metadata }.

(** The vector store, seen through the documents it holds (the vectors are
    the embedding model's business).  Documents are only ever appended. *)
Abbreviation Store := (list Document).

Inductive UrlStatus := pending | approved | rejected.

Record PendingUrl := {
  id : string;
  url : string;
  knowledge_base : string;
  reason : string;
  suggested_at : string;
  status : UrlStatus;
}.

(** What [readFile] followed by [JSON.parse] finds at [PENDING_URLS_FILE].
    The cast [as PendingUrl[]] is taken at its word: content that parses is
    an array of records. *)
Inductive PendingFile :=
| Missing
| Unreadable
| Malformed (raw : string)
| Listed (urls : list PendingUrl).

(** The operations that can throw, named by what they act on. *)
Inductive IoOp :=
| MkdirFaissDir
| ReadModelName
| UnlinkStore
| LoadStore
| WriteModelName
| ReaddirRoot
| HashFile (p : Path)
| MkdirIndexDir (p : Path)
| ReadText (p : Path)
| SplitText (p : Path)
| Embed (p : Path)
| SaveStore (p : Path)
| WriteHash (p : Path)
| RebuildEmbed
| RebuildSave
| Fetch (u : string)
| Convert (u : string)
| MkdirKb (kb : string)
| WriteMarkdown (p : Path)
| MkdirPendingDir
| WritePending.

Inductive Error :=
| Thrown (op : IoOp)
| NotInitialized
| NoPendingUrl (i : string)
| NotPending (i : string) (st : UrlStatus)
| MissingApiKey (provider : string).

(** [handleFsOperationError] logs before it throws and marks the error
    [__alreadyLogged]; these are the operations it guards. *)
Definition alreadyLogged (e : Error) : bool :=
  match e with
  | Thrown (MkdirFaissDir | UnlinkStore | LoadStore | WriteModelName
           | MkdirIndexDir _ | SaveStore _ | WriteHash _ | RebuildSave) => true
  | _ => false
  end.

Inductive LogLine :=
| LogTraverseFailed (p : Path)
| LogReadFailed (p : Path)
| LogFsFailed (op : IoOp)
| LogUncaught (e : Error)
| LogModelNameUnreadable
| LogModelChanged (old new : string).

(** Observable events, oldest first.  Only [warn] and [error] lines of the
    logger are kept. *)
Inductive Event :=
| EvReadText (p : Path)
| EvEmbed (docs : list Document)
| EvSave (ok : bool)
| EvWriteHash (p : Path) (h : string)
| EvLog (l : LogLine).

Record World := {
  rootDir : option (list string);
  kbDirs : gmap string (list Utils.Dirent);
  files : gmap Path string;
  indexDirs : gset Path;
  hashRecords : gmap Path string;
  faissDir : bool;
  storeFile : option Store;
  modelNameFile : option string;
  pendingDir : bool;
  pendingFile : PendingFile;
  faissIndex : option Store;
  trace : list Event;
}.

(** The collaborators the code calls and does not define. *)
Record Env := {
  rootPath : Path;
  sha256hex : string -> string;
  splitMarkdown : string -> list string;
  fault : IoOp -> bool;
  httpGet : string -> option string;
  matchTitle : string -> option string;
  turndown : string -> option string;
  jsonStringify : string -> string;
}.

Definition set_rootDir v (w : World) : World :=
  {| rootDir := v; kbDirs := kbDirs w; files := files w; indexDirs := indexDirs w;
     hashRecords := hashRecords w; faissDir := faissDir w; storeFile := storeFile w;
     modelNameFile := modelNameFile w; pendingDir := pendingDir w;
     pendingFile := pendingFile w; faissIndex := faissIndex w; trace := trace w |}.
Definition set_kbDirs v (w : World) : World :=
  {| rootDir := rootDir w; kbDirs := v; files := files w; indexDirs := indexDirs w;
     hashRecords := hashRecords w; faissDir := faissDir w; storeFile := storeFile w;
     modelNameFile := modelNameFile w; pendingDir := pendingDir w;
     pendingFile := pendingFile w; faissIndex := faissIndex w; trace := trace w |}.
Definition set_files v (w : World) : World :=
  {| rootDir := rootDir w; kbDirs := kbDirs w; files := v; indexDirs := indexDirs w;
     hashRecords := hashRecords w; faissDir := faissDir w; storeFile := storeFile w;
     modelNameFile := modelNameFile w; pendingDir := pendingDir w;
     pendingFile := pendingFile w; faissIndex := faissIndex w; trace := trace w |}.
Definition set_indexDirs v (w : World) : World :=
  {| rootDir := rootDir w; kbDirs := kbDirs w; files := files w; indexDirs := v;
     hashRecords := hashRecords w; faissDir := faissDir w; storeFile := storeFile w;
     modelNameFile := modelNameFile w; pendingDir := pendingDir w;
     pendingFile := pendingFile w; faissIndex := faissIndex w; trace := trace w |}.
Definition set_hashRecords v (w : World) : World :=
  {| rootDir := rootDir w; kbDirs := kbDirs w; files := files w; indexDirs := indexDirs w;
     hashRecords := v; faissDir := faissDir w; storeFile := storeFile w;
     modelNameFile := modelNameFile w; pendingDir := pendingDir w;
     pendingFile := pendingFile w; faissIndex := faissIndex w; trace := trace w |}.
Definition set_faissDir v (w : World) : World :=
  {| rootDir := rootDir w; kbDirs := kbDirs w; files := files w; indexDirs := indexDirs w;
     hashRecords := hashRecords w; faissDir := v; storeFile := storeFile w;
     modelNameFile := modelNameFile w; pendingDir := pendingDir w;
     pendingFile := pendingFile w; faissIndex := faissIndex w; trace := trace w |}.
Definition set_storeFile v (w : World) : World :=
  {| rootDir := rootDir w; kbDirs := kbDirs w; files := files w; indexDirs := indexDirs w;
     hashRecords := hashRecords w; faissDir := faissDir w; storeFile := v;
     modelNameFile := modelNameFile w; pendingDir := pendingDir w;
     pendingFile := pendingFile w; faissIndex := faissIndex w; trace := trace w |}.
Definition set_modelNameFile v (w : World) : World :=
  {| rootDir := rootDir w; kbDirs := kbDirs w; files := files w; indexDirs := indexDirs w;
     hashRecords := hashRecords w; faissDir := faissDir w; storeFile := storeFile w;
     modelNameFile := v; pendingDir := pendingDir w;
     pendingFile := pendingFile w; faissIndex := faissIndex w; trace := trace w |}.
Definition set_pendingDir v (w : World) : World :=
  {| rootDir := rootDir w; kbDirs := kbDirs w; files := files w; indexDirs := indexDirs w;
     hashRecords := hashRecords w; faissDir := faissDir w; storeFile := storeFile w;
     modelNameFile := modelNameFile w; pendingDir := v;
     pendingFile := pendingFile w; faissIndex := faissIndex w; trace := trace w |}.
Definition set_pendingFile v (w : World) : World :=
  {| rootDir := rootDir w; kbDirs := kbDirs w; files := files w; indexDirs := indexDirs w;
     hashRecords := hashRecords w; faissDir := faissDir w; storeFile := storeFile w;
     modelNameFile := modelNameFile w; pendingDir := pendingDir w;
     pendingFile := v; faissIndex := faissIndex w; trace := trace w |}.
Definition set_faissIndex v (w : World) : World :=
  {| rootDir := rootDir w; kbDirs := kbDirs w; files := files w; indexDirs := indexDirs w;
     hashRecords := hashRecords w; faissDir := faissDir w; storeFile := storeFile w;
     modelNameFile := modelNameFile w; pendingDir := pendingDir w;
     pendingFile := pendingFile w; faissIndex := v; trace := trace w |}.
Definition set_trace v (w : World) : World :=
  {| rootDir := rootDir w; kbDirs := kbDirs w; files := files w; indexDirs := indexDirs w;
     hashRecords := hashRecords w; faissDir := faissDir w; storeFile := storeFile w;
     modelNameFile := modelNameFile w; pendingDir := pendingDir w;
     pendingFile := pendingFile w; faissIndex := faissIndex w; trace := v |}.

(** ** The monad: a result or an exception, and the world after either *)

Inductive Res (A : Type) :=
| Ok (a : A)
| Err (e : Error).
Arguments Ok {A} a.
Arguments Err {A} e.

Definition M (A : Type) : Type := World -> Res A * World.

Definition ret {A} (a : A) : M A := fun w => (Ok a, w).

Definition bind {A B} (m : M A) (f : A -> M B) : M B :=
  fun w =>
    match m w with
    | (Ok a, w') => f a w'
    | (Err e, w') => (Err e, w')
    end.

Notation "x <- m ;; k" := (bind m (fun x => k))
  (at level 100, m at next level, right associativity).
Notation "m ;; k" := (bind m (fun _ => k))
  (at level 100, right associativity).

Definition throw {A} (e : Error) : M A := fun w => (Err e, w).
Definition gets {A} (f : World -> A) : M A := fun w => (Ok (f w), w).
Definition modify (f : World -> World) : M unit := fun w => (Ok tt, f w).
Definition emit (ev : Event) : M unit :=
  modify (fun w => set_trace (trace w ++ [ev]) w).
Definition logLine (l : LogLine) : M unit := emit (EvLog l).

(** [try { m } catch (error) { h(error); throw error; }] *)
Definition rethrowing {A} (m : M A) (h : Error -> M unit) : M A :=
  fun w =>
    match m w with
    | (Ok a, w') => (Ok a, w')
    | (Err e, w') =>
        match h e w' with
        | (Ok _, w'') => (Err e, w'')
        | (Err e', w'') => (Err e', w'')
        end
    end.

(** [for (const x of l) { ... }] with the loop-carried variable [b]. *)
Fixpoint foldM {A B} (f : B -> A -> M B) (b : B) (l : list A) : M B :=
  match l with
  | [] => ret b
  | x :: l' => b' <- f b x ;; foldM f b' l'
  end.

Definition when (c : bool) (m : M unit) : M unit := if c then m else ret tt.

(** ** config.ts *)

Module Config.

(** The environment variables read by [config.ts] and by the constructor. *)
Record ProcessEnv := {
  env_EMBEDDING_PROVIDER : option string;
  env_HUGGINGFACE_MODEL_NAME : option string;
  env_OLLAMA_MODEL : option string;
  env_OPENAI_MODEL_NAME : option string;
  env_OPENAI_API_KEY : option string;
  env_HUGGINGFACE_API_KEY : option string;
}.

(** A JavaScript string is truthy when it is not empty. *)
Definition truthy (o : option string) : option string :=
  match o with
  | Some "" => None
  | _ => o
  end.

(** [process.env.X || fallback] *)
Definition orDefault (o : option string) (fallback : string) : string :=
  default fallback (truthy o).

Definition EMBEDDING_PROVIDER (pe : ProcessEnv) : string :=
  orDefault (env_EMBEDDING_PROVIDER pe) "huggingface".
Definition HUGGINGFACE_MODEL_NAME (pe : ProcessEnv) : string :=
  orDefault (env_HUGGINGFACE_MODEL_NAME pe) "sentence-transformers/all-MiniLM-L6-v2".
Definition OLLAMA_MODEL (pe : ProcessEnv) : string :=
  orDefault (env_OLLAMA_MODEL pe) "dengcao/Qwen3-Embedding-0.6B:Q8_0".
Definition OPENAI_MODEL_NAME (pe : ProcessEnv) : string :=
  orDefault (env_OPENAI_MODEL_NAME pe) "text-embedding-ada-002".

End Config.

(** ** FaissIndexManager.ts *)

Module FaissIndexManager.

(** The fields the constructor sets; [faissIndex] lives in the [World]. *)
Record Manager := {
  embeddingProvider : string;
  modelName : string;
}.

Definition constructor (pe : Config.ProcessEnv) : Res Manager :=
  let embeddingProvider := Config.EMBEDDING_PROVIDER pe in
  if String.eqb embeddingProvider "ollama" then
    Ok {| embeddingProvider := embeddingProvider;
          modelName := Config.OLLAMA_MODEL pe |}
  else if String.eqb embeddingProvider "openai" then
    match Config.truthy (Config.env_OPENAI_API_KEY pe) with
    | None => Err (MissingApiKey "openai")
    | Some _ =>
        Ok {| embeddingProvider := embeddingProvider;
              modelName := Config.OPENAI_MODEL_NAME pe |}
    end
  else
    match Config.truthy (Config.env_HUGGINGFACE_API_KEY pe) with
    | None => Err (MissingApiKey "huggingface")
    | Some _ =>
        Ok {| embeddingProvider := embeddingProvider;
              modelName := Config.HUGGINGFACE_MODEL_NAME pe |}
    end.

Section WithEnv.

Variable env : Env.

(** [handleFsOperationError]: log, then throw. *)
Definition handleFsOperationError {A} (op : IoOp) : M A :=
  logLine (LogFsFailed op) ;; throw (Thrown op).

(** The outer [catch] of [initialize] and [updateIndex]. *)
Definition logUnlessLogged (e : Error) : M unit :=
  when (negb (alreadyLogged e)) (logLine (LogUncaught e)).

(** *** initialize *)

Definition mkdirFaissDir : M unit :=
  if fault env MkdirFaissDir then handleFsOperationError MkdirFaissDir
  else modify (set_faissDir true).

(** [fs.existsSync(MODEL_NAME_FILE) ? await fsp.readFile(...) : null], with
    the read error caught and logged as a warning. *)
Definition readStoredModelName : M (option string) :=
  stored <- gets modelNameFile ;;
  match stored with
  | None => ret None
  | Some name =>
      if fault env ReadModelName
      then logLine LogModelNameUnreadable ;; ret None
      else ret (Some name)
  end.

Definition unlinkStore : M unit :=
  if fault env UnlinkStore then handleFsOperationError UnlinkStore
  else modify (set_storeFile None).

Definition loadStore (onDisk : Store) : M unit :=
  if fault env LoadStore then handleFsOperationError LoadStore
  else modify (set_faissIndex (Some onDisk)).

Definition writeModelName (name : string) : M unit :=
  if fault env WriteModelName then handleFsOperationError WriteModelName
  else modify (set_modelNameFile (Some name)).

Definition initialize (this : Manager) : M unit :=
  rethrowing
    (dirExists <- gets faissDir ;;
     when (negb dirExists) mkdirFaissDir ;;
     storedModelName <- readStoredModelName ;;
     match Config.truthy storedModelName with
     | Some stored =>
         if String.eqb stored (modelName this) then ret tt
         else
           logLine (LogModelChanged stored (modelName this)) ;;
           onDisk <- gets storeFile ;;
           when (bool_decide (is_Some onDisk)) unlinkStore ;;
           modify (set_faissIndex None)
     | None => ret tt
     end ;;
     onDisk <- gets storeFile ;;
     match onDisk with
     | Some st => loadStore st
     | None => modify (set_faissIndex None)
     end ;;
     writeModelName (modelName this))
    logUnlessLogged.

(** *** updateIndex *)

(** [calculateSHA256]: reads the file's bytes and digests them. *)
Definition calculateSHA256 (filePath : Path) : M string :=
  content <- gets (fun w => files w !! filePath) ;;
  match content with
  | Some bytes =>
      if fault env (HashFile filePath) then throw (Thrown (HashFile filePath))
      else ret (sha256hex env bytes)
  | None => throw (Thrown (HashFile filePath))
  end.

(** [getFilesRecursively(dirPath)]; [name] is the knowledge base whose
    directory [dirPath] is. *)
Definition getFilesRecursively (dirPath : Path) (name : string) : M (list Path) :=
  listing <- gets (fun w => kbDirs w !! name) ;;
  foldM (fun _ p => logLine (LogTraverseFailed p)) tt
        (Utils.traverseFailures dirPath listing) ;;
  ret (Utils.traverse dirPath listing).

Definition mkdirIndexDir (indexDirPath : Path) : M unit :=
  if fault env (MkdirIndexDir indexDirPath)
  then handleFsOperationError (MkdirIndexDir indexDirPath)
  else modify (fun w => set_indexDirs ({[indexDirPath]} ∪ indexDirs w) w).

(** [fsp.readFile(filePath, 'utf-8')] inside its [try]: [None] when it
    throws. *)
Definition readText (filePath : Path) : M (option string) :=
  emit (EvReadText filePath) ;;
  content <- gets (fun w => files w !! filePath) ;;
  ret (if fault env (ReadText filePath) then None else content).

Definition isMarkdown (filePath : Path) : bool :=
  String.eqb (Str.toLowerCase (Str.extname (PathOps.basename filePath))) ".md".

Definition mkDocument (filePath : Path) (text : string) : Document :=
  {| pageContent := text; metadata := {| source := filePath |} |}.

(** Markdown goes through [MarkdownTextSplitter.createDocuments], any other
    file is one document. *)
Definition createDocuments (filePath : Path) (content : string) : M (list Document) :=
  if isMarkdown filePath then
    if fault env (SplitText filePath) then throw (Thrown (SplitText filePath))
    else ret (map (mkDocument filePath) (splitMarkdown env content))
  else ret [mkDocument filePath content].

(** [FaissStore.fromTexts] when there is no handle yet, [addDocuments]
    otherwise; [op] names the call for the fault table. *)
Definition addToIndex (op : IoOp) (docs : list Document) : M unit :=
  emit (EvEmbed docs) ;;
  if fault env op then throw (Thrown op)
  else
    modify (fun w =>
      set_faissIndex (Some (default [] (faissIndex w) ++ docs)) w).

(** [this.faissIndex.save(...)] with its [catch]. *)
Definition saveIndex (op : IoOp) : M unit :=
  if fault env op then emit (EvSave false) ;; handleFsOperationError op
  else
    emit (EvSave true) ;;
    modify (fun w => set_storeFile (faissIndex w) w).

Definition writeHashRecord (indexFilePath : Path) (fileHash : string) : M unit :=
  if fault env (WriteHash indexFilePath)
  then handleFsOperationError (WriteHash indexFilePath)
  else
    modify (fun w => set_hashRecords (<[indexFilePath := fileHash]> (hashRecords w)) w) ;;
    emit (EvWriteHash indexFilePath fileHash).

Definition indexDirPathOf (knowledgeBasePath filePath : Path) : Path :=
  knowledgeBasePath ++ [".index"]
    ++ PathOps.dirname (PathOps.relative knowledgeBasePath filePath).

Definition indexFilePathOf (knowledgeBasePath filePath : Path) : Path :=
  PathOps.join (indexDirPathOf knowledgeBasePath filePath) (PathOps.basename filePath).

(** The block guarded by [documentsToAdd.length > 0]: add the chunks to the
    store, save the store, then write the hash record. *)
Definition indexDocuments (filePath indexFilePath : Path) (fileHash : string)
    (documentsToAdd : list Document) : M unit :=
  addToIndex (Embed filePath) documentsToAdd ;;
  saveIndex (SaveStore filePath) ;;
  writeHashRecord indexFilePath fileHash.

(** The body of the inner [for] loop. *)
Definition processFile (knowledgeBasePath filePath : Path) : M unit :=
  fileHash <- calculateSHA256 filePath ;;
  let indexDirPath := indexDirPathOf knowledgeBasePath filePath in
  let indexFilePath := indexFilePathOf knowledgeBasePath filePath in
  dirExists <- gets (fun w => bool_decide (indexDirPath ∈ indexDirs w)) ;;
  when (negb dirExists) (mkdirIndexDir indexDirPath) ;;
  storedHash <- gets (fun w => hashRecords w !! indexFilePath) ;;
  if bool_decide (storedHash = Some fileHash) then ret tt
  else
    content <- readText filePath ;;
    match content with
    | None => logLine (LogReadFailed filePath)
    | Some content =>
        documentsToAdd <- createDocuments filePath content ;;
        match documentsToAdd with
        | [] => ret tt
        | _ => indexDocuments filePath indexFilePath fileHash documentsToAdd
        end
    end.

Definition knowledgeBasePathOf (knowledgeBaseName : string) : Path :=
  PathOps.join (rootPath env) knowledgeBaseName.

(** The body of the outer [for] loop; [anyFileProcessed] is carried. *)
Definition scanKnowledgeBase (anyFileProcessed : bool) (knowledgeBaseName : string) : M bool :=
  if Str.startsWithDot knowledgeBaseName then ret anyFileProcessed
  else
    let knowledgeBasePath := knowledgeBasePathOf knowledgeBaseName in
    filePaths <- getFilesRecursively knowledgeBasePath knowledgeBaseName ;;
    foldM (fun _ filePath => processFile knowledgeBasePath filePath ;; ret true)
          anyFileProcessed filePaths.

(** The fallback: collect the documents of every file of every scanned
    knowledge base. *)
Definition collectFile (allDocuments : list Document) (filePath : Path) : M (list Document) :=
  content <- readText filePath ;;
  match content with
  | None => logLine (LogReadFailed filePath) ;; ret allDocuments
  | Some content =>
      documents <- createDocuments filePath content ;;
      ret (allDocuments ++ documents)
  end.

Definition collectKnowledgeBase (allDocuments : list Document) (knowledgeBaseName : string)
  : M (list Document) :=
  if Str.startsWithDot knowledgeBaseName then ret allDocuments
  else
    filePaths <- getFilesRecursively (knowledgeBasePathOf knowledgeBaseName) knowledgeBaseName ;;
    foldM collectFile allDocuments filePaths.

(** The block guarded by [allDocuments.length > 0]. *)
Definition buildFromAll (allDocuments : list Document) : M unit :=
  addToIndex RebuildEmbed allDocuments ;;
  saveIndex RebuildSave.

Definition rebuild (knowledgeBases : list string) : M unit :=
  allDocuments <- foldM collectKnowledgeBase [] knowledgeBases ;;
  match allDocuments with
  | [] => ret tt
  | _ => buildFromAll allDocuments
  end.

Definition readdirRoot : M (list string) :=
  listing <- gets rootDir ;;
  match listing with
  | Some names => ret names
  | None => throw (Thrown ReaddirRoot)
  end.

Definition updateIndex (specificKnowledgeBase : option string) : M unit :=
  rethrowing
    (knowledgeBases <-
       match Config.truthy specificKnowledgeBase with
       | Some name => ret [name]
       | None => readdirRoot
       end ;;
     anyFileProcessed <- foldM scanKnowledgeBase false knowledgeBases ;;
     handle <- gets faissIndex ;;
     when (bool_decide (handle = None) && anyFileProcessed) (rebuild knowledgeBases))
    logUnlessLogged.

End WithEnv.

(** *** similaritySearch *)

(** The filter object [{ score: { $lte: threshold } }]. *)
Record ScoreFilter := { score_lte : Q }.

(** [{ ...doc, score }] *)
Record SearchResult := {
  resultPageContent : string;
  resultMetadata : Metadata;
  score : Q;
}.

Definition withScore (hit : Document * Q) : SearchResult :=
  {| resultPageContent := pageContent hit.1;
     resultMetadata := metadata hit.1;
     score := hit.2 |}.

Section Search.

(** The store's [similaritySearchWithScore(query, k, filter)]. *)
Variable similaritySearchWithScore :
  Store -> string -> nat -> ScoreFilter -> Res (list (Document * Q)).

Definition similaritySearch (query : string) (k : nat) (threshold : option Q)
  : M (list SearchResult) :=
  handle <- gets faissIndex ;;
  match handle with
  | None => throw NotInitialized
  | Some store =>
      let filter := {| score_lte := default (2 # 1)%Q threshold |} in
      match similaritySearchWithScore store query k filter with
      | Ok resultsWithScore => ret (map withScore resultsWithScore)
      | Err e => throw e
      end
  end.

End Search.

End FaissIndexManager.

(** ** UrlManager.ts *)

Module UrlManager.

Section WithEnv.

Variable env : Env.

(** The callback handed to the constructor. *)
Variable reindex : string -> M unit.

Definition loadPendingUrls : M (list PendingUrl) :=
  onDisk <- gets pendingFile ;;
  ret (match onDisk with
       | Listed urls => urls
       | Missing | Unreadable | Malformed _ => []
       end).

Definition savePendingUrls (urls : list PendingUrl) : M unit :=
  dirExists <- gets pendingDir ;;
  when (negb dirExists)
    (if fault env MkdirPendingDir then throw (Thrown MkdirPendingDir)
     else modify (set_pendingDir true)) ;;
  if fault env WritePending then throw (Thrown WritePending)
  else modify (set_pendingFile (Listed urls)).

Definition fetchAndConvert (url : string) : M (string * string) :=
  match httpGet env url with
  | None => throw (Thrown (Fetch url))
  | Some html =>
      let title := default url (matchTitle env html) in
      match turndown env html with
      | None => throw (Thrown (Convert url))
      | Some markdown => ret (markdown, title)
      end
  end.

Definition isDirNamed (name : string) (d : Utils.Dirent) : bool :=
  match d with
  | Utils.DDir n _ => String.eqb n name
  | _ => false
  end.

Definition hasName (name : string) (d : Utils.Dirent) : bool :=
  String.eqb (Utils.direntName d) name.

(** [fsp.mkdir(dir, { recursive: true })] for a knowledge base that does
    not exist yet. *)
Definition mkdirKb (knowledgeBase : string) : M unit :=
  if fault env (MkdirKb knowledgeBase) then throw (Thrown (MkdirKb knowledgeBase))
  else
    modify (fun w =>
      set_rootDir (Some (default [] (rootDir w) ++ [knowledgeBase]))
        (set_kbDirs (<[knowledgeBase := []]> (kbDirs w)) w)).

(** [fsp.writeFile(filePath, content)] for a file directly under a knowledge
    base: it replaces a file of that name, fails on a directory of that
    name, and otherwise adds an entry to the directory. *)
Definition writeKbFile (knowledgeBase filename : string) (filePath : Path)
    (content : string) : M unit :=
  listing <- gets (fun w => kbDirs w !! knowledgeBase) ;;
  match listing with
  | None => throw (Thrown (WriteMarkdown filePath))
  | Some entries =>
      if fault env (WriteMarkdown filePath) || existsb (isDirNamed filename) entries
      then throw (Thrown (WriteMarkdown filePath))
      else
        let entries' :=
          if existsb (hasName filename) entries then entries
          else entries ++ [Utils.DFile filename] in
        modify (fun w =>
          set_files (<[filePath := content]> (files w))
            (set_kbDirs (<[knowledgeBase := entries']> (kbDirs w)) w))
  end.

Definition frontmatter (url title fetchedAt : string) : string :=
  "---
url: " +:+ url +:+ "
title: " +:+ jsonStringify env title +:+ "
fetched_at: " +:+ fetchedAt +:+ "
---

".

(** [fetchedAt] is the clock reading [new Date().toISOString()]. *)
Definition saveMarkdown (knowledgeBase url title markdown fetchedAt : string) : M Path :=
  let filename := Sanitize.sanitizeUrlForFilename url +:+ ".md" in
  let dir := PathOps.join (rootPath env) knowledgeBase in
  dirExists <- gets (fun w => bool_decide (is_Some (kbDirs w !! knowledgeBase))) ;;
  when (negb dirExists) (mkdirKb knowledgeBase) ;;
  let filePath := PathOps.join dir filename in
  writeKbFile knowledgeBase filename filePath
    (frontmatter url title fetchedAt +:+ markdown) ;;
  ret filePath.

(** [uuid] is the value of [crypto.randomUUID()], [now] the clock. *)
Definition suggestUrl (uuid now url knowledgeBase reason : string) : M PendingUrl :=
  urls <- loadPendingUrls ;;
  let entry := {| id := uuid; url := url; knowledge_base := knowledgeBase;
                  reason := reason; suggested_at := now; status := pending |} in
  savePendingUrls (urls ++ [entry]) ;;
  ret entry.

Definition isPending (u : PendingUrl) : bool :=
  match status u with
  | pending => true
  | _ => false
  end.

Definition listPendingUrls : M (list PendingUrl) :=
  urls <- loadPendingUrls ;;
  ret (List.filter isPending urls).

Definition hasId (i : string) (u : PendingUrl) : bool := String.eqb (id u) i.

Definition setApproved (u : PendingUrl) : PendingUrl :=
  {| id := id u; url := url u; knowledge_base := knowledge_base u;
     reason := reason u; suggested_at := suggested_at u; status := approved |}.

(** [entry.status = 'approved'] where [entry] is the element of [urls] that
    [find] returned: the array sees the change at that position. *)
Fixpoint approveFound (i : string) (urls : list PendingUrl) : list PendingUrl :=
  match urls with
  | [] => []
  | u :: urls' =>
      if hasId i u then setApproved u :: urls' else u :: approveFound i urls'
  end.

(** [urls.findIndex(p)]; [None] stands for [-1]. *)
Fixpoint findIndex (p : PendingUrl -> bool) (urls : list PendingUrl) : option nat :=
  match urls with
  | [] => None
  | u :: urls' => if p u then Some 0 else S <$> findIndex p urls'
  end.

Definition approveUrl (i now : string) : M (Path * string) :=
  urls <- loadPendingUrls ;;
  match List.find (hasId i) urls with
  | None => throw (NoPendingUrl i)
  | Some entry =>
      if negb (isPending entry) then throw (NotPending i (status entry))
      else
        converted <- fetchAndConvert (url entry) ;;
        filePath <- saveMarkdown (knowledge_base entry) (url entry)
                      converted.2 converted.1 now ;;
        savePendingUrls (approveFound i urls) ;;
        reindex (knowledge_base entry) ;;
        ret (filePath, knowledge_base entry)
  end.

(** [urls.splice(idx, 1)] is [delete idx urls]. *)
Definition rejectUrl (i : string) : M unit :=
  urls <- loadPendingUrls ;;
  match findIndex (hasId i) urls with
  | None => throw (NoPendingUrl i)
  | Some idx => savePendingUrls (delete idx urls)
  end.

Definition addUrl (url knowledgeBase now : string) : M Path :=
  converted <- fetchAndConvert url ;;
  filePath <- saveMarkdown knowledgeBase url converted.2 converted.1 now ;;
  reindex knowledgeBase ;;
  ret filePath.

End WithEnv.

End UrlManager.

(** ** logger.ts *)

Module Logger.

Inductive LogLevel := debug | info | warn | error.

Definition LEVEL_PRIORITY (level : LogLevel) : nat :=
  match level with
  | debug => 10
  | info => 20
  | warn => 30
  | error => 40
  end.

Definition levelName (level : LogLevel) : string :=
  match level with
  | debug => "debug"
  | info => "info"
  | warn => "warn"
  | error => "error"
  end.

(** What [LEVEL_PRIORITY[key]] gives for an arbitrary string: the number of
    an own key; for ["constructor"] and ["__proto__"], the only lower-case
    names found on [Object.prototype], an object; [undefined] otherwise. *)
Inductive Looked :=
| Number (n : nat)
| Inherited
| Undefined.

Definition lookup (key : string) : Looked :=
  if String.eqb key "debug" then Number 10
  else if String.eqb key "info" then Number 20
  else if String.eqb key "warn" then Number 30
  else if String.eqb key "error" then Number 40
  else if String.eqb key "constructor" || String.eqb key "__proto__" then Inherited
  else Undefined.

Definition truthy (v : Looked) : bool :=
  match v with
  | Number n => negb (n =? 0)%nat
  | Inherited => true
  | Undefined => false
  end.

(** [a < b]: a comparison with something that is not a number is false. *)
Definition lessThan (a b : Looked) : bool :=
  match a, b with
  | Number x, Number y => (x <? y)%nat
  | _, _ => false
  end.

(** [(process.env.LOG_LEVEL || 'info').toLowerCase()]; no letter outside
    the ASCII range lower-cases to a letter of the names looked up. *)
Definition envLevel (LOG_LEVEL : option string) : string :=
  Str.toLowerCase (Config.orDefault LOG_LEVEL "info").

Definition activeLevel (LOG_LEVEL : option string) : string :=
  if truthy (lookup (envLevel LOG_LEVEL)) then envLevel LOG_LEVEL else "info".

(** The guard of [write]: [true] when the line is not dropped. *)
Definition passes (LOG_LEVEL : option string) (level : LogLevel) : bool :=
  negb (lessThan (Number (LEVEL_PRIORITY level)) (lookup (activeLevel LOG_LEVEL))).

(** The destinations: [process.stderr] and the stream of the log file. *)
Inductive Destination := Stderr | LogFile.

#[global] Instance Destination_eq_dec : EqDecision Destination.
Proof. solve_decision. Defined.

(** What each destination has received, oldest first. *)
Record Streams := {
  stderrLines : list string;
  fileLines : list string;
}.

Definition received (d : Destination) (s : Streams) : list string :=
  match d with
  | Stderr => stderrLines s
  | LogFile => fileLines s
  end.

Definition push (d : Destination) (line : string) (s : Streams) : Streams :=
  match d with
  | Stderr => {| stderrLines := stderrLines s ++ [line]; fileLines := fileLines s |}
  | LogFile => {| stderrLines := stderrLines s; fileLines := fileLines s ++ [line] |}
  end.

(** The start of the module: [destinations] begins as [[process.stderr]];
    with [LOG_FILE] set, the parent directory is made when missing, the file
    is touched and its stream is added; a failure on the way is reported on
    stderr and leaves stderr alone in the list. *)
Record FileSetup := {
  parentExists : bool;
  mkdirFails : bool;
  appendFails : bool;
}.

Definition destinations (LOG_FILE : option string) (setup : FileSetup) : list Destination :=
  match Config.truthy LOG_FILE with
  | None => [Stderr]
  | Some _ =>
      if negb (parentExists setup) && mkdirFails setup then [Stderr]
      else if appendFails setup then [Stderr]
      else [Stderr; LogFile]
  end.

Section Write.

(** Whether [destination.write] throws. *)
Variable throws : Destination -> bool.

(** [destination.write(line)]: [None] when it throws. *)
Definition writeTo (d : Destination) (line : string) (s : Streams) : option Streams :=
  if throws d then None else Some (push d line s).

(** The loop of [write]; [failure] is the line written to stderr when
    another destination fails.  [None]: the [catch] block itself threw. *)
Fixpoint deliver (dests : list Destination) (line failure : string) (s : Streams)
  : option Streams :=
  match dests with
  | [] => Some s
  | d :: rest =>
      match writeTo d line s with
      | Some s' => deliver rest line failure s'
      | None =>
          match d with
          | Stderr => deliver rest line failure s
          | LogFile =>
              match writeTo Stderr failure s with
              | Some s' => deliver rest line failure s'
              | None => None
              end
          end
      end
  end.

Definition upper (level : LogLevel) : string :=
  match level with
  | debug => "DEBUG"
  | info => "INFO"
  | warn => "WARN"
  | error => "ERROR"
  end.

(** [now] is [new Date().toISOString()], [message] is [format(...args)]. *)
Definition formatLine (now : string) (level : LogLevel) (message : string) : string :=
  now +:+ " [" +:+ upper level +:+ "] " +:+ message +:+ "
".

Definition write (LOG_LEVEL : option string) (dests : list Destination)
    (now : string) (level : LogLevel) (message failure : string) (s : Streams)
  : option Streams :=
  if passes LOG_LEVEL level
  then deliver dests (formatLine now level message) failure s
  else Some s.

End Write.

End Logger.

(** ** KnowledgeBaseServer.ts *)

Module KnowledgeBaseServer.

#[local] Set Warnings "-register-all".

(** A JSON value, as the arguments of a tool call carry them. *)
Inductive Json :=
| JNull
| JBool (b : bool)
| JNumber (n : Q)
| JString (s : string)
| JArray (items : list Json)
| JObject (fields : list (string * Json)).

(** [request.params.arguments]: an object, or nothing. *)
Definition Args : Type := option (gmap string Json).

(** [typeof v === 'string'] and [typeof v === 'number'], with the value. *)
Definition asString (v : option Json) : option string :=
  match v with
  | Some (JString s) => Some s
  | _ => None
  end.

Definition asNumber (v : option Json) : option Q :=
  match v with
  | Some (JNumber n) => Some n
  | _ => None
  end.

Inductive ErrorCode := MethodNotFound | InvalidParams.

Inductive McpError := McpErr (code : ErrorCode) (message : string).

(** [{ content: [{ type: 'text', text }], isError }] *)
Record ToolResult := {
  text : string;
  isError : bool;
}.

Inductive Outcome :=
| Reply (r : ToolResult)
| Raise (e : McpError).

(** The [logger.error] calls of the handlers: the line that opens with the
    handler's prefix and carries the error, and the [error.stack] that two
    of the handlers and [run] log after it. *)
Inductive ServerLine :=
| LogListing (e : Error)
| LogRetrieving (e : Error)
| LogSuggesting (e : Error)
| LogListingPending (e : Error)
| LogApproving (e : Error)
| LogRejecting (e : Error)
| LogAdding (e : Error)
| LogStartup (e : Error)
| LogStack (stack : string).

(** What a handler leaves: its outcome, its error lines, the world. *)
Record Served := {
  outcome : Outcome;
  logged : list ServerLine;
  after : World;
}.

Definition Handler : Type := World -> Served.

(** The tools as [ListTools] advertises them: name, properties with their
    types, required properties. *)
Inductive JsonType := TString | TNumber.

Record Tool := {
  name : string;
  properties : list (string * JsonType);
  required : list string;
}.

Definition tools : list Tool :=
  [ {| name := "list_knowledge_bases"; properties := []; required := [] |};
    {| name := "retrieve_knowledge";
       properties := [("query", TString); ("knowledge_base_name", TString);
                      ("threshold", TNumber)];
       required := ["query"] |};
    {| name := "suggest_url";
       properties := [("url", TString); ("knowledge_base", TString); ("reason", TString)];
       required := ["url"; "knowledge_base"; "reason"] |};
    {| name := "list_pending_urls"; properties := []; required := [] |};
    {| name := "approve_url"; properties := [("id", TString)]; required := ["id"] |};
    {| name := "reject_url"; properties := [("id", TString)]; required := ["id"] |};
    {| name := "add_url";
       properties := [("url", TString); ("knowledge_base", TString)];
       required := ["url"; "knowledge_base"] |} ].

(** What the handlers leave to the platform: the formatting, and the
    [stack] of an error when it has one. *)
Record Render := {
  stringifyNames : list string -> string;
  stringifyMetadata : Metadata -> string;
  stringifyEntry : PendingUrl -> string;
  toFixed2 : Q -> string;
  trim : string -> string;
  ioMessage : IoOp -> string;
  pathString : Path -> string;
  errorStack : Error -> option string;
}.

(** One double quote. *)
Definition dq : string := String (ascii_of_nat 34) EmptyString.

(** [array.join(separator)] *)
Fixpoint join (separator : string) (parts : list string) : string :=
  match parts with
  | [] => ""
  | [part] => part
  | part :: rest => part +:+ separator +:+ join separator rest
  end.

Section WithEnv.

Variable env : Env.
Variable render : Render.

(** The store's [similaritySearchWithScore]. *)
Variable similaritySearchWithScore :
  Store -> string -> nat -> FaissIndexManager.ScoreFilter -> Res (list (Document * Q)).

Definition statusName (st : UrlStatus) : string :=
  match st with
  | pending => "pending"
  | approved => "approved"
  | rejected => "rejected"
  end.

(** [error.message] *)
Definition errorMessage (e : Error) : string :=
  match e with
  | Thrown op => ioMessage render op
  | NotInitialized => "FAISS index is not initialized"
  | NoPendingUrl i => "No pending URL found with id: " +:+ i
  | NotPending i st =>
      "URL " +:+ i +:+ " has status " +:+ dq +:+ statusName st +:+ dq
      +:+ ", expected " +:+ dq +:+ "pending" +:+ dq
  | MissingApiKey provider =>
      if String.eqb provider "openai"
      then "OPENAI_API_KEY environment variable is required when using OpenAI provider"
      else "HUGGINGFACE_API_KEY environment variable is required when using HuggingFace provider"
  end.

Definition reply (t : string) : Handler :=
  fun w => {| outcome := Reply {| text := t; isError := false |}; logged := []; after := w |}.

Definition raise (code : ErrorCode) (message : string) : Handler :=
  fun w => {| outcome := Raise (McpErr code message); logged := []; after := w |}.

(** [if (error?.stack) { logger.error(error.stack); }] *)
Definition stackLines (e : Error) : list ServerLine :=
  match Config.truthy (errorStack render e) with
  | Some stack => [LogStack stack]
  | None => []
  end.

(** [try { const a = await m; return ok(a) } catch (error) { logger.error(...);
    return { ..., isError: true } }]; [withStack] tells whether the [catch]
    block logs the stack as well. *)
Definition tryCatch {A} (m : M A) (ok : A -> string)
    (line : Error -> ServerLine) (withStack : bool) (prefix : string) : Handler :=
  fun w =>
    match m w with
    | (Ok a, w') =>
        {| outcome := Reply {| text := ok a; isError := false |};
           logged := []; after := w' |}
    | (Err e, w') =>
        {| outcome := Reply {| text := prefix +:+ errorMessage e; isError := true |};
           logged := line e :: (if withStack then stackLines e else []);
           after := w' |}
    end.

(** The wiring of the constructor: [new UrlManager((kb) =>
    this.faissManager.updateIndex(kb))]. *)
Definition reindex (kb : string) : M unit := FaissIndexManager.updateIndex env (Some kb).

Definition handleListKnowledgeBases : Handler :=
  tryCatch FaissIndexManager.readdirRoot
    (fun entries =>
       stringifyNames render (List.filter (fun entry => negb (Str.startsWithDot entry)) entries))
    LogListing true "Error listing knowledge bases: ".

Definition formatResult (idx : nat) (doc : FaissIndexManager.SearchResult) : string :=
  "**Result " +:+ pretty (idx + 1)%nat +:+ ":**

" +:+ ("**Score:** " +:+ toFixed2 render (FaissIndexManager.score doc) +:+ "

") +:+ trim render (FaissIndexManager.resultPageContent doc) +:+ "

**Source:**
```json
" +:+ stringifyMetadata render (FaissIndexManager.resultMetadata doc) +:+ "
```".

Definition disclaimer : string := "

> **Disclaimer:** The provided results might not all be relevant. Please cross-check the relevance of the information.".

Definition formatResults (results : list FaissIndexManager.SearchResult) : string :=
  let formattedResults :=
    match results with
    | [] => "_No similar results found._"
    | _ => join "

---

" (imap formatResult results)
    end in
  "## Semantic Search Results

" +:+ formattedResults +:+ disclaimer.

Definition handleRetrieveKnowledge (args : Args) : Handler :=
  match args with
  | None =>
      raise InvalidParams "Invalid arguments for retrieve_knowledge: missing query"
  | Some fields =>
      match asString (fields !! "query") with
      | None =>
          raise InvalidParams "Invalid arguments for retrieve_knowledge: missing query"
      | Some query =>
          let knowledgeBaseName := asString (fields !! "knowledge_base_name") in
          let threshold := asNumber (fields !! "threshold") in
          tryCatch
            (FaissIndexManager.updateIndex env knowledgeBaseName ;;
             FaissIndexManager.similaritySearch similaritySearchWithScore query 10 threshold)
            formatResults LogRetrieving true "Error retrieving knowledge: "
      end
  end.

(** [uuid] and [now] are what [crypto.randomUUID()] and the clock give
    during the call. *)
Definition handleSuggestUrl (uuid now : string) (args : Args) : Handler :=
  match args with
  | None => raise InvalidParams "suggest_url requires url, knowledge_base, and reason strings"
  | Some fields =>
      match asString (fields !! "url"), asString (fields !! "knowledge_base"),
            asString (fields !! "reason") with
      | Some url, Some knowledge_base, Some reason =>
          tryCatch (UrlManager.suggestUrl env uuid now url knowledge_base reason)
            (fun entry =>
               "URL suggestion enregistrée (en attente de validation) :
```json
" +:+ stringifyEntry render entry +:+ "
```")
            LogSuggesting false "Error suggesting URL: "
      | _, _, _ =>
          raise InvalidParams "suggest_url requires url, knowledge_base, and reason strings"
      end
  end.

Definition formatPending (i : nat) (u : PendingUrl) : string :=
  "**" +:+ pretty (i + 1)%nat +:+ ".** `" +:+ id u +:+ "`
- URL: " +:+ url u +:+ "
- KB: " +:+ knowledge_base u +:+ "
- Raison: " +:+ reason u +:+ "
- Proposée: " +:+ suggested_at u.

Definition handleListPendingUrls : Handler :=
  tryCatch UrlManager.listPendingUrls
    (fun urls =>
       match urls with
       | [] => "_Aucune URL en attente._"
       | _ =>
           "## URLs en attente de validation (" +:+ pretty (length urls) +:+ ")

" +:+ join "

" (imap formatPending urls)
       end)
    LogListingPending false "Error listing pending URLs: ".

Definition handleApproveUrl (now : string) (args : Args) : Handler :=
  match args with
  | None => raise InvalidParams "approve_url requires an id string"
  | Some fields =>
      match asString (fields !! "id") with
      | None => raise InvalidParams "approve_url requires an id string"
      | Some i =>
          tryCatch (UrlManager.approveUrl env reindex i now)
            (fun result =>
               "✅ URL approuvée et indexée :
- Fichier: " +:+ pathString render result.1 +:+ "
- KB: " +:+ result.2)
            LogApproving false "Error approving URL: "
      end
  end.

Definition handleRejectUrl (args : Args) : Handler :=
  match args with
  | None => raise InvalidParams "reject_url requires an id string"
  | Some fields =>
      match asString (fields !! "id") with
      | None => raise InvalidParams "reject_url requires an id string"
      | Some i =>
          tryCatch (UrlManager.rejectUrl env i)
            (fun _ => "❌ URL rejetée et supprimée : " +:+ i)
            LogRejecting false "Error rejecting URL: "
      end
  end.

Definition handleAddUrl (now : string) (args : Args) : Handler :=
  match args with
  | None => raise InvalidParams "add_url requires url and knowledge_base strings"
  | Some fields =>
      match asString (fields !! "url"), asString (fields !! "knowledge_base") with
      | Some url, Some knowledge_base =>
          tryCatch (UrlManager.addUrl env reindex url knowledge_base now)
            (fun filePath =>
               "✅ URL ajoutée et indexée :
- Fichier: " +:+ pathString render filePath)
            LogAdding false "Error adding URL: "
      | _, _ => raise InvalidParams "add_url requires url and knowledge_base strings"
      end
  end.

(** The handler of [CallToolRequestSchema]. *)
Definition callTool (uuid now : string) (toolName : string) (args : Args) : Handler :=
  if String.eqb toolName "list_knowledge_bases" then handleListKnowledgeBases
  else if String.eqb toolName "retrieve_knowledge" then handleRetrieveKnowledge args
  else if String.eqb toolName "suggest_url" then handleSuggestUrl uuid now args
  else if String.eqb toolName "list_pending_urls" then handleListPendingUrls
  else if String.eqb toolName "approve_url" then handleApproveUrl now args
  else if String.eqb toolName "reject_url" then handleRejectUrl args
  else if String.eqb toolName "add_url" then handleAddUrl now args
  else raise MethodNotFound ("Unknown tool: " +:+ toolName).

(** [run]: once the transport is connected, [initialize]; a failure is
    logged and not passed on. *)
Definition run (this : FaissIndexManager.Manager) : World -> list ServerLine * World :=
  fun w =>
    match FaissIndexManager.initialize env this w with
    | (Ok _, w') => ([], w')
    | (Err e, w') => (LogStartup e :: stackLines e, w')
    end.

End WithEnv.

End KnowledgeBaseServer.

(** * Fixtures and specification predicates *)

(** Ascending score: the nearer hit comes first. *)
Definition nearerFirst (h1 h2 : Document * Q) : Prop := (h1.2 <= h2.2)%Q.

Definition ascendingScore (r1 r2 : FaissIndexManager.SearchResult) : Prop :=
  (FaissIndexManager.score r1 <= FaissIndexManager.score r2)%Q.

#[global] Instance Qle_decision (x y : Q) : Decision (x <= y)%Q.
Proof.
  destruct (Qlt_le_dec y x) as [Hlt | Hle].
  - right. apply Qlt_not_le, Hlt.
  - left. exact Hle.
Defined.

#[global] Instance nearerFirst_decision : RelDecision nearerFirst.
Proof. intros h1 h2. unfold nearerFirst. apply _. Defined.

Module Fixtures.

Definition emptyWorld : World :=
  {| rootDir := Some []; kbDirs := ∅; files := ∅; indexDirs := ∅;
     hashRecords := ∅; faissDir := true; storeFile := None;
     modelNameFile := None; pendingDir := true; pendingFile := Missing;
     faissIndex := None; trace := [] |}.

Definition noFault (op : IoOp) : bool := false.

(** A stand-in environment: the digest is the content itself and markdown
    is one chunk, unless it is empty. *)
Definition plainEnv (faults : IoOp -> bool) : Env :=
  {| rootPath := ["kbs"];
     sha256hex := fun bytes => bytes;
     splitMarkdown := fun text => if String.eqb text "" then [] else [text];
     fault := faults;
     httpGet := fun u => Some ("<html>" +:+ u +:+ "</html>");
     matchTitle := fun _ => None;
     turndown := fun html => Some html;
     jsonStringify := fun s => s |}.

Definition docA : Document := {| pageContent := "alpha"; metadata := {| source := ["kbs"; "kb1"; "a.md"] |} |}.
Definition docB : Document := {| pageContent := "beta"; metadata := {| source := ["kbs"; "kb1"; "b.txt"] |} |}.
Definition docC : Document := {| pageContent := "gamma"; metadata := {| source := ["kbs"; "kb1"; "c.md"] |} |}.

(** A reference store: the distance of a document to the query is the
    difference of their lengths; hits are sorted, filtered and cut. *)
Definition lengthDistance (query : string) (d : Document) : Q :=
  inject_Z (Z.abs (Z.of_nat (String.length query) - Z.of_nat (String.length (pageContent d)))).

Definition referenceSearch (store : Store) (query : string) (k : nat)
    (f : FaissIndexManager.ScoreFilter) : Res (list (Document * Q)) :=
  Ok (take k
        (filter (fun h => (h.2 <= FaissIndexManager.score_lte f)%Q)
           (merge_sort nearerFirst
              (map (fun d => (d, lengthDistance query d)) store)))).

Definition searchableWorld : World :=
  set_faissIndex (Some [docA; docB; docC]) emptyWorld.

(** Two configurations that name the same model under different
    providers, and a world with a persisted store. *)
Definition openaiProcess : Config.ProcessEnv :=
  {| Config.env_EMBEDDING_PROVIDER := Some "openai";
     Config.env_HUGGINGFACE_MODEL_NAME := None;
     Config.env_OLLAMA_MODEL := None;
     Config.env_OPENAI_MODEL_NAME := Some "shared-model";
     Config.env_OPENAI_API_KEY := Some "key";
     Config.env_HUGGINGFACE_API_KEY := None |}.

Definition ollamaProcess : Config.ProcessEnv :=
  {| Config.env_EMBEDDING_PROVIDER := Some "ollama";
     Config.env_HUGGINGFACE_MODEL_NAME := None;
     Config.env_OLLAMA_MODEL := Some "shared-model";
     Config.env_OPENAI_MODEL_NAME := None;
     Config.env_OPENAI_API_KEY := None;
     Config.env_HUGGINGFACE_API_KEY := None |}.

Definition openaiManager : FaissIndexManager.Manager :=
  {| FaissIndexManager.embeddingProvider := "openai";
     FaissIndexManager.modelName := "shared-model" |}.

Definition ollamaManager : FaissIndexManager.Manager :=
  {| FaissIndexManager.embeddingProvider := "ollama";
     FaissIndexManager.modelName := "shared-model" |}.

Definition otherManager : FaissIndexManager.Manager :=
  {| FaissIndexManager.embeddingProvider := "ollama";
     FaissIndexManager.modelName := "other-model" |}.

Definition storedWorld : World :=
  set_storeFile (Some [docA]) emptyWorld.

Definition driftedWorld : World :=
  set_modelNameFile (Some "shared-model") (set_faissIndex (Some [docA]) storedWorld).

(** Pending lists. *)
Definition entryPending : PendingUrl :=
  {| id := "u1"; url := "https://x/doc"; knowledge_base := "kb1";
     reason := "useful"; suggested_at := "2024-01-01T00:00:00.000Z";
     status := pending |}.

Definition entryApproved : PendingUrl :=
  {| id := "u2"; url := "https://x/old"; knowledge_base := "kb1";
     reason := "done"; suggested_at := "2023-12-31T00:00:00.000Z";
     status := approved |}.

Definition pendingWorld : World :=
  set_pendingFile (Listed [entryApproved; entryPending]) emptyWorld.

Definition corruptWorld : World :=
  set_pendingFile (Malformed "[{ not json") emptyWorld.

(** The wiring of [KnowledgeBaseServer]: re-indexing is [updateIndex] on the
    one knowledge base. *)
(** A root with one knowledge base holding a markdown file and a text
    file. *)
Definition kb1Path : Path := ["kbs"; "kb1"].

Definition twoFileWorld : World :=
  set_rootDir (Some ["kb1"])
    (set_kbDirs {[ "kb1" := [Utils.DFile "a.md"; Utils.DFile "b.txt"] ]}
       (set_files {[ kb1Path ++ ["a.md"] := "# Hello"; kb1Path ++ ["b.txt"] := "World" ]}
          emptyWorld)).

(** The splitter fails on [a.md]. *)
Definition splitFault (op : IoOp) : bool :=
  match op with
  | SplitText p => bool_decide (p = kb1Path ++ ["a.md"])
  | _ => false
  end.

(** The utf-8 read of [a.md] fails (its bytes could be hashed). *)
Definition readFault (op : IoOp) : bool :=
  match op with
  | ReadText p => bool_decide (p = kb1Path ++ ["a.md"])
  | _ => false
  end.

(** Saving the store fails once the chunks of [b.txt] are added. *)
Definition saveFault (op : IoOp) : bool :=
  match op with
  | SaveStore p => bool_decide (p = kb1Path ++ ["b.txt"])
  | _ => false
  end.

Definition reindexWith (env : Env) (knowledgeBase : string) : M unit :=
  FaissIndexManager.updateIndex env (Some knowledgeBase).

End Fixtures.

(** Further scenarios: worlds, fault tables and a renderer for the examples
    of the properties below. *)
Module Scenarios.

(** [twoFileWorld] once indexed, then with the store deleted and the handle
    reset, as [initialize] leaves things when the model name has changed. *)
Definition resetWorld : World :=
  set_faissIndex None
    (set_storeFile None
       (FaissIndexManager.updateIndex (Fixtures.plainEnv Fixtures.noFault) None
          Fixtures.twoFileWorld).2).

(** Saving the store always fails. *)
Definition noSave (op : IoOp) : bool :=
  match op with
  | SaveStore _ | RebuildSave => true
  | _ => false
  end.

(** A stand-in for the platform's formatting. *)
Definition plainRender : KnowledgeBaseServer.Render :=
  {| KnowledgeBaseServer.stringifyNames := KnowledgeBaseServer.join ",";
     KnowledgeBaseServer.stringifyMetadata := fun m => KnowledgeBaseServer.join "/" (source m);
     KnowledgeBaseServer.stringifyEntry := fun u => id u;
     KnowledgeBaseServer.toFixed2 := fun _ => "0.00";
     KnowledgeBaseServer.trim := fun s => s;
     KnowledgeBaseServer.ioMessage := fun _ => "EIO";
     KnowledgeBaseServer.errorStack := fun _ => Some "Error: at handler";
     KnowledgeBaseServer.pathString := KnowledgeBaseServer.join "/" |}.

End Scenarios.

(** The records a pending-list file holds, as [loadPendingUrls] sees it. *)
Definition pendingUrlsOf (w : World) : list PendingUrl :=
  match pendingFile w with
  | Listed urls => urls
  | Missing | Unreadable | Malformed _ => []
  end.

(** A file that is missing, unreadable or not valid JSON. *)
Definition unusable (f : PendingFile) : bool :=
  match f with
  | Listed _ => false
  | Missing | Unreadable | Malformed _ => true
  end.

(** Events that are lines of the log. *)
Definition isLog (ev : Event) : Prop :=
  match ev with
  | EvLog _ => True
  | _ => False
  end.

(** Events that neither embed, nor save, nor write a hash record. *)
Definition quiet (ev : Event) : Prop :=
  match ev with
  | EvReadText _ | EvLog _ => True
  | _ => False
  end.

(** *** Step relations

    A step relation [T w ok w'] relates the world before a computation, whether
    it returned normally, and the world after.  [sat I T m] says that [m]
    keeps [T] from every world where [I] holds. *)

Definition isOk {A} (r : Res A) : bool :=
  match r with
  | Ok _ => true
  | Err _ => false
  end.

Definition sat (I : World -> Prop) (T : World -> bool -> World -> Prop)
    {A} (m : M A) : Prop :=
  forall w r w', I w -> m w = (r, w') -> T w (isOk r) w'.

Definition always (w : World) : Prop := True.

(** A calm step only adds quiet events and index-metadata directories. *)
Definition calm (w : World) (ok : bool) (w' : World) : Prop :=
  set_indexDirs (indexDirs w) (set_trace (trace w) w') = w
  /\ indexDirs w ⊆ indexDirs w'
  /\ exists evs, trace w' = trace w ++ evs /\ Forall quiet evs.

(** *** Paths below a knowledge base *)

Definition notHidden (rel : list string) : Prop :=
  Forall (fun segment => Str.startsWithDot segment = false) rel.

(** [f] lies under [dir] along segments none of which is hidden. *)
Definition below (dir f : Path) : Prop :=
  exists rel, rel <> [] /\ notHidden rel /\ f = dir ++ rel.

(** A source the scan can reach: under some knowledge base of the root,
    along segments none of which is hidden. *)
Definition visible (env : Env) (p : Path) : Prop :=
  exists name, below (FaissIndexManager.knowledgeBasePathOf env name) p.

Definition sourcedIn (S : Path -> Prop) (docs : list Document) : Prop :=
  Forall (fun d => S (source (metadata d))) docs.

(** *** Reading the trace *)

(** The hash records after the writes of [evs]. *)
Fixpoint replayHashWrites (evs : list Event) (h : gmap Path string) : gmap Path string :=
  match evs with
  | [] => h
  | EvWriteHash p v :: rest => replayHashWrites rest (<[p := v]> h)
  | _ :: rest => replayHashWrites rest h
  end.

(** Every hash write comes right after a successful save; [prev] is the
    event before [evs]. *)
Fixpoint hashWritesFollowSaves (prev : option Event) (evs : list Event) : Prop :=
  match evs with
  | [] => True
  | ev :: rest =>
      match ev with
      | EvWriteHash _ _ => prev = Some (EvSave true)
      | _ => True
      end
      /\ hashWritesFollowSaves (Some ev) rest
  end.

Definition noFailedSave (evs : list Event) : Prop :=
  Forall (fun ev => ev <> EvSave false) evs.

(** After a failed save there are only log lines. *)
Fixpoint haltsAtFailedSave (evs : list Event) : Prop :=
  match evs with
  | [] => True
  | EvSave false :: rest => Forall isLog rest
  | _ :: rest => haltsAtFailedSave rest
  end.

Definition ordered (w : World) (ok : bool) (w' : World) : Prop :=
  exists evs,
    trace w' = trace w ++ evs
    /\ hashRecords w' = replayHashWrites evs (hashRecords w)
    /\ hashWritesFollowSaves None evs
    /\ haltsAtFailedSave evs
    /\ (ok = true -> noFailedSave evs).

(** Every embedding call of [evs] is for documents with a source in [S]. *)
Definition embedsOnly (S : Path -> Prop) (evs : list Event) : Prop :=
  Forall (fun ev =>
            match ev with
            | EvEmbed docs => sourcedIn S docs
            | _ => True
            end) evs.

(** The step embeds, and adds to the store, only documents with a source in
    [S]. *)
Definition indexesOnly (S : Path -> Prop) (w : World) (ok : bool) (w' : World) : Prop :=
  exists evs,
    trace w' = trace w ++ evs
    /\ embedsOnly S evs
    /\ forall d, d ∈ default [] (faissIndex w') ->
                 d ∈ default [] (faissIndex w) \/ S (source (metadata d)).

(** The step leaves the knowledge-base tree alone. *)
Definition keepsTree (w : World) (ok : bool) (w' : World) : Prop :=
  rootDir w' = rootDir w /\ kbDirs w' = kbDirs w /\ files w' = files w.

(** The file [filePath] written for knowledge base [kb] is the hidden [.md]
    of that knowledge base: it is there in [w'], no scan of [w'] returns
    it, and between [w] and [w'] nothing was embedded or added to the store
    under its name. *)
Definition writtenButNotIndexed (env : Env) (kb : string) (filePath : Path)
    (w w' : World) : Prop :=
  let hidden := FaissIndexManager.knowledgeBasePathOf env kb ++ [".md"] in
  filePath = hidden
  /\ is_Some (files w' !! hidden)
  /\ (forall kb', hidden ∉ Utils.traverse (FaissIndexManager.knowledgeBasePathOf env kb')
                            (kbDirs w' !! kb'))
  /\ exists evs,
       trace w' = trace w ++ evs
       /\ embedsOnly (fun p => p <> hidden) evs
       /\ forall d, d ∈ default [] (faissIndex w') ->
                    d ∈ default [] (faissIndex w) \/ source (metadata d) <> hidden.

(** *** Files that need no further work

    A file is settled when its bytes can be hashed, its index-metadata
    directory exists, and either its hash record holds the digest of its
    bytes, or its content cannot be read, or it is markdown that splits into
    no chunk. *)
Definition settled (env : Env) (kbPath f : Path) (w : World) : Prop :=
  exists bytes,
    files w !! f = Some bytes
    /\ fault env (HashFile f) = false
    /\ FaissIndexManager.indexDirPathOf kbPath f ∈ indexDirs w
    /\ (hashRecords w !! FaissIndexManager.indexFilePathOf kbPath f
        = Some (sha256hex env bytes)
        \/ fault env (ReadText f) = true
        \/ (FaissIndexManager.isMarkdown f = true
            /\ fault env (SplitText f) = false
            /\ splitMarkdown env bytes = [])).

(** The step keeps the tree, may create index-metadata directories, and
    changes a hash record only to the digest of the file it mirrors. *)
Definition grows (env : Env) (w : World) (ok : bool) (w' : World) : Prop :=
  keepsTree w ok w'
  /\ indexDirs w ⊆ indexDirs w'
  /\ forall rp,
       hashRecords w' !! rp = hashRecords w !! rp
       \/ exists name rel bytes,
            rel <> []
            /\ rp = FaissIndexManager.knowledgeBasePathOf env name ++ ".index" :: rel
            /\ files w !! (FaissIndexManager.knowledgeBasePathOf env name ++ rel) = Some bytes
            /\ hashRecords w' !! rp = Some (sha256hex env bytes).

(** The value of [anyFileProcessed] after the scan of [kbs], the listings
    being [K]. *)
Definition flagAfter (env : Env) (K : gmap string (list Utils.Dirent))
    (any : bool) (kbs : list string) : bool :=
  fold_left
    (fun flag name =>
       if Str.startsWithDot name then flag
       else
         match Utils.traverse (FaissIndexManager.knowledgeBasePathOf env name) (K !! name) with
         | [] => flag
         | _ :: _ => true
         end)
    kbs any.

(** A computation whose result and events do not depend on the trace, and
    which changes nothing else. *)
Definition uniform {A} (m : M A) : Prop :=
  forall w, exists r evs,
    Forall quiet evs
    /\ forall t, m (set_trace t w) = (r, set_trace (t ++ evs) w).

(** What the index manager relies on from the vector store: a query for [k]
    neighbours under a score filter answers with at most [k] hits, none
    beyond the filter, nearest first. *)
Definition StoreHonoursQuery
    (search : Store -> string -> nat -> FaissIndexManager.ScoreFilter -> Res (list (Document * Q)))
  : Prop :=
  forall store query k filter hits,
    search store query k filter = Ok hits ->
    length hits <= k
    /\ Forall (fun h => (h.2 <= FaissIndexManager.score_lte filter)%Q) hits
    /\ StronglySorted nearerFirst hits.

(** The step leaves the in-memory store alone or appends to it documents
    with a source in [S]; it never drops a document or the handle. *)
Definition appendsOnly (S : Path -> Prop) (w : World) (ok : bool) (w' : World) : Prop :=
  faissIndex w' = faissIndex w
  \/ exists added,
       sourcedIn S added
       /\ faissIndex w' = Some (default [] (faissIndex w) ++ added).

(** After a step that returned normally, the store on disk and the handle are
    as they were, or the store on disk is the one the handle holds. *)
Definition savedOrUntouched (w : World) (ok : bool) (w' : World) : Prop :=
  ok = true ->
  (storeFile w' = storeFile w /\ faissIndex w' = faissIndex w)
  \/ (is_Some (faissIndex w') /\ storeFile w' = faissIndex w').

(** The knowledge bases a call [updateIndex(kb)] goes through. *)
Definition knowledgeBasesOf (kb : option string) (w : World) : list string :=
  match Config.truthy kb with
  | Some name => [name]
  | None => default [] (rootDir w)
  end.

(** The documents the fallback of [updateIndex] makes of the file [f]: none
    when its text cannot be read, its chunks when it is markdown, one
    document otherwise. *)
Definition documentsOf (env : Env) (w : World) (f : Path) : list Document :=
  if fault env (ReadText f) then []
  else
    match files w !! f with
    | Some content =>
        if FaissIndexManager.isMarkdown f
        then map (FaissIndexManager.mkDocument f) (splitMarkdown env content)
        else [FaissIndexManager.mkDocument f content]
    | None => []
    end.

(** The documents of every file the scan returns for [kbs], in scan order. *)
Definition allDocumentsOf (env : Env) (w : World) (kbs : list string) : list Document :=
  flat_map
    (fun name =>
       if Str.startsWithDot name then []
       else flat_map (documentsOf env w)
              (Utils.traverse (FaissIndexManager.knowledgeBasePathOf env name)
                 (kbDirs w !! name)))
    kbs.

(** Log lines that report the failure of a run: the line
    [handleFsOperationError] writes before it throws, and the line of the
    outer [catch]. *)
Definition isReport (ev : Event) : bool :=
  match ev with
  | EvLog (LogFsFailed _) | EvLog (LogUncaught _) => true
  | _ => false
  end.

(** The line that reports [e]. *)
Definition reportOf (e : Error) : LogLine :=
  match e with
  | Thrown op => if alreadyLogged e then LogFsFailed op else LogUncaught e
  | _ => LogUncaught e
  end.

Definition noReport (evs : list Event) : Prop :=
  Forall (fun ev => isReport ev = false) evs.

(** Inside the outer [try]: nothing is reported unless the error thrown went
    through [handleFsOperationError], and then its line comes last. *)
Definition reportsInside {A} (r : Res A) (evs : list Event) : Prop :=
  match r with
  | Err e =>
      if alreadyLogged e
      then exists evs0, evs = evs0 ++ [EvLog (reportOf e)] /\ noReport evs0
      else noReport evs
  | Ok _ => noReport evs
  end.

Definition reporting {A} (m : M A) : Prop :=
  forall w r w',
    m w = (r, w') -> exists evs, trace w' = trace w ++ evs /\ reportsInside r evs.

(** A run that returns normally reports nothing; a run that throws [e]
    reports [e] once, on its last line. *)
Definition reportedOnce {A} (r : Res A) (evs : list Event) : Prop :=
  match r with
  | Err e => exists evs0, evs = evs0 ++ [EvLog (reportOf e)] /\ noReport evs0
  | Ok _ => noReport evs
  end.

(** The step leaves the pending list alone. *)
Definition keepsPending (w : World) (ok : bool) (w' : World) : Prop :=
  pendingDir w' = pendingDir w /\ pendingFile w' = pendingFile w.

(** [rel] leads from a listing to a regular file, through directories that
    can be read, along names none of which starts with a dot. *)
Inductive leadsToFile : list Utils.Dirent -> list string -> Prop :=
| leads_here (entries : list Utils.Dirent) (name : string) :
    Utils.DFile name ∈ entries ->
    Str.startsWithDot name = false ->
    leadsToFile entries [name]
| leads_down (entries : list Utils.Dirent) (name : string)
    (sub : list Utils.Dirent) (rel : list string) :
    Utils.DDir name (Some sub) ∈ entries ->
    Str.startsWithDot name = false ->
    leadsToFile sub rel ->
    leadsToFile entries (name :: rel).

(** No two entries of a directory share a name, at any depth. *)
Inductive distinctNames : list Utils.Dirent -> Prop :=
| distinct_names (entries : list Utils.Dirent) :
    NoDup (map Utils.direntName entries) ->
    (forall name sub, Utils.DDir name (Some sub) ∈ entries -> distinctNames sub) ->
    distinctNames entries.

(** Every character of [s] passes [p]. *)
Fixpoint everyChar (p : ascii -> bool) (s : string) : bool :=
  match s with
  | EmptyString => true
  | String c s' => p c && everyChar p s'
  end.

(** A character that [sanitizeUrlForFilename] does not replace. *)
Definition notReserved (c : ascii) : bool := negb (Sanitize.isReserved c).

(** The arguments carry every required property of the tool's schema, as a
    string (the type the schemas give to each required property). *)
Definition carriesRequired (t : KnowledgeBaseServer.Tool) (args : KnowledgeBaseServer.Args) : Prop :=
  forall field,
    field ∈ KnowledgeBaseServer.required t ->
    exists fields s,
      args = Some fields /\ fields !! field = Some (KnowledgeBaseServer.JString s).

(** A reply, flagged as an error exactly when something was logged. *)
Definition repliesCleanly (out : KnowledgeBaseServer.Served) : Prop :=
  exists r,
    KnowledgeBaseServer.outcome out = KnowledgeBaseServer.Reply r
    /\ ((KnowledgeBaseServer.isError r = false /\ KnowledgeBaseServer.logged out = [])
        \/ (KnowledgeBaseServer.isError r = true
            /\ KnowledgeBaseServer.logged out <> [])).

(** A protocol error thrown back, with nothing logged and nothing changed. *)
Definition raisesUntouched (code : KnowledgeBaseServer.ErrorCode) (w : World)
    (out : KnowledgeBaseServer.Served) : Prop :=
  (exists message,
     KnowledgeBaseServer.outcome out
     = KnowledgeBaseServer.Raise (KnowledgeBaseServer.McpErr code message))
  /\ KnowledgeBaseServer.logged out = [] /\ KnowledgeBaseServer.after out = w.

(** A step of the scan: it keeps the tree, drops nothing from the store,
    leaves the store on disk in step with the handle when it returns
    normally, and changes the hash record of a file only once the documents
    of that file are in the store. *)
Definition advances (env : Env) (w : World) (ok : bool) (w' : World) : Prop :=
  keepsTree w ok w'
  /\ (forall d, d ∈ default [] (faissIndex w) -> d ∈ default [] (faissIndex w'))
  /\ savedOrUntouched w ok w'
  /\ forall name rel,
       rel <> [] ->
       hashRecords w' !! (FaissIndexManager.knowledgeBasePathOf env name ++ ".index" :: rel)
       = hashRecords w !! (FaissIndexManager.knowledgeBasePathOf env name ++ ".index" :: rel)
       \/ ((forall d,
              d ∈ documentsOf env w (FaissIndexManager.knowledgeBasePathOf env name ++ rel) ->
              d ∈ default [] (faissIndex w'))
           /\ (ok = true -> storeFile w' = faissIndex w')).

(** Nothing but the pending list, and the directory that holds it, differs
    between [w] and [w']. *)
Definition onlyPendingListChanged (w w' : World) : Prop :=
  set_pendingFile (pendingFile w) (set_pendingDir (pendingDir w) w') = w.

(** The step changes no hash record outside the knowledge bases [kbs], and
    embeds and stores only documents of files under them. *)
Definition under (env : Env) (kbs : list string) (p : Path) : Prop :=
  exists name, name ∈ kbs /\ below (FaissIndexManager.knowledgeBasePathOf env name) p.

Definition scopedTo (env : Env) (kbs : list string) (w : World) (ok : bool) (w' : World) : Prop :=
  (forall name rel,
     name ∉ kbs ->
     hashRecords w' !! (FaissIndexManager.knowledgeBasePathOf env name ++ ".index" :: rel)
     = hashRecords w !! (FaissIndexManager.knowledgeBasePathOf env name ++ ".index" :: rel))
  /\ indexesOnly (under env kbs) w ok w'.

Definition noDot (c : ascii) : bool := negb (Ascii.eqb c "."%char).

(** The environment [env] with the fault table [faults]. *)
Definition withFaults (env : Env) (faults : IoOp -> bool) : Env :=
  {| rootPath := rootPath env; sha256hex := sha256hex env;
     splitMarkdown := splitMarkdown env; fault := faults;
     httpGet := httpGet env; matchTitle := matchTitle env;
     turndown := turndown env; jsonStringify := jsonStringify env |}.

(** * Properties *)

(** ** Running the monad *)

#[global] Arguments Config.truthy : simpl never.
#[global] Arguments Str.startsWithDot : simpl never.

Ltac run :=
  repeat progress
    (unfold bind, ret, throw, gets, modify, emit, logLine, when, rethrowing;
     cbn).

(** Run, and replace what the hypotheses already determine. *)
Ltac go :=
  repeat (run;
          match goal with
          | H : ?x = _ |- context [?x] =>
              match x with
              | _ _ => rewrite H
              end
          end);
  run.

(** ** Threshold filtering ([similaritySearch]) *)

Section ThresholdFiltering.

Import FaissIndexManager.

Variable search : Store -> string -> nat -> ScoreFilter -> Res (list (Document * Q)).
Hypothesis search_honours : StoreHonoursQuery search.

Lemma withScore_length hits : length (map withScore hits) = length hits.
Proof. apply length_map. Qed.

Lemma withScore_bounded T hits :
  Forall (fun h => (h.2 <= T)%Q) hits ->
  Forall (fun r => (score r <= T)%Q) (map withScore hits).
Proof.
  induction 1 as [| h hits Hh _ IH]; cbn; constructor; auto.
Qed.

Lemma withScore_sorted hits :
  StronglySorted nearerFirst hits ->
  StronglySorted ascendingScore (map withScore hits).
Proof.
  intros Hs. apply (StronglySorted_fmap withScore nearerFirst ascendingScore); auto.
Qed.

Lemma withScore_carries hits :
  Forall2 (fun r h => resultPageContent r = pageContent h.1
                      /\ resultMetadata r = metadata h.1
                      /\ score r = h.2)
          (map withScore hits) hits.
Proof. induction hits; cbn; constructor; auto. Qed.


End ThresholdFiltering.

(** The reference store of the fixtures honours the query contract. *)

#[local] Instance nearerFirst_transitive : Transitive nearerFirst.
Proof. intros x y z. unfold nearerFirst. apply Qle_trans. Qed.

#[local] Instance nearerFirst_total : Total nearerFirst.
Proof.
  intros x y. unfold nearerFirst.
  destruct (Qlt_le_dec y.2 x.2) as [Hlt | Hle]; [right | left]; auto.
  apply Qlt_le_weak, Hlt.
Qed.

Lemma StronglySorted_sublist {A} (R : relation A) (l1 l2 : list A) :
  l1 `sublist_of` l2 -> StronglySorted R l2 -> StronglySorted R l1.
Proof.
  induction 1 as [| x l1 l2 Hsub IH | x l1 l2 Hsub IH]; intros Hs.
  - constructor.
  - apply StronglySorted_inv in Hs as [Hs Hall]. constructor; [auto |].
    apply Forall_forall. intros y Hy. rewrite Forall_forall in Hall.
    apply Hall. eapply elem_of_sublist; eauto.
  - apply StronglySorted_inv in Hs as [Hs _]. auto.
Qed.

Lemma referenceSearch_honours : StoreHonoursQuery Fixtures.referenceSearch.
Proof.
  intros store query k f hits [= <-]. split; [apply firstn_le_length |]. split.
  - apply Forall_take, Forall_forall. intros h Hh.
    apply list_elem_of_filter in Hh. tauto.
  - eapply StronglySorted_sublist; [apply sublist_take |].
    eapply StronglySorted_sublist; [apply sublist_filter |].
    apply StronglySorted_merge_sort; apply _.
Qed.



(** ** Model drift ([initialize]) *)

Section ModelDrift.

Import FaissIndexManager.

Lemma truthy_nonempty (s : string) : s <> "" -> Config.truthy (Some s) = Some s.
Proof. destruct s; [congruence | reflexivity]. Qed.


End ModelDrift.

Section ModelDriftExamples.

Import FaissIndexManager Fixtures.



End ModelDriftExamples.

(** ** The pending list ([UrlManager]) *)

Section PendingList.

Import UrlManager.

Variable env : Env.
Variable reindex : string -> M unit.

Lemma loadPendingUrls_run w : loadPendingUrls w = (Ok (pendingUrlsOf w), w).
Proof. unfold loadPendingUrls, pendingUrlsOf. run. destruct (pendingFile w); reflexivity. Qed.

Lemma savePendingUrls_ok urls w :
  pendingDir w = true \/ fault env MkdirPendingDir = false ->
  fault env WritePending = false ->
  savePendingUrls env urls w
  = (Ok tt, set_pendingFile (Listed urls) (set_pendingDir true w)).
Proof.
  intros Hdir Hwrite. unfold savePendingUrls.
  destruct (pendingDir w) eqn:Hpd; [| destruct Hdir as [? | Hmk]; [discriminate |]]; go.
  - destruct w; cbn in *; subst; reflexivity.
  - reflexivity.
Qed.

Lemma savePendingUrls_err urls w e w' :
  savePendingUrls env urls w = (Err e, w') -> pendingFile w' = pendingFile w.
Proof.
  unfold savePendingUrls. run.
  destruct (pendingDir w); run;
    repeat (destruct (fault env _); run); intros [= <- <-]; reflexivity.
Qed.

Lemma fetchAndConvert_pure url r w w' :
  fetchAndConvert env url w = (r, w') -> w' = w.
Proof.
  unfold fetchAndConvert.
  destruct (httpGet env url) as [html |]; run; [| congruence].
  destruct (turndown env html); run; congruence.
Qed.

Lemma saveMarkdown_pendingFile kb url title md now r w w' :
  saveMarkdown env kb url title md now w = (r, w') -> pendingFile w' = pendingFile w.
Proof.
  unfold saveMarkdown, mkdirKb, writeKbFile. run.
  destruct (bool_decide _); run.
  - destruct (kbDirs w !! kb) as [entries |]; run; [| intros [= <- <-]; reflexivity].
    destruct (_ || _); run; intros [= <- <-]; reflexivity.
  - destruct (fault env (MkdirKb kb)); run; [intros [= <- <-]; reflexivity |].
    destruct (_ !! kb) as [entries |]; run; [| intros [= <- <-]; reflexivity].
    destruct (_ || _); run; intros [= <- <-]; reflexivity.
Qed.

Lemma bind_eq {A B} (m : M A) (f : A -> M B) (w : World) :
  bind m f w
  = match m w with
    | (Ok a, w') => f a w'
    | (Err e, w') => (Err e, w')
    end.
Proof. reflexivity. Qed.

Lemma isPending_true u : isPending u = true <-> status u = pending.
Proof. unfold isPending. destruct (status u); split; congruence. Qed.

(** C4. [approveUrl] fails without touching anything when no record has the
    id or when the record found is not pending; a failing fetch or
    conversion changes nothing either, and a failing write of the markdown
    file leaves the pending-list file as it was.  The pending-list file can
    only differ afterwards if the markdown file was written. *)
Theorem approveUrl_all_or_nothing (i now : string) (w : World) :
  let urls := pendingUrlsOf w in
  let out := approveUrl env reindex i now w in
  (List.find (hasId i) urls = None -> out = (Err (NoPendingUrl i), w))
  /\ (forall entry,
        List.find (hasId i) urls = Some entry ->
        status entry <> pending ->
        out = (Err (NotPending i (status entry)), w))
  /\ (forall entry,
        List.find (hasId i) urls = Some entry ->
        status entry = pending ->
        (httpGet env (url entry) = None ->
         out = (Err (Thrown (Fetch (url entry))), w))
        /\ (forall html,
              httpGet env (url entry) = Some html ->
              turndown env html = None ->
              out = (Err (Thrown (Convert (url entry))), w))
        /\ (forall html markdown e w1,
              httpGet env (url entry) = Some html ->
              turndown env html = Some markdown ->
              saveMarkdown env (knowledge_base entry) (url entry)
                (default (url entry) (matchTitle env html)) markdown now w
              = (Err e, w1) ->
              out = (Err e, w1) /\ pendingFile w1 = pendingFile w))
  /\ (pendingFile out.2 <> pendingFile w ->
      exists entry html markdown filePath w1,
        List.find (hasId i) urls = Some entry
        /\ status entry = pending
        /\ httpGet env (url entry) = Some html
        /\ turndown env html = Some markdown
        /\ saveMarkdown env (knowledge_base entry) (url entry)
             (default (url entry) (matchTitle env html)) markdown now w
           = (Ok filePath, w1)).
Proof.
  intros urls out. subst out. unfold approveUrl.
  rewrite bind_eq, loadPendingUrls_run. fold urls.
  destruct (List.find (hasId i) urls) as [entry |] eqn:Hfind.
  2:{ repeat split; intros; simplify_eq/=; try reflexivity; congruence. }
  destruct (isPending entry) eqn:Hp; cbn [negb].
  2:{ assert (status entry <> pending) by (rewrite <- isPending_true; congruence).
      repeat split; intros; simplify_eq/=; try reflexivity; congruence. }
  apply isPending_true in Hp.
  rewrite bind_eq. unfold fetchAndConvert.
  destruct (httpGet env (url entry)) as [html |] eqn:Hget.
  2:{ repeat split; intros; simplify_eq/=; try reflexivity; congruence. }
  destruct (turndown env html) as [markdown |] eqn:Hturn.
  2:{ repeat split; intros; simplify_eq/=; try reflexivity; congruence. }
  cbn [ret fst snd]. rewrite bind_eq.
  destruct (saveMarkdown env (knowledge_base entry) (url entry)
              (default (url entry) (matchTitle env html)) markdown now w)
    as [[filePath | e] w1] eqn:Hsave.
  - repeat split; intros; simplify_eq/=; try reflexivity; try congruence.
    exists entry, html, markdown, filePath, w1. auto.
  - pose proof (saveMarkdown_pendingFile _ _ _ _ _ _ _ _ Hsave) as Hpf.
    repeat split; intros; simplify_eq/=; try reflexivity; congruence.
Qed.

Lemma findIndex_none (i : string) (urls : list PendingUrl) :
  List.find (hasId i) urls = None -> findIndex (hasId i) urls = None.
Proof.
  induction urls as [| u urls IH]; cbn [List.find findIndex]; [reflexivity |].
  destruct (hasId i u); [discriminate |]. intros H. rewrite (IH H). reflexivity.
Qed.

Lemma findIndex_some (i : string) (urls : list PendingUrl) (entry : PendingUrl) :
  List.find (hasId i) urls = Some entry -> exists idx, findIndex (hasId i) urls = Some idx.
Proof.
  induction urls as [| u urls IH]; cbn [List.find findIndex]; [discriminate |].
  destruct (hasId i u); [eauto |]. intros H. destruct (IH H) as [idx ->]. cbn. eauto.
Qed.

Lemma delete_found_without (i : string) (urls : list PendingUrl) (idx : nat) :
  NoDup (map id urls) ->
  findIndex (hasId i) urls = Some idx ->
  Forall (fun u => id u <> i) (delete idx urls).
Proof.
  revert idx. induction urls as [| u urls IH]; cbn [findIndex map]; intros idx Hnd;
    [discriminate |].
  apply NoDup_cons in Hnd as [Hnotin Hnd].
  unfold hasId at 1. destruct (String.eqb_spec (id u) i) as [Hu | Hne].
  - intros [= <-]. cbn. apply Forall_forall. intros v Hv Heq. apply Hnotin.
    rewrite Hu, <- Heq. apply list_elem_of_fmap. eauto.
  - destruct (findIndex (hasId i) urls) as [idx' |]; [| discriminate].
    intros [= <-]. cbn. constructor; auto.
Qed.

Lemma delete_found_keeps (i : string) (urls : list PendingUrl) (idx : nat) (u : PendingUrl) :
  findIndex (hasId i) urls = Some idx ->
  u ∈ urls -> id u <> i -> u ∈ delete idx urls.
Proof.
  revert idx. induction urls as [| v urls IH]; cbn [findIndex]; intros idx;
    [discriminate |].
  unfold hasId at 1. destruct (String.eqb_spec (id v) i) as [Hv | Hne].
  - intros [= <-] Hin Hu. cbn. apply elem_of_cons in Hin as [-> | Hin]; [congruence | exact Hin].
  - destruct (findIndex (hasId i) urls) as [idx' |]; [| discriminate].
    intros [= <-] Hin Hu. cbn. apply elem_of_cons in Hin as [-> | Hin]; [left | right; auto].
Qed.

Lemma find_hasId_none (i : string) (urls : list PendingUrl) :
  Forall (fun u => id u <> i) urls -> List.find (hasId i) urls = None.
Proof.
  induction 1 as [| u urls Hu _ IH]; cbn [List.find]; [reflexivity |].
  unfold hasId at 1. destruct (String.eqb_spec (id u) i); [congruence | exact IH].
Qed.

Lemma filter_isPending_without (i : string) (urls : list PendingUrl) :
  Forall (fun u => id u <> i) urls ->
  Forall (fun u => id u <> i) (List.filter isPending urls).
Proof.
  induction 1 as [| u urls Hu _ IH]; cbn [List.filter]; [constructor |].
  destruct (isPending u); [constructor |]; auto.
Qed.

(** C7. [rejectUrl] fails, changing nothing, when no record has the id.
    Otherwise, ids being unique and the write going through, it succeeds and
    the persisted list is the old one without the record found: a lookup by
    the id finds nothing, no listed pending record has the id, and every
    other record is still there. *)
Theorem rejectUrl_removes (i : string) (w : World) :
  let urls := pendingUrlsOf w in
  (List.find (hasId i) urls = None ->
   rejectUrl env i w = (Err (NoPendingUrl i), w))
  /\ (forall entry,
        List.find (hasId i) urls = Some entry ->
        NoDup (map id urls) ->
        pendingDir w = true \/ fault env MkdirPendingDir = false ->
        fault env WritePending = false ->
        exists idx w',
          findIndex (hasId i) urls = Some idx
          /\ rejectUrl env i w = (Ok tt, w')
          /\ pendingFile w' = Listed (delete idx urls)
          /\ List.find (hasId i) (pendingUrlsOf w') = None
          /\ (exists listed,
                listPendingUrls w' = (Ok listed, w')
                /\ Forall (fun u => id u <> i) listed)
          /\ (forall u, u ∈ urls -> id u <> i -> u ∈ pendingUrlsOf w')).
Proof.
  intros urls. unfold rejectUrl. rewrite bind_eq, loadPendingUrls_run. fold urls.
  split.
  - intros Hnone. rewrite (findIndex_none _ _ Hnone). reflexivity.
  - intros entry Hfind Hnd Hdir Hwrite.
    destruct (findIndex_some _ _ _ Hfind) as [idx Hidx]. rewrite Hidx.
    rewrite (savePendingUrls_ok _ _ Hdir Hwrite).
    exists idx. eexists. split; [reflexivity |]. split; [reflexivity |].
    pose proof (delete_found_without i urls idx Hnd Hidx) as Hwithout.
    unfold listPendingUrls. rewrite bind_eq, loadPendingUrls_run.
    unfold pendingUrlsOf at 1 2 3. cbn [pendingFile set_pendingFile set_pendingDir].
    split; [reflexivity |]. split; [apply find_hasId_none, Hwithout |]. split.
    + eexists. split; [reflexivity |]. apply filter_isPending_without, Hwithout.
    + intros u Hin Hne. eapply delete_found_keeps; eauto.
Qed.

(** C8. With a pending-list file that is missing, unreadable or not valid
    JSON, every operation sees the empty list: loading and listing give
    nothing, approving and rejecting find no record, and suggesting, when
    the write goes through, leaves a file that holds the new record only. *)
Theorem unusable_pending_file_is_empty (w : World) :
  unusable (pendingFile w) = true ->
  loadPendingUrls w = (Ok [], w)
  /\ listPendingUrls w = (Ok [], w)
  /\ (forall i now, approveUrl env reindex i now w = (Err (NoPendingUrl i), w))
  /\ (forall i, rejectUrl env i w = (Err (NoPendingUrl i), w))
  /\ (forall uuid now url knowledgeBase reason,
        pendingDir w = true \/ fault env MkdirPendingDir = false ->
        fault env WritePending = false ->
        let entry := {| id := uuid; url := url; knowledge_base := knowledgeBase;
                        reason := reason; suggested_at := now;
                        status := pending |} in
        exists w',
          suggestUrl env uuid now url knowledgeBase reason w = (Ok entry, w')
          /\ pendingFile w' = Listed [entry]).
Proof.
  intros Hbad.
  assert (Hnil : pendingUrlsOf w = []).
  { unfold pendingUrlsOf. destruct (pendingFile w); [reflexivity .. | discriminate]. }
  repeat split.
  - rewrite loadPendingUrls_run, Hnil. reflexivity.
  - unfold listPendingUrls. rewrite bind_eq, loadPendingUrls_run, Hnil. reflexivity.
  - intros i now. unfold approveUrl. rewrite bind_eq, loadPendingUrls_run, Hnil.
    reflexivity.
  - intros i. unfold rejectUrl. rewrite bind_eq, loadPendingUrls_run, Hnil.
    reflexivity.
  - intros uuid now url kb reason Hdir Hwrite entry. unfold suggestUrl.
    rewrite bind_eq, loadPendingUrls_run, Hnil, bind_eq.
    rewrite (savePendingUrls_ok _ _ Hdir Hwrite). cbn.
    eexists. split; reflexivity.
Qed.

End PendingList.

Section PendingListExamples.

Import UrlManager Fixtures.

Lemma approveUrl_all_or_nothing_witness :
  approveUrl (plainEnv noFault) (reindexWith (plainEnv noFault)) "u2" "now" pendingWorld
  = (Err (NotPending "u2" approved), pendingWorld).
Proof.
  apply (proj1 (proj2 (approveUrl_all_or_nothing (plainEnv noFault)
                         (reindexWith (plainEnv noFault)) "u2" "now" pendingWorld))
           entryApproved);
    [reflexivity | discriminate].
Defined.

Lemma rejectUrl_removes_witness :
  exists idx w',
    findIndex (hasId "u1") (pendingUrlsOf pendingWorld) = Some idx
    /\ rejectUrl (plainEnv noFault) "u1" pendingWorld = (Ok tt, w')
    /\ pendingFile w' = Listed (delete idx (pendingUrlsOf pendingWorld))
    /\ List.find (hasId "u1") (pendingUrlsOf w') = None
    /\ (exists listed,
          listPendingUrls w' = (Ok listed, w')
          /\ Forall (fun u => id u <> "u1") listed)
    /\ (forall u, u ∈ pendingUrlsOf pendingWorld -> id u <> "u1" -> u ∈ pendingUrlsOf w').
Proof.
  apply (proj2 (rejectUrl_removes (plainEnv noFault) "u1" pendingWorld) entryPending);
    [reflexivity
    | apply (bool_decide_unpack _); vm_compute; reflexivity
    | left; reflexivity
    | reflexivity].
Defined.

Lemma unusable_pending_file_is_empty_witness :
  loadPendingUrls corruptWorld = (Ok [], corruptWorld)
  /\ listPendingUrls corruptWorld = (Ok [], corruptWorld)
  /\ (forall i now,
        approveUrl (plainEnv noFault) (reindexWith (plainEnv noFault)) i now corruptWorld
        = (Err (NoPendingUrl i), corruptWorld))
  /\ (forall i, rejectUrl (plainEnv noFault) i corruptWorld
                = (Err (NoPendingUrl i), corruptWorld))
  /\ (forall uuid now url knowledgeBase reason,
        pendingDir corruptWorld = true \/ fault (plainEnv noFault) MkdirPendingDir = false ->
        fault (plainEnv noFault) WritePending = false ->
        let entry := {| id := uuid; url := url; knowledge_base := knowledgeBase;
                        reason := reason; suggested_at := now;
                        status := pending |} in
        exists w',
          suggestUrl (plainEnv noFault) uuid now url knowledgeBase reason corruptWorld
          = (Ok entry, w')
          /\ pendingFile w' = Listed [entry]).
Proof.
  apply (unusable_pending_file_is_empty (plainEnv noFault)
           (reindexWith (plainEnv noFault)) corruptWorld).
  reflexivity.
Defined.

End PendingListExamples.

(** ** [updateIndex] on a name that is hidden or is no directory *)

Section NothingToScan.

Import FaissIndexManager.

Variable env : Env.

Lemma startsWithDot_nonempty name : Str.startsWithDot name = true -> name <> "".
Proof. intros H ->. discriminate. Qed.

Lemma set_trace_same (w : World) : set_trace (trace w ++ []) w = w.
Proof. destruct w. unfold set_trace. cbn. rewrite app_nil_r. reflexivity. Qed.

(** C9. For a name that starts with a dot, or a non-empty name under which
    the root has no readable directory, [updateIndex] returns normally and
    changes nothing but the log: the handle, the store file, the hash
    records and every file are as before. *)
Theorem updateIndex_nothing_to_scan (name : string) (w : World) :
  Str.startsWithDot name = true \/ (name <> "" /\ kbDirs w !! name = None) ->
  exists evs,
    updateIndex env (Some name) w = (Ok tt, set_trace (trace w ++ evs) w)
    /\ Forall isLog evs
    /\ faissIndex (set_trace (trace w ++ evs) w) = faissIndex w
    /\ storeFile (set_trace (trace w ++ evs) w) = storeFile w
    /\ hashRecords (set_trace (trace w ++ evs) w) = hashRecords w.
Proof.
  intros Hname.
  assert (Hne : name <> "") by (destruct Hname as [H | [H _]]; auto using startsWithDot_nonempty).
  pose proof (truthy_nonempty _ Hne) as Ht.
  unfold updateIndex. go. unfold scanKnowledgeBase.
  destruct (Str.startsWithDot name) eqn:Hdot.
  - go. exists []. rewrite set_trace_same.
    destruct (bool_decide _); cbn; auto.
  - destruct Hname as [? | [_ Hnone]]; [discriminate |].
    unfold getFilesRecursively. go.
    exists [EvLog (LogTraverseFailed (knowledgeBasePathOf env name))].
    destruct (bool_decide _); cbn; repeat split; auto; repeat constructor.
Qed.

End NothingToScan.

Lemma updateIndex_nothing_to_scan_witness :
  exists evs,
    FaissIndexManager.updateIndex (Fixtures.plainEnv Fixtures.noFault) (Some "missing")
      Fixtures.twoFileWorld
    = (Ok tt, set_trace (trace Fixtures.twoFileWorld ++ evs) Fixtures.twoFileWorld)
    /\ Forall isLog evs
    /\ faissIndex (set_trace (trace Fixtures.twoFileWorld ++ evs) Fixtures.twoFileWorld)
       = faissIndex Fixtures.twoFileWorld
    /\ storeFile (set_trace (trace Fixtures.twoFileWorld ++ evs) Fixtures.twoFileWorld)
       = storeFile Fixtures.twoFileWorld
    /\ hashRecords (set_trace (trace Fixtures.twoFileWorld ++ evs) Fixtures.twoFileWorld)
       = hashRecords Fixtures.twoFileWorld.
Proof.
  apply (updateIndex_nothing_to_scan (Fixtures.plainEnv Fixtures.noFault) "missing"
           Fixtures.twoFileWorld).
  right. split; [discriminate | reflexivity].
Defined.

(** ** One file that cannot be processed *)

Section BadFile.

Import FaissIndexManager.

Variable env : Env.

(** The inner loop of [updateIndex] over the files of one knowledge base. *)
Local Abbreviation scanFiles kbPath :=
  (foldM (fun (_ : bool) filePath => processFile env kbPath filePath ;; ret true)).

Lemma union_already (d : Path) (s : gset Path) : d ∈ s -> {[d]} ∪ s = s.
Proof. intros Hin. apply subseteq_union_1_L, singleton_subseteq_l, Hin. Qed.

Lemma set_indexDirs_same (w : World) : set_indexDirs (indexDirs w) w = w.
Proof. destruct w; reflexivity. Qed.

(** C6, as the code has it.  For a changed file whose bytes were hashed:
    when the utf-8 read of its content fails, the failure is logged and the
    scan goes on with the next file; when the read succeeds and producing
    the chunks of a markdown file fails, nothing catches the failure and the
    scan ends with it. *)
Theorem content_read_failure_is_skipped
    (kbPath f : Path) (rest : list Path) (any : bool) (w : World) (bytes : string) :
  let dir := indexDirPathOf kbPath f in
  let w0 := set_indexDirs ({[dir]} ∪ indexDirs w) w in
  files w !! f = Some bytes ->
  fault env (HashFile f) = false ->
  dir ∈ indexDirs w \/ fault env (MkdirIndexDir dir) = false ->
  hashRecords w !! indexFilePathOf kbPath f <> Some (sha256hex env bytes) ->
  (fault env (ReadText f) = true ->
   let w1 := set_trace (trace w ++ [EvReadText f; EvLog (LogReadFailed f)]) w0 in
   processFile env kbPath f w = (Ok tt, w1)
   /\ scanFiles kbPath any (f :: rest) w = scanFiles kbPath true rest w1)
  /\ (fault env (ReadText f) = false ->
      isMarkdown f = true ->
      fault env (SplitText f) = true ->
      let w1 := set_trace (trace w ++ [EvReadText f]) w0 in
      processFile env kbPath f w = (Err (Thrown (SplitText f)), w1)
      /\ scanFiles kbPath any (f :: rest) w = (Err (Thrown (SplitText f)), w1)).
Proof.
  intros dir w0 Hbytes Hhash Hdir Hstale.
  assert (Hstep : forall r w', processFile env kbPath f w = (r, w') ->
            scanFiles kbPath any (f :: rest) w
            = match r with
              | Ok _ => scanFiles kbPath true rest w'
              | Err e => (Err e, w')
              end).
  { intros r w' Hrun. cbn [foldM]. rewrite !bind_eq, Hrun. destruct r; reflexivity. }
  split.
  - intros Hread w1.
    assert (Hrun : processFile env kbPath f w = (Ok tt, w1)).
    { unfold processFile, calculateSHA256, mkdirIndexDir. fold dir. go.
      destruct (bool_decide (dir ∈ indexDirs w)) eqn:Hin; go.
      - rewrite bool_decide_eq_false_2 by exact Hstale. go.
        apply bool_decide_eq_true in Hin. subst w1 w0.
        rewrite (union_already _ _ Hin), set_indexDirs_same, <- ?app_assoc. reflexivity.
      - destruct Hdir as [Hd | Hmk];
          [apply bool_decide_eq_false in Hin; contradiction |].
        go. rewrite bool_decide_eq_false_2 by exact Hstale. go.
        rewrite <- ?app_assoc. reflexivity. }
    split; [exact Hrun |]. rewrite (Hstep _ _ Hrun). reflexivity.
  - intros Hread Hmd Hsplit w1.
    assert (Hrun : processFile env kbPath f w = (Err (Thrown (SplitText f)), w1)).
    { unfold processFile, calculateSHA256, mkdirIndexDir, createDocuments. fold dir. go.
      destruct (bool_decide (dir ∈ indexDirs w)) eqn:Hin; go.
      - rewrite bool_decide_eq_false_2 by exact Hstale. go.
        apply bool_decide_eq_true in Hin. subst w1 w0.
        rewrite (union_already _ _ Hin), set_indexDirs_same, <- ?app_assoc. reflexivity.
      - destruct Hdir as [Hd | Hmk];
          [apply bool_decide_eq_false in Hin; contradiction |].
        go. rewrite bool_decide_eq_false_2 by exact Hstale. go.
        rewrite <- ?app_assoc. reflexivity. }
    split; [exact Hrun |]. rewrite (Hstep _ _ Hrun). reflexivity.
Qed.

End BadFile.

Section BadFileExamples.

Import FaissIndexManager Fixtures.

(** C6, as stated, fails: with a splitter that throws on [a.md], the scan of
    [kb1] ends there with that error; [b.txt], which comes next, is never
    read, nothing is embedded and no hash record is written. *)
Lemma chunk_failure_aborts_scan :
  let env := plainEnv splitFault in
  let out := updateIndex env (Some "kb1") twoFileWorld in
  Utils.traverse kb1Path (kbDirs twoFileWorld !! "kb1")
  = [kb1Path ++ ["a.md"]; kb1Path ++ ["b.txt"]]
  /\ out.1 = Err (Thrown (SplitText (kb1Path ++ ["a.md"])))
  /\ trace out.2
     = [EvReadText (kb1Path ++ ["a.md"]);
        EvLog (LogUncaught (Thrown (SplitText (kb1Path ++ ["a.md"]))))]
  /\ faissIndex out.2 = None
  /\ hashRecords out.2 = ∅.
Proof. vm_compute. repeat split; reflexivity. Qed.

Lemma content_read_failure_is_skipped_witness :
  let env := plainEnv readFault in
  let a := kb1Path ++ ["a.md"] in
  let w1 :=
    set_trace (trace twoFileWorld ++ [EvReadText a; EvLog (LogReadFailed a)])
      (set_indexDirs ({[indexDirPathOf kb1Path a]} ∪ indexDirs twoFileWorld) twoFileWorld) in
  processFile env kb1Path a twoFileWorld = (Ok tt, w1)
  /\ foldM (fun (_ : bool) filePath => processFile env kb1Path filePath ;; ret true)
       false [a; kb1Path ++ ["b.txt"]] twoFileWorld
     = foldM (fun (_ : bool) filePath => processFile env kb1Path filePath ;; ret true)
         true [kb1Path ++ ["b.txt"]] w1.
Proof.
  intros env a.
  apply (proj1 (content_read_failure_is_skipped env kb1Path a [kb1Path ++ ["b.txt"]]
                  false twoFileWorld "# Hello"
                  eq_refl eq_refl (or_intror eq_refl)
                  ltac:(vm_compute; discriminate))).
  reflexivity.
Defined.

End BadFileExamples.

(** ** Composing step relations *)

Section Sat.

Variable I : World -> Prop.
Variable T : World -> bool -> World -> Prop.

Hypothesis T_refl : forall w, T w true w.
Hypothesis T_trans : forall w1 w2 w3 ok, T w1 true w2 -> T w2 ok w3 -> T w1 ok w3.
Hypothesis I_stable : forall w w', I w -> T w true w' -> I w'.

Lemma sat_ret {A} (a : A) : sat I T (ret a).
Proof. intros w r w' _ [= <- <-]. apply T_refl. Qed.

Lemma sat_gets {A} (f : World -> A) : sat I T (gets f).
Proof. intros w r w' _ [= <- <-]. apply T_refl. Qed.

Lemma sat_bind_with {A B} (R : A -> Prop) (m : M A) (f : A -> M B) :
  sat I T m ->
  (forall w a w', I w -> m w = (Ok a, w') -> R a) ->
  (forall a, R a -> sat I T (f a)) ->
  sat I T (bind m f).
Proof.
  intros Hm HR Hf w r w' Hw. rewrite bind_eq.
  destruct (m w) as [[a | e] w1] eqn:Hrun.
  - intros Hrest. pose proof (Hm _ _ _ Hw Hrun) as Hstep. cbn in Hstep.
    eapply T_trans; [exact Hstep |].
    eapply Hf; eauto.
  - intros [= <- <-]. exact (Hm _ _ _ Hw Hrun).
Qed.

Lemma sat_bind {A B} (m : M A) (f : A -> M B) :
  sat I T m -> (forall a, sat I T (f a)) -> sat I T (bind m f).
Proof. intros Hm Hf. apply (sat_bind_with (fun _ => True)); auto. Qed.

Lemma sat_when (c : bool) (m : M unit) : sat I T m -> sat I T (when c m).
Proof. destruct c; cbn; auto using sat_ret. Qed.

Lemma sat_foldM {A B} (f : B -> A -> M B) (l : list A) :
  (forall b x, x ∈ l -> sat I T (f b x)) ->
  forall b, sat I T (foldM f b l).
Proof.
  induction l as [| x l IH]; intros Hf b; cbn [foldM]; [apply sat_ret |].
  apply sat_bind.
  - apply Hf. left.
  - intros b'. apply IH. intros b0 y Hy. apply Hf. right. exact Hy.
Qed.

(** After a loop that ran to its end, what each round established for its
    element still holds, provided later rounds cannot undo it. *)
Lemma foldM_establish {A B} (f : B -> A -> M B) (P : A -> World -> Prop) (l : list A) :
  (forall b x, x ∈ l -> sat I T (f b x)) ->
  (forall b x w b' w', x ∈ l -> I w -> f b x w = (Ok b', w') -> P x w') ->
  (forall x w w', P x w -> T w true w' -> P x w') ->
  forall b w b' w',
    I w -> foldM f b l w = (Ok b', w') -> forall x, x ∈ l -> P x w'.
Proof.
  intros Hsat Hest Hkeep.
  induction l as [| y l IH]; intros b w b' w' Hw Hrun x Hx.
  - inversion Hx.
  - cbn [foldM] in Hrun. rewrite bind_eq in Hrun.
    destruct (f b y w) as [[b1 | e] w1] eqn:Hstep; [| discriminate].
    assert (Hy : y ∈ y :: l) by left.
    pose proof (Hsat b y Hy _ _ _ Hw Hstep) as HT. cbn in HT.
    pose proof (I_stable _ _ Hw HT) as Hw1.
    assert (Hrest : sat I T (foldM f b1 l)).
    { apply sat_foldM. intros b0 z Hz. apply Hsat. right. exact Hz. }
    apply elem_of_cons in Hx as [-> | Hx].
    + apply (Hkeep y w1 w');
        [exact (Hest _ _ _ _ _ Hy Hw Hstep) | exact (Hrest _ _ _ Hw1 Hrun)].
    + apply (IH (fun b0 z Hz => Hsat b0 z (list_elem_of_further _ _ _ Hz))
                (fun b0 z w0 b0' w0' Hz =>
                   Hest b0 z w0 b0' w0' (list_elem_of_further _ _ _ Hz))
                b1 w1 b' w' Hw1 Hrun x Hx).
Qed.

(** The [catch] that logs and rethrows. *)
Lemma sat_rethrowing {A} (m : M A) (h : Error -> M unit) :
  sat I T m ->
  (forall e w w0 r w', T w false w0 -> h e w0 = (r, w') -> T w false w') ->
  sat I T (rethrowing m h).
Proof.
  intros Hm Hh w r w' Hw. unfold rethrowing.
  destruct (m w) as [[a | e] w1] eqn:Hrun.
  - intros [= <- <-]. exact (Hm _ _ _ Hw Hrun).
  - pose proof (Hm _ _ _ Hw Hrun) as Hstep. cbn in Hstep.
    destruct (h e w1) as [[u | e'] w2] eqn:Hhandler; intros [= <- <-]; cbn; eauto.
Qed.

End Sat.

Lemma sat_weaken (I : World -> Prop) (T1 T2 : World -> bool -> World -> Prop)
    {A} (m : M A) :
  (forall w ok w', T1 w ok w' -> T2 w ok w') -> sat I T1 m -> sat I T2 m.
Proof. intros Himp Hm w r w' Hw Hrun. apply Himp. eapply Hm; eauto. Qed.

Lemma always_stable (T : World -> bool -> World -> Prop) (w w' : World) :
  always w -> T w true w' -> always w'.
Proof. intros _ _. exact Logic.I. Qed.

(** ** Calm steps *)

Create HintDb calm.

Section Calm.

Import FaissIndexManager.

Variable env : Env.

Lemma calm_refl w ok : calm w ok w.
Proof.
  split; [destruct w; reflexivity |]. split; [reflexivity |].
  exists []. split; [symmetry; apply app_nil_r | constructor].
Qed.

Lemma calm_refl_ok w : calm w true w.
Proof. apply calm_refl. Qed.

Lemma calm_trans w1 w2 w3 ok : calm w1 true w2 -> calm w2 ok w3 -> calm w1 ok w3.
Proof.
  intros (Hsame12 & Hsub12 & evs12 & Htr12 & Hq12)
         (Hsame23 & Hsub23 & evs23 & Htr23 & Hq23).
  split; [| split].
  - destruct w1, w2, w3. unfold set_indexDirs, set_trace in *. cbn in *. congruence.
  - etransitivity; eauto.
  - exists (evs12 ++ evs23). split.
    + rewrite Htr23, Htr12, app_assoc. reflexivity.
    + apply Forall_app; auto.
Qed.

Lemma calm_emit w ok ev : quiet ev -> calm w ok (set_trace (trace w ++ [ev]) w).
Proof.
  intros Hq. split; [destruct w; reflexivity |]. split; [reflexivity |].
  exists [ev]. split; [reflexivity | repeat constructor; exact Hq].
Qed.

Lemma calm_mkdir w ok d : calm w ok (set_indexDirs ({[d]} ∪ indexDirs w) w).
Proof.
  split; [destruct w; reflexivity |]. split; [cbn; apply union_subseteq_r |].
  exists []. split; [symmetry; apply app_nil_r | constructor].
Qed.

Lemma sat_calm_logLine l : sat always calm (logLine l).
Proof. intros w r w' _ [= <- <-]. apply calm_emit. exact Logic.I. Qed.

Lemma sat_calm_throw {A} e : sat always calm (@throw A e).
Proof. intros w r w' _ [= <- <-]. apply calm_refl. Qed.

Local Hint Resolve calm_refl_ok calm_trans sat_calm_logLine sat_calm_throw : calm.

Lemma sat_calm_bind {A B} (m : M A) (f : A -> M B) :
  sat always calm m -> (forall a, sat always calm (f a)) -> sat always calm (bind m f).
Proof. apply sat_bind; eauto with calm. Qed.

Lemma sat_calm_handleFs {A} op : sat always calm (@handleFsOperationError A op).
Proof. apply sat_calm_bind; auto with calm. Qed.

Lemma sat_calm_calculateSHA256 f : sat always calm (calculateSHA256 env f).
Proof.
  unfold calculateSHA256. apply sat_calm_bind; [apply sat_gets, calm_refl_ok |].
  intros [bytes |]; [| apply sat_calm_throw].
  destruct (fault env (HashFile f)); [apply sat_calm_throw | apply sat_ret, calm_refl_ok].
Qed.

Lemma sat_calm_getFilesRecursively dir name :
  sat always calm (getFilesRecursively dir name).
Proof.
  unfold getFilesRecursively. apply sat_calm_bind; [apply sat_gets, calm_refl_ok |].
  intros listing. apply sat_calm_bind; [| intros; apply sat_ret, calm_refl_ok].
  apply sat_foldM; eauto with calm.
Qed.

Lemma sat_calm_mkdirIndexDir d : sat always calm (mkdirIndexDir env d).
Proof.
  unfold mkdirIndexDir. destruct (fault env (MkdirIndexDir d)); [apply sat_calm_handleFs |].
  intros w r w' _ [= <- <-]. apply calm_mkdir.
Qed.

Lemma sat_calm_readText f : sat always calm (readText env f).
Proof.
  unfold readText. apply sat_calm_bind.
  - intros w r w' _ [= <- <-]. apply calm_emit. exact Logic.I.
  - intros _. apply sat_calm_bind; [apply sat_gets, calm_refl_ok |].
    intros; apply sat_ret, calm_refl_ok.
Qed.

Lemma sat_calm_createDocuments f content : sat always calm (createDocuments env f content).
Proof.
  unfold createDocuments. destruct (isMarkdown f); [| apply sat_ret, calm_refl_ok].
  destruct (fault env (SplitText f)); [apply sat_calm_throw | apply sat_ret, calm_refl_ok].
Qed.

End Calm.

(** ** What the recursive scan returns *)

Section Traversal.

Import Utils.

Lemma Dirent_nested_ind (P : Dirent -> Prop) :
  (forall n, P (DFile n)) ->
  (forall n, P (DOther n)) ->
  (forall n, P (DDir n None)) ->
  (forall n es, Forall P es -> P (DDir n (Some es))) ->
  forall d, P d.
Proof.
  intros HF HO HN HS. fix IH 1.
  intros [n | n [es |] | n]; [apply HF | | apply HN | apply HO].
  apply HS.
  refine ((fix all (l : list Dirent) : Forall P l :=
             match l with
             | [] => List.Forall_nil P
             | e :: l' => @List.Forall_cons _ P e l' (IH e) (all l')
             end) es).
Qed.

Lemma elem_of_concat {A} (x : A) (ls : list (list A)) :
  x ∈ concat ls <-> exists l, x ∈ l /\ l ∈ ls.
Proof.
  induction ls as [| l0 ls IH]; cbn.
  - split; [inversion 1 | intros (l & _ & H); inversion H].
  - rewrite elem_of_app, IH. split.
    + intros [H | (l & Hx & Hl)]; [exists l0; split; [exact H | left] |].
      exists l. split; [exact Hx | right; exact Hl].
    + intros (l & Hx & Hl). apply elem_of_cons in Hl as [-> | Hl]; [left; exact Hx |].
      right. exists l. auto.
Qed.

Lemma traverseEntry_dir (dir : Path) (n : string) (es : list Dirent) :
  traverseEntry dir (DDir n (Some es))
  = if Str.startsWithDot n then []
    else traverseEntries (PathOps.join dir n) es.
Proof.
  cbn [traverseEntry direntName]. destruct (Str.startsWithDot n); [reflexivity |].
  unfold traverseEntries. induction es as [| e es IH]; cbn; [reflexivity |].
  rewrite IH. reflexivity.
Qed.

Lemma below_deeper (dir : Path) (n : string) (f : Path) :
  Str.startsWithDot n = false -> below (PathOps.join dir n) f -> below dir f.
Proof.
  intros Hn (rel & Hne & Hvis & ->). exists (n :: rel).
  split; [discriminate |]. split; [constructor; assumption |].
  unfold PathOps.join. rewrite <- app_assoc. reflexivity.
Qed.

(** Every returned path lies below the directory scanned, and none of the
    segments below it is hidden. *)
Lemma traverseEntry_below (entry : Dirent) :
  forall dir f, f ∈ traverseEntry dir entry -> below dir f.
Proof.
  induction entry as [n | n | n | n es IH] using Dirent_nested_ind; intros dir f.
  - cbn. destruct (Str.startsWithDot n) eqn:Hn; [inversion 1 |].
    intros ->%list_elem_of_singleton. exists [n].
    split; [discriminate |]. split; [repeat constructor; exact Hn | reflexivity].
  - cbn. destruct (Str.startsWithDot n); inversion 1.
  - cbn. destruct (Str.startsWithDot n); inversion 1.
  - rewrite traverseEntry_dir. destruct (Str.startsWithDot n) eqn:Hn; [inversion 1 |].
    unfold traverseEntries. intros Hin.
    apply elem_of_concat in Hin as (fs & Hf & Hfs).
    apply list_elem_of_fmap in Hfs as (e & -> & He).
    rewrite Forall_forall in IH.
    eapply below_deeper; eauto.
Qed.

Lemma traverse_below (dir : Path) (listing : option (list Dirent)) (f : Path) :
  f ∈ traverse dir listing -> below dir f.
Proof.
  destruct listing as [entries |]; cbn; [| inversion 1].
  unfold traverseEntries. intros Hin.
  apply elem_of_concat in Hin as (fs & Hf & Hfs).
  apply list_elem_of_fmap in Hfs as (e & -> & He).
  eapply traverseEntry_below; eauto.
Qed.

End Traversal.

(** ** What the steps of [updateIndex] do *)

Section Outcomes.

Import FaissIndexManager.

Variable env : Env.

Ltac outcome :=
  intros [= <- <-]; cbn; rewrite <- ?app_assoc; repeat split; eauto 10;
  try (intros d Hd; apply elem_of_app in Hd; tauto);
  try (left; repeat split; eauto 10; fail);
  try (right; repeat split; eauto 10; fail).

Lemma indexDocuments_outcome f rp h docs w r w' :
  indexDocuments env f rp h docs w = (r, w') ->
  rootDir w' = rootDir w /\ kbDirs w' = kbDirs w /\ files w' = files w
  /\ indexDirs w' = indexDirs w
  /\ (forall d, d ∈ default [] (faissIndex w') ->
                d ∈ default [] (faissIndex w) \/ d ∈ docs)
  /\ ((isOk r = false
       /\ hashRecords w' = hashRecords w
       /\ (trace w' = trace w ++ [EvEmbed docs]
           \/ (fault env (SaveStore f) = true
               /\ trace w' = trace w ++ [EvEmbed docs; EvSave false;
                                        EvLog (LogFsFailed (SaveStore f))])
           \/ (fault env (SaveStore f) = false
               /\ trace w' = trace w ++ [EvEmbed docs; EvSave true;
                                        EvLog (LogFsFailed (WriteHash rp))])))
      \/ (r = Ok tt
          /\ fault env (SaveStore f) = false
          /\ is_Some (faissIndex w')
          /\ storeFile w' = faissIndex w'
          /\ hashRecords w' = <[rp := h]> (hashRecords w)
          /\ trace w' = trace w ++ [EvEmbed docs; EvSave true; EvWriteHash rp h])).
Proof.
  unfold indexDocuments, addToIndex, saveIndex, writeHashRecord, handleFsOperationError.
  go.
  destruct (fault env (Embed f)) eqn:He; go; [outcome |].
  destruct (fault env (SaveStore f)) eqn:Hs; go; [outcome |].
  destruct (fault env (WriteHash rp)) eqn:Hw; go; outcome.
Qed.

Lemma buildFromAll_outcome docs w r w' :
  buildFromAll env docs w = (r, w') ->
  rootDir w' = rootDir w /\ kbDirs w' = kbDirs w /\ files w' = files w
  /\ indexDirs w' = indexDirs w /\ hashRecords w' = hashRecords w
  /\ (forall d, d ∈ default [] (faissIndex w') ->
                d ∈ default [] (faissIndex w) \/ d ∈ docs)
  /\ ((isOk r = false
       /\ (trace w' = trace w ++ [EvEmbed docs]
           \/ trace w' = trace w ++ [EvEmbed docs; EvSave false;
                                    EvLog (LogFsFailed RebuildSave)]))
      \/ (r = Ok tt
          /\ is_Some (faissIndex w')
          /\ trace w' = trace w ++ [EvEmbed docs; EvSave true])).
Proof.
  unfold buildFromAll, addToIndex, saveIndex, handleFsOperationError.
  go.
  destruct (fault env RebuildEmbed) eqn:He; go; [outcome |].
  destruct (fault env RebuildSave) eqn:Hs; go; outcome.
Qed.

Lemma createDocuments_outcome f content w r w' :
  createDocuments env f content w = (r, w') ->
  w' = w
  /\ match r with
     | Ok docs =>
         sourcedIn (eq f) docs
         /\ (docs = [] ->
             isMarkdown f = true /\ fault env (SplitText f) = false
             /\ splitMarkdown env content = [])
     | Err _ => True
     end.
Proof.
  unfold createDocuments, sourcedIn.
  destruct (isMarkdown f); [destruct (fault env (SplitText f)) |];
    intros [= <- <-]; (split; [reflexivity |]); auto.
  - split.
    + apply Forall_forall. intros d (chunk & -> & _)%list_elem_of_fmap. reflexivity.
    + intros Hnil. apply fmap_nil_inv in Hnil. auto.
  - split; [repeat constructor | discriminate].
Qed.

Lemma calm_fields w ok w' :
  calm w ok w' ->
  rootDir w' = rootDir w /\ kbDirs w' = kbDirs w /\ files w' = files w
  /\ hashRecords w' = hashRecords w /\ faissIndex w' = faissIndex w
  /\ storeFile w' = storeFile w.
Proof.
  intros (Hsame & _ & _). rewrite <- Hsame. destruct w'; cbn. auto 10.
Qed.

Lemma calculateSHA256_outcome f w r w' :
  calculateSHA256 env f w = (r, w') ->
  w' = w
  /\ match r with
     | Ok h => exists bytes, files w !! f = Some bytes
                             /\ fault env (HashFile f) = false
                             /\ h = sha256hex env bytes
     | Err _ => True
     end.
Proof.
  unfold calculateSHA256. go.
  destruct (files w !! f) as [bytes |]; go; [| intros [= <- <-]; auto].
  destruct (fault env (HashFile f)); go; intros [= <- <-]; eauto.
Qed.

Lemma ensureIndexDir_outcome d w r w' :
  when (negb (bool_decide (d ∈ indexDirs w))) (mkdirIndexDir env d) w = (r, w') ->
  calm w (isOk r) w' /\ (isOk r = true -> d ∈ indexDirs w').
Proof.
  destruct (bool_decide (d ∈ indexDirs w)) eqn:Hin; cbn [negb when].
  - intros [= <- <-]. split; [apply calm_refl |]. intros _.
    apply bool_decide_eq_true in Hin. exact Hin.
  - intros Hrun. split; [exact (sat_calm_mkdirIndexDir env d _ _ _ Logic.I Hrun) |].
    revert Hrun. unfold mkdirIndexDir, handleFsOperationError.
    destruct (fault env (MkdirIndexDir d)); go; intros [= <- <-]; [discriminate |].
    intros _. cbn. apply elem_of_union_l, elem_of_singleton. reflexivity.
Qed.

Lemma readText_outcome f w :
  readText env f w
  = (Ok (if fault env (ReadText f) then None else files w !! f),
     set_trace (trace w ++ [EvReadText f]) w).
Proof. reflexivity. Qed.

Lemma processFile_cases kbPath f w r w' :
  processFile env kbPath f w = (r, w') ->
  let rp := indexFilePathOf kbPath f in
  (isOk r = false /\ calm w false w')
  \/ exists bytes w0,
       files w !! f = Some bytes
       /\ fault env (HashFile f) = false
       /\ calm w true w0
       /\ indexDirPathOf kbPath f ∈ indexDirs w0
       /\ ((r = Ok tt /\ w' = w0
            /\ (hashRecords w !! rp = Some (sha256hex env bytes)
                \/ fault env (ReadText f) = true
                \/ (isMarkdown f = true /\ fault env (SplitText f) = false
                    /\ splitMarkdown env bytes = [])))
           \/ (exists docs,
                 docs <> [] /\ sourcedIn (eq f) docs
                 /\ hashRecords w !! rp <> Some (sha256hex env bytes)
                 /\ indexDocuments env f rp (sha256hex env bytes) docs w0 = (r, w'))).
Proof.
  intros Hrun rp. revert Hrun. unfold processFile. fold rp.
  rewrite bind_eq.
  destruct (calculateSHA256 env f w) as [[h | e] wa] eqn:Hsha;
    apply calculateSHA256_outcome in Hsha as [-> Hsha].
  2:{ intros [= <- <-]. left. split; [reflexivity | apply calm_refl]. }
  destruct Hsha as (bytes & Hbytes & Hhash & ->).
  rewrite bind_eq. cbn [gets]. rewrite bind_eq.
  destruct (when _ _ w) as [[[] | e] wb] eqn:Hmk;
    apply ensureIndexDir_outcome in Hmk as [Hcalm Hdir]; cbn in Hcalm.
  2:{ intros [= <- <-]. left. split; [reflexivity | exact Hcalm]. }
  specialize (Hdir eq_refl).
  destruct (calm_fields _ _ _ Hcalm) as (_ & _ & Hfiles & Hrecords & _).
  rewrite bind_eq. cbn [gets]. rewrite Hrecords.
  case_bool_decide as Hstored.
  { intros [= <- <-]. right. exists bytes, wb.
    split; [first [exact Hbytes | reflexivity] |]. split; [exact Hhash |]. split; [exact Hcalm |].
    split; [exact Hdir |]. left. auto. }
  rewrite bind_eq, readText_outcome, Hfiles, Hbytes.
  pose (wc := set_trace (trace wb ++ [EvReadText f]) wb).
  assert (Hcalm' : calm w true wc).
  { eapply calm_trans; [exact Hcalm | apply calm_emit; exact Logic.I]. }
  assert (Hdir' : indexDirPathOf kbPath f ∈ indexDirs wc) by exact Hdir.
  fold wc.
  destruct (fault env (ReadText f)) eqn:Hread.
  { intros [= <- <-]. right.
    exists bytes, (set_trace (trace wc ++ [EvLog (LogReadFailed f)]) wc).
    split; [first [exact Hbytes | reflexivity] |]. split; [exact Hhash |].
    split; [eapply calm_trans;
              [exact Hcalm' | apply (calm_emit wc true (EvLog (LogReadFailed f))); exact Logic.I] |].
    split; [exact Hdir |]. left. auto. }
  rewrite bind_eq.
  destruct (createDocuments env f bytes wc) as [[docs | e] wd] eqn:Hdocs;
    apply createDocuments_outcome in Hdocs as [-> Hdocs].
  2:{ intros [= <- <-]. left. split; [reflexivity | exact Hcalm']. }
  destruct Hdocs as [Hsrc Hnil].
  destruct docs as [| d docs].
  - intros [= <- <-]. right. exists bytes, wc.
    split; [first [exact Hbytes | reflexivity] |]. split; [exact Hhash |]. split; [exact Hcalm' |].
    split; [exact Hdir' |]. left. auto 10.
  - intros Hindex. right. exists bytes, wc.
    split; [first [exact Hbytes | reflexivity] |]. split; [exact Hhash |]. split; [exact Hcalm' |].
    split; [exact Hdir' |]. right. exists (d :: docs).
    split; [discriminate |]. auto.
Qed.

End Outcomes.

(** ** Step relations that [updateIndex] keeps

    A step relation that holds of calm steps, of the two blocks that embed
    and save, and that survives one more log line after a failure, holds of
    [updateIndex]. *)

Section Scan.

Import FaissIndexManager.

Variable env : Env.
Variable T : World -> bool -> World -> Prop.

Hypothesis T_refl : forall w, T w true w.
Hypothesis T_trans : forall w1 w2 w3 ok, T w1 true w2 -> T w2 ok w3 -> T w1 ok w3.
Hypothesis calm_T : forall w ok w', calm w ok w' -> T w ok w'.
Hypothesis index_T :
  forall name rel bytes docs w r w',
    rel <> [] -> notHidden rel ->
    files w !! (knowledgeBasePathOf env name ++ rel) = Some bytes ->
    sourcedIn (eq (knowledgeBasePathOf env name ++ rel)) docs ->
    indexDocuments env (knowledgeBasePathOf env name ++ rel)
      (indexFilePathOf (knowledgeBasePathOf env name) (knowledgeBasePathOf env name ++ rel))
      (sha256hex env bytes) docs w = (r, w') ->
    T w (isOk r) w'.
Hypothesis build_T :
  forall docs w r w',
    sourcedIn (visible env) docs ->
    buildFromAll env docs w = (r, w') ->
    T w (isOk r) w'.
Hypothesis log_T :
  forall w w0 l, T w false w0 -> T w false (set_trace (trace w0 ++ [EvLog l]) w0).

Lemma sat_of_calm {A} (m : M A) : sat always calm m -> sat always T m.
Proof. apply sat_weaken. exact calm_T. Qed.

Lemma sat_processFile name f :
  below (knowledgeBasePathOf env name) f ->
  sat always T (processFile env (knowledgeBasePathOf env name) f).
Proof.
  intros (rel & Hne & Hvis & ->) w r w' _ Hrun.
  destruct (processFile_cases env _ _ _ _ _ Hrun)
    as [[Herr Hcalm]
       | (bytes & w0 & Hb & Hh & Hcalm & Hdir
          & [(-> & -> & _) | (docs & Hdocs & Hsrc & Hstale & Hidx)])].
  - destruct r; [discriminate |]. apply calm_T, Hcalm.
  - apply calm_T, Hcalm.
  - eapply T_trans; [apply calm_T, Hcalm |].
    destruct (calm_fields _ _ _ Hcalm) as (_ & _ & Hfiles & _).
    eapply index_T; eauto. rewrite Hfiles. exact Hb.
Qed.

Lemma logFailures_ok (l : list Path) (u : unit) (w : World) :
  exists w', foldM (fun _ p => logLine (LogTraverseFailed p)) u l w = (Ok tt, w').
Proof.
  revert u w. induction l as [| p l IH]; intros [] w; cbn [foldM].
  - eexists. reflexivity.
  - rewrite bind_eq. cbn. apply IH.
Qed.

Lemma getFilesRecursively_outcome dir name w r w' :
  getFilesRecursively dir name w = (r, w') ->
  r = Ok (Utils.traverse dir (kbDirs w !! name)) /\ calm w true w'.
Proof.
  intros Hrun.
  pose proof (sat_calm_getFilesRecursively dir name _ _ _ Logic.I Hrun) as Hcalm.
  split; [| exact Hcalm].
  revert Hrun. unfold getFilesRecursively. rewrite bind_eq. cbn [gets].
  rewrite bind_eq.
  destruct (logFailures_ok (Utils.traverseFailures dir (kbDirs w !! name)) tt w)
    as [w1 ->].
  intros [= <- <-]. reflexivity.
Qed.

Lemma sat_scanFiles name files any :
  Forall (below (knowledgeBasePathOf env name)) files ->
  sat always T
    (foldM (fun (_ : bool) filePath =>
              processFile env (knowledgeBasePathOf env name) filePath ;; ret true)
           any files).
Proof.
  intros Hfiles. apply (sat_foldM always T T_refl T_trans (always_stable T)).
  intros b f Hf. rewrite Forall_forall in Hfiles.
  apply (sat_bind always T T_trans (always_stable T)).
  - apply sat_processFile, Hfiles, Hf.
  - intros _. apply sat_ret, T_refl.
Qed.

Lemma traverse_all_below dir listing : Forall (below dir) (Utils.traverse dir listing).
Proof. apply Forall_forall. intros f. apply traverse_below. Qed.

Lemma sat_scanKnowledgeBase any name : sat always T (scanKnowledgeBase env any name).
Proof.
  unfold scanKnowledgeBase. destruct (Str.startsWithDot name); [apply sat_ret, T_refl |].
  apply (sat_bind_with always T T_trans (always_stable T)
           (Forall (below (knowledgeBasePathOf env name)))).
  - apply sat_of_calm, sat_calm_getFilesRecursively.
  - intros w files w' _ Hrun. apply getFilesRecursively_outcome in Hrun as [[= ->] _].
    apply traverse_all_below.
  - intros files Hfiles. apply sat_scanFiles, Hfiles.
Qed.

Lemma sat_mainLoop any kbs : sat always T (foldM (scanKnowledgeBase env) any kbs).
Proof.
  apply (sat_foldM always T T_refl T_trans (always_stable T)).
  intros b name _. apply sat_scanKnowledgeBase.
Qed.

(** The fallback. *)

Lemma sat_calm_collectFile acc f : sat always calm (collectFile env acc f).
Proof.
  unfold collectFile. apply sat_calm_bind; [apply sat_calm_readText |].
  intros [content |].
  - apply sat_calm_bind; [apply sat_calm_createDocuments |].
    intros docs. apply sat_ret, calm_refl_ok.
  - apply sat_calm_bind; [apply sat_calm_logLine |].
    intros _. apply sat_ret, calm_refl_ok.
Qed.

Lemma sat_calm_collectKnowledgeBase acc name :
  sat always calm (collectKnowledgeBase env acc name).
Proof.
  unfold collectKnowledgeBase.
  destruct (Str.startsWithDot name); [apply sat_ret, calm_refl_ok |].
  apply sat_calm_bind; [apply sat_calm_getFilesRecursively |].
  intros files. apply (sat_foldM always calm calm_refl_ok calm_trans (always_stable calm)).
  intros b f _. apply sat_calm_collectFile.
Qed.

Lemma sat_calm_collectAll acc kbs :
  sat always calm (foldM (collectKnowledgeBase env) acc kbs).
Proof.
  apply (sat_foldM always calm calm_refl_ok calm_trans (always_stable calm)).
  intros b name _. apply sat_calm_collectKnowledgeBase.
Qed.

Lemma foldM_result {A B} (f : B -> A -> M B) (R : B -> Prop) (l : list A) :
  (forall b x w b' w', x ∈ l -> R b -> f b x w = (Ok b', w') -> R b') ->
  forall b w b' w', R b -> foldM f b l w = (Ok b', w') -> R b'.
Proof.
  induction l as [| x l IH]; intros Hf b w b' w' Hb; cbn [foldM].
  - intros [= <- <-]. exact Hb.
  - rewrite bind_eq. destruct (f b x w) as [[b1 | e] w1] eqn:Hstep; [| discriminate].
    apply IH.
    + intros b0 y w0 b0' w0' Hy. apply Hf. right. exact Hy.
    + eapply Hf; eauto. left.
Qed.

Lemma collectFile_sources name acc f w docs w' :
  below (knowledgeBasePathOf env name) f ->
  sourcedIn (visible env) acc ->
  collectFile env acc f w = (Ok docs, w') ->
  sourcedIn (visible env) docs.
Proof.
  intros Hf Hacc. unfold collectFile. rewrite bind_eq, readText_outcome.
  destruct (if fault env (ReadText f) then None else files w !! f) as [content |].
  - rewrite bind_eq.
    destruct (createDocuments env f content _) as [[more | e] w1] eqn:Hdocs;
      [| discriminate].
    apply createDocuments_outcome in Hdocs as [_ [Hsrc _]].
    intros [= <- <-]. apply Forall_app. split; [exact Hacc |].
    eapply Forall_impl; [exact Hsrc |]. intros d <-. exists name. exact Hf.
  - rewrite bind_eq. cbn. intros [= <- <-]. exact Hacc.
Qed.

Lemma collectAll_sources kbs acc w docs w' :
  sourcedIn (visible env) acc ->
  foldM (collectKnowledgeBase env) acc kbs w = (Ok docs, w') ->
  sourcedIn (visible env) docs.
Proof.
  apply (foldM_result (collectKnowledgeBase env) (sourcedIn (visible env)) kbs).
  clear. intros acc name w docs w' _ Hacc. unfold collectKnowledgeBase.
  destruct (Str.startsWithDot name); [intros [= <- <-]; exact Hacc |].
  rewrite bind_eq.
  destruct (getFilesRecursively _ name w) as [r w1] eqn:Hscan.
  apply getFilesRecursively_outcome in Hscan as [-> _].
  apply (foldM_result (collectFile env) (sourcedIn (visible env))); [| exact Hacc].
  intros b f w0 b' w0' Hf Hb. eapply collectFile_sources; eauto.
  eapply traverse_below; eauto.
Qed.

Lemma sat_rebuild kbs : sat always T (rebuild env kbs).
Proof.
  unfold rebuild.
  apply (sat_bind_with always T T_trans (always_stable T) (sourcedIn (visible env))).
  - apply sat_of_calm, sat_calm_collectAll.
  - intros w docs w' _ Hrun. eapply collectAll_sources; [| exact Hrun]. constructor.
  - intros [| d docs] Hsrc; [apply sat_ret, T_refl |].
    intros w r w' _ Hrun. eapply build_T; eauto.
Qed.

Lemma sat_calm_readdirRoot : sat always calm readdirRoot.
Proof.
  unfold readdirRoot. apply sat_calm_bind; [apply sat_gets, calm_refl_ok |].
  intros [names |]; [apply sat_ret, calm_refl_ok | apply sat_calm_throw].
Qed.

Theorem sat_updateIndex kb : sat always T (updateIndex env kb).
Proof.
  unfold updateIndex. apply (sat_rethrowing always T T_refl T_trans).
  - apply (sat_bind always T T_trans (always_stable T)).
    + destruct (Config.truthy kb); [apply sat_ret, T_refl |].
      apply sat_of_calm, sat_calm_readdirRoot.
    + intros kbs. apply (sat_bind always T T_trans (always_stable T));
        [apply sat_mainLoop |].
      intros any. apply (sat_bind always T T_trans (always_stable T));
        [apply sat_gets, T_refl |].
      intros handle. apply sat_when; [exact T_refl |]. apply sat_rebuild.
  - intros e w w0 r w' Hfail. unfold logUnlessLogged.
    destruct (negb (alreadyLogged e)); cbn; intros [= <- <-]; auto.
Qed.

End Scan.

(** ** Hash records are written after the save *)

Section HashAfterSave.

Import FaissIndexManager.

Variable env : Env.

Lemma hashWrites_weaken prev evs :
  hashWritesFollowSaves None evs -> hashWritesFollowSaves prev evs.
Proof.
  destruct evs as [| ev evs]; cbn; [auto |].
  intros [Hev Hrest]. split; [| exact Hrest]. destruct ev; auto. discriminate.
Qed.

Lemma hashWrites_app prev evs1 evs2 :
  hashWritesFollowSaves prev evs1 ->
  hashWritesFollowSaves None evs2 ->
  hashWritesFollowSaves prev (evs1 ++ evs2).
Proof.
  revert prev. induction evs1 as [| ev evs1 IH]; intros prev; cbn [app].
  - intros _. apply hashWrites_weaken.
  - cbn. intros [Hev Hrest] H2. split; [exact Hev |]. apply IH; assumption.
Qed.

Lemma replayHashWrites_app evs1 evs2 h :
  replayHashWrites (evs1 ++ evs2) h = replayHashWrites evs2 (replayHashWrites evs1 h).
Proof.
  revert h. induction evs1 as [| ev evs1 IH]; intros h; cbn; [reflexivity |].
  destruct ev; apply IH.
Qed.

Lemma noFailedSave_halts evs : noFailedSave evs -> haltsAtFailedSave evs.
Proof.
  induction 1 as [| ev evs Hev _ IH]; cbn; [exact Logic.I |].
  destruct ev as [| | [] | |]; auto. congruence.
Qed.

Lemma halts_app evs1 evs2 :
  noFailedSave evs1 -> haltsAtFailedSave evs2 -> haltsAtFailedSave (evs1 ++ evs2).
Proof.
  induction 1 as [| ev evs1 Hev _ IH]; cbn [app]; [auto |].
  intros H2. cbn. destruct ev as [| | [] | |]; auto. congruence.
Qed.

Lemma logs_halt evs : Forall isLog evs -> haltsAtFailedSave evs.
Proof.
  induction 1 as [| ev evs Hev _ IH]; cbn; [exact Logic.I |].
  destruct ev; cbn in Hev; try contradiction. exact IH.
Qed.

Lemma halts_then_log evs l : haltsAtFailedSave evs -> haltsAtFailedSave (evs ++ [EvLog l]).
Proof.
  induction evs as [| ev evs IH]; cbn [app]; [intros _; exact Logic.I |].
  cbn. destruct ev as [| | [] | |]; auto.
  intros Hlogs. apply Forall_app. split; [exact Hlogs | repeat constructor].
Qed.

Lemma quiet_hashWrites prev evs : Forall quiet evs -> hashWritesFollowSaves prev evs.
Proof.
  intros H. revert prev. induction H as [| ev evs Hev _ IH]; intros prev; cbn; [auto |].
  split; [| apply IH]. destruct ev; cbn in Hev; auto; contradiction.
Qed.

Lemma quiet_noFailedSave evs : Forall quiet evs -> noFailedSave evs.
Proof.
  intros H. eapply Forall_impl; [exact H |]. intros ev Hq ->. exact Hq.
Qed.

Lemma quiet_replay evs h : Forall quiet evs -> replayHashWrites evs h = h.
Proof.
  induction 1 as [| ev evs Hev _ IH]; cbn; [reflexivity |].
  destruct ev; cbn in Hev; auto; contradiction.
Qed.

Lemma ordered_refl w : ordered w true w.
Proof.
  exists []. rewrite app_nil_r. cbn. repeat split; auto. constructor.
Qed.

Lemma ordered_trans w1 w2 w3 ok : ordered w1 true w2 -> ordered w2 ok w3 -> ordered w1 ok w3.
Proof.
  intros (evs1 & Htr1 & Hh1 & Hw1 & Hhalt1 & Hok1) (evs2 & Htr2 & Hh2 & Hw2 & Hhalt2 & Hok2).
  specialize (Hok1 eq_refl).
  exists (evs1 ++ evs2). split; [rewrite Htr2, Htr1, app_assoc; reflexivity |].
  split; [rewrite replayHashWrites_app, <- Hh1; exact Hh2 |].
  split; [apply hashWrites_app; assumption |].
  split; [apply halts_app; assumption |].
  intros Hok. apply Forall_app. split; [exact Hok1 | exact (Hok2 Hok)].
Qed.

Lemma calm_ordered w ok w' : calm w ok w' -> ordered w ok w'.
Proof.
  intros Hcalm. destruct (calm_fields _ _ _ Hcalm) as (_ & _ & _ & Hrec & _).
  destruct Hcalm as (_ & _ & evs & Htr & Hq).
  exists evs. split; [exact Htr |].
  split; [rewrite quiet_replay by exact Hq; exact Hrec |].
  split; [apply quiet_hashWrites, Hq |].
  split; [apply noFailedSave_halts, quiet_noFailedSave, Hq |].
  intros _. apply quiet_noFailedSave, Hq.
Qed.

Lemma index_ordered f rp h docs w r w' :
  indexDocuments env f rp h docs w = (r, w') -> ordered w (isOk r) w'.
Proof.
  intros Hrun.
  destruct (indexDocuments_outcome env _ _ _ _ _ _ _ Hrun)
    as (_ & _ & _ & _ & _
        & [(Herr & Hrec & [Htr | [(_ & Htr) | (_ & Htr)]])
          | (-> & _ & _ & _ & Hrec & Htr)]);
    eexists; (split; [exact Htr |]); rewrite Hrec; cbn;
    repeat split; auto; try (intros Hok; congruence);
    repeat constructor; discriminate.
Qed.

Lemma build_ordered docs w r w' :
  buildFromAll env docs w = (r, w') -> ordered w (isOk r) w'.
Proof.
  intros Hrun.
  destruct (buildFromAll_outcome env _ _ _ _ Hrun)
    as (_ & _ & _ & _ & Hrec & _
        & [(Herr & [Htr | Htr]) | (-> & _ & Htr)]);
    eexists; (split; [exact Htr |]); rewrite Hrec; cbn;
    repeat split; auto; try (intros Hok; congruence);
    repeat constructor; discriminate.
Qed.

Lemma log_ordered w w0 l :
  ordered w false w0 -> ordered w false (set_trace (trace w0 ++ [EvLog l]) w0).
Proof.
  intros (evs & Htr & Hrec & Hw & Hhalt & _).
  exists (evs ++ [EvLog l]). cbn. split; [rewrite Htr, app_assoc; reflexivity |].
  split; [rewrite replayHashWrites_app; exact Hrec |].
  split; [apply hashWrites_app; [exact Hw | cbn; auto] |].
  split; [apply halts_then_log, Hhalt | discriminate].
Qed.

Lemma updateIndex_ordered kb : sat always ordered (updateIndex env kb).
Proof.
  apply sat_updateIndex;
    eauto using ordered_refl, ordered_trans, calm_ordered, index_ordered,
      build_ordered, log_ordered.
Qed.

Lemma processFile_failed_save kbPath f w :
  fault env (SaveStore f) = true ->
  hashRecords (processFile env kbPath f w).2 = hashRecords w.
Proof.
  intros Hfault.
  destruct (processFile env kbPath f w) as [r w'] eqn:Hrun. cbn.
  destruct (processFile_cases env _ _ _ _ _ Hrun)
    as [[_ Hcalm]
       | (bytes & w0 & _ & _ & Hcalm & _
          & [(_ & -> & _) | (docs & _ & _ & _ & Hidx)])].
  - apply (calm_fields _ _ _ Hcalm).
  - apply (calm_fields _ _ _ Hcalm).
  - destruct (calm_fields _ _ _ Hcalm) as (_ & _ & _ & <- & _).
    destruct (indexDocuments_outcome env _ _ _ _ _ _ _ Hidx)
      as (_ & _ & _ & _ & _ & [(_ & Hrec & _) | (_ & Hsave & _)]);
      [exact Hrec | congruence].
Qed.


End HashAfterSave.


(** ** Only visible files are indexed *)

Section VisibleOnly.

Import FaissIndexManager.

Variable env : Env.

Lemma indexesOnly_refl S w : indexesOnly S w true w.
Proof. exists []. rewrite app_nil_r. split; [reflexivity |]. split; [constructor | auto]. Qed.

Lemma indexesOnly_trans S w1 w2 w3 ok :
  indexesOnly S w1 true w2 -> indexesOnly S w2 ok w3 -> indexesOnly S w1 ok w3.
Proof.
  intros (evs1 & Htr1 & He1 & Hs1) (evs2 & Htr2 & He2 & Hs2).
  exists (evs1 ++ evs2). split; [rewrite Htr2, Htr1, app_assoc; reflexivity |].
  split; [apply Forall_app; auto |].
  intros d Hd. destruct (Hs2 d Hd) as [Hd2 | ?]; auto.
Qed.

Lemma quiet_embedsOnly S evs : Forall quiet evs -> embedsOnly S evs.
Proof.
  intros H. eapply Forall_impl; [exact H |].
  intros ev Hq. destruct ev; cbn in Hq; auto; contradiction.
Qed.

Lemma calm_indexesOnly S w ok w' : calm w ok w' -> indexesOnly S w ok w'.
Proof.
  intros Hcalm. destruct (calm_fields _ _ _ Hcalm) as (_ & _ & _ & _ & Hidx & _).
  destruct Hcalm as (_ & _ & evs & Htr & Hq).
  exists evs. split; [exact Htr |]. split; [apply quiet_embedsOnly, Hq |].
  rewrite Hidx. auto.
Qed.

Lemma index_indexesOnly (S : Path -> Prop) f rp h docs w r w' :
  sourcedIn S docs ->
  indexDocuments env f rp h docs w = (r, w') -> indexesOnly S w (isOk r) w'.
Proof.
  intros Hsrc Hrun. unfold sourcedIn in Hsrc. rewrite Forall_forall in Hsrc.
  destruct (indexDocuments_outcome env _ _ _ _ _ _ _ Hrun)
    as (_ & _ & _ & _ & Hstore
        & [(_ & _ & [Htr | [(_ & Htr) | (_ & Htr)]])
          | (_ & _ & _ & _ & _ & Htr)]);
    (eexists; split; [exact Htr |]; split;
     [repeat constructor; apply Forall_forall; exact Hsrc
     | intros d Hd; destruct (Hstore d Hd); auto]).
Qed.

Lemma build_indexesOnly (S : Path -> Prop) docs w r w' :
  sourcedIn S docs ->
  buildFromAll env docs w = (r, w') -> indexesOnly S w (isOk r) w'.
Proof.
  intros Hsrc Hrun. unfold sourcedIn in Hsrc. rewrite Forall_forall in Hsrc.
  destruct (buildFromAll_outcome env _ _ _ _ Hrun)
    as (_ & _ & _ & _ & _ & Hstore & [(_ & [Htr | Htr]) | (_ & _ & Htr)]);
    (eexists; split; [exact Htr |]; split;
     [repeat constructor; apply Forall_forall; exact Hsrc
     | intros d Hd; destruct (Hstore d Hd); auto]).
Qed.

Lemma log_indexesOnly S w w0 l :
  indexesOnly S w false w0 -> indexesOnly S w false (set_trace (trace w0 ++ [EvLog l]) w0).
Proof.
  intros (evs & Htr & He & Hs). exists (evs ++ [EvLog l]). cbn.
  split; [rewrite Htr, app_assoc; reflexivity |].
  split; [apply Forall_app; split; [exact He | repeat constructor] | exact Hs].
Qed.

(** Whatever its argument, [updateIndex] embeds only documents of visible
    files. *)
Lemma updateIndex_visible kb : sat always (indexesOnly (visible env)) (updateIndex env kb).
Proof.
  apply sat_updateIndex.
  - apply indexesOnly_refl.
  - apply indexesOnly_trans.
  - apply calm_indexesOnly.
  - intros name rel bytes docs w r w' Hne Hvis _ Hsrc. apply index_indexesOnly.
    eapply Forall_impl; [exact Hsrc |]. intros d <-.
    exists name, rel. auto.
  - intros docs w r w' Hsrc. apply build_indexesOnly, Hsrc.
  - apply log_indexesOnly.
Qed.

Lemma hidden_not_visible kb name :
  Str.startsWithDot name = true ->
  ~ visible env (knowledgeBasePathOf env kb ++ [name]).
Proof.
  intros Hdot (kb' & rel & Hne & Hvis & Heq).
  unfold knowledgeBasePathOf, PathOps.join in Heq.
  rewrite <- !app_assoc in Heq. apply app_inv_head in Heq. cbn in Heq.
  injection Heq as _ <-. inversion Hvis; subst. congruence.
Qed.

End VisibleOnly.

(** ** [updateIndex] never changes the knowledge bases *)

Section KeepsTree.

Import FaissIndexManager.

Variable env : Env.

Lemma keepsTree_refl w : keepsTree w true w.
Proof. repeat split. Qed.

Lemma keepsTree_trans w1 w2 w3 ok :
  keepsTree w1 true w2 -> keepsTree w2 ok w3 -> keepsTree w1 ok w3.
Proof. intros (? & ? & ?) (? & ? & ?). repeat split; congruence. Qed.

Lemma calm_keepsTree w ok w' : calm w ok w' -> keepsTree w ok w'.
Proof. intros H. destruct (calm_fields _ _ _ H) as (? & ? & ? & _). repeat split; auto. Qed.

Lemma updateIndex_keepsTree kb : sat always keepsTree (updateIndex env kb).
Proof.
  apply sat_updateIndex.
  - apply keepsTree_refl.
  - apply keepsTree_trans.
  - apply calm_keepsTree.
  - intros name rel bytes docs w r w' _ _ _ _ Hrun.
    destruct (indexDocuments_outcome env _ _ _ _ _ _ _ Hrun) as (? & ? & ? & _).
    repeat split; auto.
  - intros docs w r w' _ Hrun.
    destruct (buildFromAll_outcome env _ _ _ _ Hrun) as (? & ? & ? & _).
    repeat split; auto.
  - intros w w0 l H. exact H.
Qed.

End KeepsTree.

(** ** A markdown file named [.md] *)

Section HiddenMarkdown.

Import FaissIndexManager UrlManager.

Variable env : Env.

Lemma saveMarkdown_ok kb url title md now w fp w1 :
  saveMarkdown env kb url title md now w = (Ok fp, w1) ->
  fp = knowledgeBasePathOf env kb ++ [Sanitize.sanitizeUrlForFilename url +:+ ".md"]
  /\ files w1 !! fp = Some (frontmatter env url title now +:+ md)
  /\ trace w1 = trace w
  /\ faissIndex w1 = faissIndex w
  /\ exists entries,
       kbDirs w1 !! kb = Some entries
       /\ existsb (hasName (Sanitize.sanitizeUrlForFilename url +:+ ".md")) entries = true.
Proof.
  unfold saveMarkdown, mkdirKb, writeKbFile, knowledgeBasePathOf, PathOps.join.
  set (filename := Sanitize.sanitizeUrlForFilename url +:+ ".md").
  assert (Hself : hasName filename (Utils.DFile filename) = true).
  { unfold hasName. cbn. apply String.eqb_refl. }
  assert (Hlisted : forall entries,
            existsb (hasName filename)
              (if existsb (hasName filename) entries then entries
               else entries ++ [Utils.DFile filename]) = true).
  { intros entries. destruct (existsb (hasName filename) entries) eqn:Hex; [exact Hex |].
    rewrite existsb_app. cbn [existsb]. rewrite Hself. apply orb_true_r. }
  run. destruct (bool_decide _); run.
  - destruct (kbDirs w !! kb) as [entries |]; run; [| discriminate].
    destruct (_ || _); run; [discriminate |].
    intros [= <- <-]. cbn. rewrite !lookup_insert_eq.
    repeat (split; [reflexivity |]). eexists. split; [reflexivity |].
    first [apply Hlisted | cbn [existsb app]; rewrite Hself; reflexivity].
  - destruct (fault env (MkdirKb kb)); run; [discriminate |].
    rewrite lookup_insert_eq. run.
    destruct (fault env _ || _); run; [discriminate |].
    intros [= <- <-]. cbn. rewrite !lookup_insert_eq.
    repeat (split; [reflexivity |]). eexists. split; [reflexivity |].
    first [apply Hlisted | cbn [existsb app]; rewrite Hself; reflexivity].
Qed.

Lemma savePendingUrls_frame urls w r w' :
  savePendingUrls env urls w = (r, w') ->
  files w' = files w /\ trace w' = trace w /\ faissIndex w' = faissIndex w.
Proof.
  unfold savePendingUrls. run.
  destruct (pendingDir w); run;
    repeat (destruct (fault env _); run); intros [= <- <-]; auto.
Qed.

Lemma reindex_after_write kb name w r w' :
  let hidden := knowledgeBasePathOf env kb ++ [name] in
  Str.startsWithDot name = true ->
  is_Some (files w !! hidden) ->
  updateIndex env (Some kb) w = (r, w') ->
  is_Some (files w' !! hidden)
  /\ (forall kb', hidden ∉ Utils.traverse (knowledgeBasePathOf env kb') (kbDirs w' !! kb'))
  /\ exists evs,
       trace w' = trace w ++ evs
       /\ embedsOnly (fun p => p <> hidden) evs
       /\ forall d, d ∈ default [] (faissIndex w') ->
                    d ∈ default [] (faissIndex w) \/ source (metadata d) <> hidden.
Proof.
  intros hidden Hdot Hfile Hrun.
  pose proof (hidden_not_visible env kb name Hdot) as Hhidden. fold hidden in Hhidden.
  destruct (updateIndex_keepsTree env _ _ _ _ Logic.I Hrun) as (_ & _ & Hfiles).
  destruct (updateIndex_visible env _ _ _ _ Logic.I Hrun) as (evs & Htr & Hemb & Hstore).
  split; [rewrite Hfiles; exact Hfile |]. split.
  - intros kb' Hin. apply Hhidden. exists kb'. eapply traverse_below, Hin.
  - exists evs. split; [exact Htr |]. split.
    + eapply Forall_impl; [exact Hemb |]. intros [] Hev; auto.
      eapply Forall_impl; [exact Hev |]. cbn. intros d Hd Heq. apply Hhidden.
      rewrite <- Heq. exact Hd.
    + intros d Hd. destruct (Hstore d Hd) as [? | Hvis]; [left; assumption |].
      right. intros Heq. apply Hhidden. rewrite <- Heq. exact Hvis.
Qed.

Lemma ingested_hidden kb url title md now w fp w1 w2 r w' :
  Sanitize.sanitizeUrlForFilename url = "" ->
  saveMarkdown env kb url title md now w = (Ok fp, w1) ->
  files w2 = files w1 -> trace w2 = trace w1 -> faissIndex w2 = faissIndex w1 ->
  updateIndex env (Some kb) w2 = (r, w') ->
  writtenButNotIndexed env kb fp w w'.
Proof.
  intros Hsan Hsave Hfiles Htrace Hindex Hrun.
  destruct (saveMarkdown_ok _ _ _ _ _ _ _ _ Hsave) as (Hfp & Hfile & Htr1 & Hidx1 & _).
  rewrite Hsan in Hfp. cbn in Hfp. subst fp.
  destruct (reindex_after_write kb ".md" w2 r w' eq_refl) as (Hthere & Hscan & Hemb); auto.
  { rewrite Hfiles. eexists. exact Hfile. }
  unfold writtenButNotIndexed. rewrite <- Htr1, <- Htrace, <- Hidx1, <- Hindex. auto.
Qed.

(** C10. The file name derived from ["https://"] is empty.  Whenever the
    name derived from a URL is empty, a direct addition or an approval that
    succeeds has written [.md] in the target knowledge base; no scan returns
    that file, and the re-indexing that follows embeds nothing under its
    name and adds nothing under its name to the store. *)
Theorem hidden_markdown_never_indexed (now : string) (w : World) :
  Sanitize.sanitizeUrlForFilename "https://" = ""
  /\ (forall url kb fp w',
        Sanitize.sanitizeUrlForFilename url = "" ->
        addUrl env (Fixtures.reindexWith env) url kb now w = (Ok fp, w') ->
        writtenButNotIndexed env kb fp w w')
  /\ (forall i entry out w',
        List.find (hasId i) (pendingUrlsOf w) = Some entry ->
        Sanitize.sanitizeUrlForFilename (url entry) = "" ->
        approveUrl env (Fixtures.reindexWith env) i now w = (Ok out, w') ->
        writtenButNotIndexed env (knowledge_base entry) out.1 w w').
Proof.
  split; [reflexivity |]. split.
  - intros url kb fp w' Hsan. unfold addUrl, Fixtures.reindexWith.
    rewrite bind_eq.
    destruct (fetchAndConvert env url w) as [[c | e] w0] eqn:Hfetch; [| discriminate].
    apply fetchAndConvert_pure in Hfetch as ->.
    rewrite bind_eq.
    destruct (saveMarkdown env kb url c.2 c.1 now w) as [[fp0 | e] w1] eqn:Hsave;
      [| discriminate].
    rewrite bind_eq.
    destruct (updateIndex env (Some kb) w1) as [[[] | e] w2] eqn:Hrun; [| discriminate].
    intros [= <- <-]. eapply ingested_hidden; eauto.
  - intros i entry out w' Hfind Hsan. unfold approveUrl, Fixtures.reindexWith.
    rewrite bind_eq, loadPendingUrls_run, Hfind.
    destruct (negb (isPending entry)); [discriminate |].
    rewrite bind_eq.
    destruct (fetchAndConvert env (url entry) w) as [[c | e] w0] eqn:Hfetch;
      [| discriminate].
    apply fetchAndConvert_pure in Hfetch as ->.
    rewrite bind_eq.
    destruct (saveMarkdown env (knowledge_base entry) (url entry) c.2 c.1 now w)
      as [[fp0 | e] w1] eqn:Hsave; [| discriminate].
    rewrite bind_eq.
    destruct (savePendingUrls env _ w1) as [[[] | e] w2] eqn:Hpending; [| discriminate].
    apply savePendingUrls_frame in Hpending as (Hfiles & Htrace & Hindex).
    rewrite bind_eq.
    destruct (updateIndex env (Some (knowledge_base entry)) w2) as [[[] | e] w3] eqn:Hrun;
      [| discriminate].
    intros [= <- <-]. eapply ingested_hidden; eauto.
Qed.

End HiddenMarkdown.

Lemma hidden_markdown_never_indexed_witness :
  let env := Fixtures.plainEnv Fixtures.noFault in
  exists fp w',
    UrlManager.addUrl env (Fixtures.reindexWith env) "https://" "kb1" "now"
      Fixtures.twoFileWorld = (Ok fp, w')
    /\ writtenButNotIndexed env "kb1" fp Fixtures.twoFileWorld w'.
Proof.
  intros env. eexists _, _. split; [vm_compute; reflexivity |].
  apply (proj1 (proj2 (hidden_markdown_never_indexed env "now" Fixtures.twoFileWorld))
           "https://" "kb1");
    [reflexivity | vm_compute; reflexivity].
Defined.

(** ** Hash records mirror the files *)

Section Grows.

Import FaissIndexManager.

Variable env : Env.

Lemma last_below (kbPath rel : Path) :
  rel <> [] -> List.last (kbPath ++ rel) "" = List.last rel "".
Proof.
  intros Hne. pose proof (app_removelast_last "" Hne) as Hrel.
  generalize dependent (List.last rel ""). intros x Hrel.
  rewrite Hrel, app_assoc, last_last. reflexivity.
Qed.

Lemma indexDirPathOf_below (kbPath rel : Path) :
  indexDirPathOf kbPath (kbPath ++ rel) = kbPath ++ ".index" :: removelast rel.
Proof.
  unfold indexDirPathOf, PathOps.relative, PathOps.dirname.
  rewrite drop_app_length. reflexivity.
Qed.

Lemma indexFilePathOf_below (kbPath rel : Path) :
  rel <> [] -> indexFilePathOf kbPath (kbPath ++ rel) = kbPath ++ ".index" :: rel.
Proof.
  intros Hne. unfold indexFilePathOf, PathOps.join, PathOps.basename.
  rewrite indexDirPathOf_below, last_below by exact Hne.
  rewrite <- app_assoc. cbn. rewrite <- (app_removelast_last "" Hne). reflexivity.
Qed.

Lemma record_injective name1 rel1 name2 rel2 :
  knowledgeBasePathOf env name1 ++ ".index" :: rel1
  = knowledgeBasePathOf env name2 ++ ".index" :: rel2 ->
  name1 = name2 /\ rel1 = rel2.
Proof.
  unfold knowledgeBasePathOf, PathOps.join. rewrite <- !app_assoc.
  intros H%app_inv_head. cbn in H. injection H as -> ->. auto.
Qed.

Lemma grows_refl w : grows env w true w.
Proof. split; [apply keepsTree_refl |]. split; [reflexivity | auto]. Qed.

Lemma grows_trans w1 w2 w3 ok :
  grows env w1 true w2 -> grows env w2 ok w3 -> grows env w1 ok w3.
Proof.
  intros (Ht12 & Hd12 & Hr12) (Ht23 & Hd23 & Hr23).
  split; [eapply keepsTree_trans; eauto |]. split; [etransitivity; eauto |].
  intros rp. destruct (Hr23 rp) as [Hsame | (name & rel & bytes & Hne & -> & Hb & Hrec)].
  - rewrite Hsame. apply Hr12.
  - right. exists name, rel, bytes. destruct Ht12 as (_ & _ & Hfiles).
    rewrite <- Hfiles. auto.
Qed.

Lemma calm_grows w ok w' : calm w ok w' -> grows env w ok w'.
Proof.
  intros Hcalm. split; [apply calm_keepsTree, Hcalm |].
  destruct (calm_fields _ _ _ Hcalm) as (_ & _ & _ & Hrec & _).
  destruct Hcalm as (_ & Hsub & _). split; [exact Hsub |].
  intros rp. left. rewrite Hrec. reflexivity.
Qed.

Lemma index_grows name rel bytes docs w r w' :
  rel <> [] ->
  files w !! (knowledgeBasePathOf env name ++ rel) = Some bytes ->
  indexDocuments env (knowledgeBasePathOf env name ++ rel)
    (indexFilePathOf (knowledgeBasePathOf env name) (knowledgeBasePathOf env name ++ rel))
    (sha256hex env bytes) docs w = (r, w') ->
  grows env w (isOk r) w'.
Proof.
  intros Hne Hbytes Hrun. rewrite (indexFilePathOf_below _ _ Hne) in Hrun.
  destruct (indexDocuments_outcome env _ _ _ _ _ _ _ Hrun)
    as (Hroot & Hkb & Hfiles & Hdirs & _ & Hcases).
  split; [repeat split; assumption |]. split; [rewrite Hdirs; reflexivity |].
  intros rp. destruct Hcases as [(_ & Hrec & _) | (_ & _ & _ & _ & Hrec & _)].
  - left. rewrite Hrec. reflexivity.
  - rewrite Hrec.
    destruct (decide (rp = knowledgeBasePathOf env name ++ ".index" :: rel)) as [-> | Hother].
    + right. exists name, rel, bytes. rewrite lookup_insert_eq. auto.
    + left. rewrite lookup_insert_ne by congruence. reflexivity.
Qed.

Lemma build_grows docs w r w' :
  buildFromAll env docs w = (r, w') -> grows env w (isOk r) w'.
Proof.
  intros Hrun.
  destruct (buildFromAll_outcome env _ _ _ _ Hrun)
    as (Hroot & Hkb & Hfiles & Hdirs & Hrec & _).
  split; [repeat split; assumption |]. split; [rewrite Hdirs; reflexivity |].
  intros rp. left. rewrite Hrec. reflexivity.
Qed.

Lemma log_grows w w0 l :
  grows env w false w0 -> grows env w false (set_trace (trace w0 ++ [EvLog l]) w0).
Proof. exact (fun H => H). Qed.

Lemma grows_hypotheses :
  (forall w, grows env w true w)
  /\ (forall w1 w2 w3 ok, grows env w1 true w2 -> grows env w2 ok w3 -> grows env w1 ok w3)
  /\ (forall w ok w', calm w ok w' -> grows env w ok w')
  /\ (forall name rel bytes docs w r w',
        rel <> [] -> notHidden rel ->
        files w !! (knowledgeBasePathOf env name ++ rel) = Some bytes ->
        sourcedIn (eq (knowledgeBasePathOf env name ++ rel)) docs ->
        indexDocuments env (knowledgeBasePathOf env name ++ rel)
          (indexFilePathOf (knowledgeBasePathOf env name) (knowledgeBasePathOf env name ++ rel))
          (sha256hex env bytes) docs w = (r, w') ->
        grows env w (isOk r) w').
Proof.
  split; [exact grows_refl |]. split; [exact grows_trans |].
  split; [exact calm_grows |].
  intros name rel bytes docs w r w' Hne _ Hbytes _ Hrun.
  eapply index_grows; eauto.
Qed.

Lemma scanKnowledgeBase_grows any name : sat always (grows env) (scanKnowledgeBase env any name).
Proof.
  destruct grows_hypotheses as (H1 & H2 & H3 & H4).
  apply sat_scanKnowledgeBase; assumption.
Qed.

Lemma processFile_grows name f :
  below (knowledgeBasePathOf env name) f ->
  sat always (grows env) (processFile env (knowledgeBasePathOf env name) f).
Proof.
  destruct grows_hypotheses as (H1 & H2 & H3 & H4).
  apply sat_processFile; assumption.
Qed.

Lemma mainLoop_grows any kbs : sat always (grows env) (foldM (scanKnowledgeBase env) any kbs).
Proof.
  destruct grows_hypotheses as (H1 & H2 & H3 & H4).
  apply sat_mainLoop; assumption.
Qed.

End Grows.

(** ** After a scan that succeeded, every file is settled *)

Section Settled.

Import FaissIndexManager.

Variable env : Env.

Lemma settled_same kbPath f w w' :
  files w' = files w -> indexDirs w ⊆ indexDirs w' -> hashRecords w' = hashRecords w ->
  settled env kbPath f w -> settled env kbPath f w'.
Proof.
  intros Hfiles Hdirs Hrec (bytes & Hb & Hh & Hd & Hcases).
  exists bytes. rewrite Hfiles, Hrec. auto.
Qed.

Lemma settled_grows name rel w w' :
  rel <> [] ->
  grows env w true w' ->
  settled env (knowledgeBasePathOf env name) (knowledgeBasePathOf env name ++ rel) w ->
  settled env (knowledgeBasePathOf env name) (knowledgeBasePathOf env name ++ rel) w'.
Proof.
  intros Hne ((_ & _ & Hfiles) & Hdirs & Hrec) (bytes & Hb & Hh & Hd & Hcases).
  exists bytes. rewrite Hfiles. split; [exact Hb |]. split; [exact Hh |].
  split; [auto |].
  destruct Hcases as [Hstored | Hother]; [| right; exact Hother].
  left. rewrite (indexFilePathOf_below _ _ Hne) in *.
  destruct (Hrec (knowledgeBasePathOf env name ++ ".index" :: rel))
    as [-> | (name' & rel' & bytes' & _ & Heq & Hb' & ->)]; [exact Hstored |].
  apply record_injective in Heq as [<- <-]. congruence.
Qed.

Lemma processFile_settles kbPath f w w' :
  processFile env kbPath f w = (Ok tt, w') -> settled env kbPath f w'.
Proof.
  intros Hrun.
  destruct (processFile_cases env _ _ _ _ _ Hrun)
    as [[Herr _]
       | (bytes & w0 & Hb & Hh & Hcalm & Hdir
          & [(_ & -> & Hcases) | (docs & _ & _ & _ & Hidx)])];
    [discriminate | |];
    destruct (calm_fields _ _ _ Hcalm) as (_ & _ & Hfiles & Hrec & _).
  - exists bytes. rewrite Hfiles, Hrec. auto.
  - destruct (indexDocuments_outcome env _ _ _ _ _ _ _ Hidx)
      as (_ & _ & Hfiles' & Hdirs' & _ & [(Herr & _) | (_ & _ & _ & _ & Hrec' & _)]);
      [discriminate |].
    exists bytes. rewrite Hfiles', Hfiles, Hdirs', Hrec', lookup_insert_eq. auto.
Qed.

Lemma scanFiles_settles name files any w any' w' :
  Forall (below (knowledgeBasePathOf env name)) files ->
  foldM (fun (_ : bool) filePath =>
           processFile env (knowledgeBasePathOf env name) filePath ;; ret true)
        any files w = (Ok any', w') ->
  forall f, f ∈ files -> settled env (knowledgeBasePathOf env name) f w'.
Proof.
  intros Hbelow Hrun f Hf. rewrite Forall_forall in Hbelow.
  refine (proj2 (foldM_establish always (grows env) (grows_refl env) (grows_trans env)
            (always_stable _) _
            (fun f w => below (knowledgeBasePathOf env name) f
                        /\ settled env (knowledgeBasePathOf env name) f w)
            files _ _ _ any w any' w' Logic.I Hrun f Hf)).
  - intros b x Hx. apply (sat_bind always _ (grows_trans env) (always_stable _)).
    + apply processFile_grows, Hbelow, Hx.
    + intros _. apply sat_ret, grows_refl.
  - intros b x w0 b' w0' Hx _. rewrite bind_eq.
    destruct (processFile env _ x w0) as [[[] | e] w1] eqn:Hstep; [| discriminate].
    intros [= <- <-]. split; [apply Hbelow, Hx | eapply processFile_settles, Hstep].
  - intros x w0 w0' [Hx Hs] Hg. split; [exact Hx |].
    destruct Hx as (rel & Hne & _ & ->). eapply settled_grows; eauto.
Qed.

Lemma scanKnowledgeBase_settles any name w any' w' :
  scanKnowledgeBase env any name w = (Ok any', w') ->
  Str.startsWithDot name = false ->
  forall f, f ∈ Utils.traverse (knowledgeBasePathOf env name) (kbDirs w !! name) -> settled env (knowledgeBasePathOf env name) f w'.
Proof.
  unfold scanKnowledgeBase. intros Hrun Hdot. rewrite Hdot, bind_eq in Hrun.
  destruct (getFilesRecursively _ name w) as [r w1] eqn:Hscan.
  apply getFilesRecursively_outcome in Hscan as [-> _].
  eapply scanFiles_settles; [apply traverse_all_below | exact Hrun].
Qed.

Lemma mainLoop_settles kbs any w any' w' :
  foldM (scanKnowledgeBase env) any kbs w = (Ok any', w') ->
  forall name, name ∈ kbs -> Str.startsWithDot name = false ->
  forall f, f ∈ Utils.traverse (knowledgeBasePathOf env name) (kbDirs w !! name) -> settled env (knowledgeBasePathOf env name) f w'.
Proof.
  intros Hrun.
  refine (foldM_establish (fun w0 => kbDirs w0 = kbDirs w) (grows env)
            (grows_refl env) (grows_trans env) _ _
            (fun name w0 =>
               Str.startsWithDot name = false ->
               forall f, f ∈ Utils.traverse (knowledgeBasePathOf env name) (kbDirs w !! name) ->
                         settled env (knowledgeBasePathOf env name) f w0)
            kbs _ _ _ any w any' w' eq_refl Hrun).
  - intros w0 w0' Hk ((_ & Hkb & _) & _). congruence.
  - intros b name _ w0 r w0' _. apply scanKnowledgeBase_grows. exact Logic.I.
  - intros b name w0 b' w0' _ Hk Hstep Hdot f. rewrite <- Hk.
    eapply scanKnowledgeBase_settles; eauto.
  - intros name w0 w0' Hs Hg Hdot f Hf. specialize (Hs Hdot f Hf).
    destruct (traverse_below _ _ _ Hf) as (rel & Hne & _ & ->).
    eapply settled_grows; eauto.
Qed.

End Settled.

(** ** Computations that only read *)

Section Uniform.

Import FaissIndexManager.

Variable env : Env.

Lemma set_trace_id (w : World) : set_trace (trace w) w = w.
Proof. destruct w; reflexivity. Qed.

Lemma uniform_run {A} (m : M A) (w : World) :
  uniform m ->
  exists r evs, Forall quiet evs /\ m w = (r, set_trace (trace w ++ evs) w).
Proof.
  intros Hm. destruct (Hm w) as (r & evs & Hq & Hrun).
  exists r, evs. split; [exact Hq |]. rewrite <- (Hrun (trace w)), set_trace_id.
  reflexivity.
Qed.

Lemma uniform_ret {A} (a : A) : uniform (ret a).
Proof.
  intros w. exists (Ok a), []. split; [constructor |].
  intros t. rewrite app_nil_r. reflexivity.
Qed.

Lemma uniform_throw {A} (e : Error) : uniform (@throw A e).
Proof.
  intros w. exists (Err e), []. split; [constructor |].
  intros t. rewrite app_nil_r. reflexivity.
Qed.

Lemma uniform_emit (ev : Event) : quiet ev -> uniform (emit ev).
Proof.
  intros Hq w. exists (Ok tt), [ev]. split; [repeat constructor; exact Hq |].
  intros t. reflexivity.
Qed.

Lemma uniform_bind {A B} (m : M A) (f : A -> M B) :
  uniform m -> (forall a, uniform (f a)) -> uniform (bind m f).
Proof.
  intros Hm Hf w. destruct (Hm w) as ([a | e] & evs1 & Hq1 & Hrun1).
  - destruct (Hf a w) as (r & evs2 & Hq2 & Hrun2).
    exists r, (evs1 ++ evs2). split; [apply Forall_app; auto |].
    intros t. rewrite bind_eq, Hrun1, Hrun2, app_assoc. reflexivity.
  - exists (Err e), evs1. split; [exact Hq1 |].
    intros t. rewrite bind_eq, Hrun1. reflexivity.
Qed.

Lemma uniform_foldM {A B} (f : B -> A -> M B) (l : list A) :
  (forall b x, uniform (f b x)) -> forall b, uniform (foldM f b l).
Proof.
  intros Hf. induction l as [| x l IH]; intros b; cbn [foldM].
  - apply uniform_ret.
  - apply uniform_bind; auto.
Qed.

Lemma uniform_readText f : uniform (readText env f).
Proof.
  intros w. exists (Ok (if fault env (ReadText f) then None else files w !! f)),
                   [EvReadText f].
  split; [repeat constructor |]. intros t. reflexivity.
Qed.

Lemma uniform_createDocuments f content : uniform (createDocuments env f content).
Proof.
  unfold createDocuments. destruct (isMarkdown f); [| apply uniform_ret].
  destruct (fault env (SplitText f)); [apply uniform_throw | apply uniform_ret].
Qed.

Lemma uniform_getFilesRecursively dir name : uniform (getFilesRecursively dir name).
Proof.
  intros w.
  destruct (uniform_foldM (fun (_ : unit) p => logLine (LogTraverseFailed p))
              (Utils.traverseFailures dir (kbDirs w !! name))
              (fun _ p => uniform_emit (EvLog (LogTraverseFailed p)) Logic.I) tt w) as (r & evs & Hq & Hrun).
  exists (match r with
          | Ok _ => Ok (Utils.traverse dir (kbDirs w !! name))
          | Err e => Err e
          end), evs.
  split; [exact Hq |]. intros t. unfold getFilesRecursively.
  rewrite bind_eq. cbn [gets kbDirs set_trace]. rewrite bind_eq, Hrun.
  destruct r; reflexivity.
Qed.

Lemma uniform_collectFile acc f : uniform (collectFile env acc f).
Proof.
  unfold collectFile. apply uniform_bind; [apply uniform_readText |].
  intros [content |].
  - apply uniform_bind; [apply uniform_createDocuments |]. intros; apply uniform_ret.
  - apply uniform_bind; [apply (uniform_emit (EvLog (LogReadFailed f))); exact Logic.I |].
    intros; apply uniform_ret.
Qed.

Lemma uniform_collectKnowledgeBase acc name : uniform (collectKnowledgeBase env acc name).
Proof.
  unfold collectKnowledgeBase. destruct (Str.startsWithDot name); [apply uniform_ret |].
  apply uniform_bind; [apply uniform_getFilesRecursively |].
  intros files. apply uniform_foldM. intros; apply uniform_collectFile.
Qed.

Lemma uniform_collectAll acc kbs : uniform (foldM (collectKnowledgeBase env) acc kbs).
Proof. apply uniform_foldM. intros; apply uniform_collectKnowledgeBase. Qed.

End Uniform.

(** ** A second [updateIndex] finds nothing to do *)

Section Idempotence.

Import FaissIndexManager.

Variable env : Env.

Local Abbreviation scanFiles name :=
  (foldM (fun (_ : bool) filePath =>
            processFile env (knowledgeBasePathOf env name) filePath ;; ret true)).

Lemma settled_quiet kbPath f w :
  settled env kbPath f w ->
  exists evs,
    processFile env kbPath f w = (Ok tt, set_trace (trace w ++ evs) w)
    /\ Forall quiet evs.
Proof.
  intros (bytes & Hb & Hh & Hd & Hcases).
  assert (Hsha : calculateSHA256 env f w = (Ok (sha256hex env bytes), w)).
  { unfold calculateSHA256. go. reflexivity. }
  unfold processFile. rewrite bind_eq, Hsha.
  rewrite bind_eq. cbn [gets]. rewrite (bool_decide_eq_true_2 _ Hd).
  rewrite bind_eq. cbn [negb when ret].
  rewrite bind_eq. cbn [gets].
  case_bool_decide as Hstored.
  { exists []. rewrite set_trace_same. split; [reflexivity | constructor]. }
  destruct Hcases as [Hok | Hcases]; [contradiction |].
  rewrite bind_eq, readText_outcome, Hb.
  destruct (fault env (ReadText f)) eqn:Hread.
  { exists [EvReadText f; EvLog (LogReadFailed f)].
    split; [| repeat constructor].
    unfold logLine, emit, modify. cbn. rewrite <- app_assoc. reflexivity. }
  destruct Hcases as [? | (Hmd & Hsplit & Hnil)]; [discriminate |].
  rewrite bind_eq. unfold createDocuments. rewrite Hmd, Hsplit, Hnil. cbn.
  exists [EvReadText f]. split; [reflexivity | repeat constructor].
Qed.

Lemma scanFiles_quiet name files any w :
  (forall f, f ∈ files -> settled env (knowledgeBasePathOf env name) f w) ->
  exists evs,
    scanFiles name any files w
    = (Ok (match files with [] => any | _ :: _ => true end),
       set_trace (trace w ++ evs) w)
    /\ Forall quiet evs.
Proof.
  revert any w. induction files as [| f files IH]; intros any w Hall; cbn [foldM].
  - exists []. rewrite set_trace_same. split; [reflexivity | constructor].
  - destruct (settled_quiet _ f w (Hall f ltac:(left))) as (evs1 & Hrun1 & Hq1).
    rewrite !bind_eq, Hrun1. cbn [ret].
    destruct (IH true (set_trace (trace w ++ evs1) w)) as (evs2 & Hrun2 & Hq2).
    { intros f' Hf'. eapply settled_same; [..| apply Hall; right; exact Hf']; reflexivity. }
    exists (evs1 ++ evs2). split; [| apply Forall_app; auto].
    rewrite Hrun2. cbn. rewrite app_assoc. destruct files; reflexivity.
Qed.

Lemma mainLoop_quiet kbs any w :
  (forall name, name ∈ kbs -> Str.startsWithDot name = false ->
     forall f, f ∈ Utils.traverse (knowledgeBasePathOf env name) (kbDirs w !! name) ->
               settled env (knowledgeBasePathOf env name) f w) ->
  exists evs,
    foldM (scanKnowledgeBase env) any kbs w
    = (Ok (flagAfter env (kbDirs w) any kbs), set_trace (trace w ++ evs) w)
    /\ Forall quiet evs.
Proof.
  revert any w. induction kbs as [| name kbs IH]; intros any w Hall; cbn [foldM].
  - exists []. rewrite set_trace_same. split; [reflexivity | constructor].
  - assert (Hstep : exists evs1,
              scanKnowledgeBase env any name w
              = (Ok (if Str.startsWithDot name then any
                     else match Utils.traverse (knowledgeBasePathOf env name) (kbDirs w !! name) with
                          | [] => any
                          | _ :: _ => true
                          end),
                 set_trace (trace w ++ evs1) w)
              /\ Forall quiet evs1).
    { unfold scanKnowledgeBase. destruct (Str.startsWithDot name) eqn:Hdot.
      - exists []. rewrite set_trace_same. split; [reflexivity | constructor].
      - destruct (uniform_run (getFilesRecursively (knowledgeBasePathOf env name) name) w
                    (uniform_getFilesRecursively _ _)) as (r & evs0 & Hq0 & Hrun0).
        destruct (getFilesRecursively_outcome _ _ _ _ _ Hrun0) as [-> _].
        rewrite bind_eq, Hrun0.
        destruct (scanFiles_quiet name (Utils.traverse (knowledgeBasePathOf env name) (kbDirs w !! name)) any
                    (set_trace (trace w ++ evs0) w)) as (evs1 & Hrun1 & Hq1).
        { intros f Hf. eapply settled_same; [..| apply (Hall name); auto; left];
            reflexivity. }
        exists (evs0 ++ evs1). split; [| apply Forall_app; auto].
        rewrite Hrun1. cbn. rewrite app_assoc. reflexivity. }
    destruct Hstep as (evs1 & Hrun1 & Hq1). rewrite bind_eq, Hrun1.
    destruct (IH (if Str.startsWithDot name then any
                  else match Utils.traverse (knowledgeBasePathOf env name) (kbDirs w !! name) with
                       | [] => any
                       | _ :: _ => true
                       end)
                 (set_trace (trace w ++ evs1) w)) as (evs2 & Hrun2 & Hq2).
    { intros name' Hin Hdot f Hf. eapply settled_same; [..| apply (Hall name'); auto; right; exact Hin];
        reflexivity. }
    exists (evs1 ++ evs2). split; [| apply Forall_app; auto].
    rewrite Hrun2. cbn. rewrite app_assoc. reflexivity.
Qed.

Lemma scanFiles_flag name files any w any' w' :
  scanFiles name any files w = (Ok any', w') ->
  any' = match files with [] => any | _ :: _ => true end.
Proof.
  revert any w. induction files as [| f files IH]; intros any w; cbn [foldM].
  - intros [= <- <-]. reflexivity.
  - rewrite !bind_eq.
    destruct (processFile env _ f w) as [[[] | e] w1]; [| discriminate].
    cbn [ret]. intros Hrest. rewrite (IH _ _ Hrest). destruct files; reflexivity.
Qed.

Lemma mainLoop_flag kbs any w any' w' :
  foldM (scanKnowledgeBase env) any kbs w = (Ok any', w') ->
  any' = flagAfter env (kbDirs w) any kbs.
Proof.
  revert any w. induction kbs as [| name kbs IH]; intros any w; cbn [foldM].
  - intros [= <- <-]. reflexivity.
  - rewrite bind_eq.
    destruct (scanKnowledgeBase env any name w) as [[any1 | e] w1] eqn:Hstep;
      [| discriminate].
    destruct (scanKnowledgeBase_grows env any name _ _ _ Logic.I Hstep)
      as ((_ & Hkb & _) & _).
    intros Hrest. rewrite (IH _ _ Hrest), Hkb. unfold flagAfter. cbn [fold_left].
    f_equal. revert Hstep. unfold scanKnowledgeBase.
    destruct (Str.startsWithDot name); [intros [= <- _]; reflexivity |].
    rewrite bind_eq.
    destruct (getFilesRecursively _ name w) as [r w0] eqn:Hscan.
    apply getFilesRecursively_outcome in Hscan as [-> _].
    apply scanFiles_flag.
Qed.

Lemma rethrowing_ok {A} (m : M A) (h : Error -> M unit) w a w' :
  rethrowing m h w = (Ok a, w') <-> m w = (Ok a, w').
Proof.
  unfold rethrowing. destruct (m w) as [[a0 | e] w0]; [reflexivity |].
  destruct (h e w0) as [[u | e'] w2]; split; discriminate.
Qed.

Lemma unchanged_file_is_skipped kbPath f bytes w :
  files w !! f = Some bytes ->
  fault env (HashFile f) = false ->
  indexDirPathOf kbPath f ∈ indexDirs w ->
  hashRecords w !! indexFilePathOf kbPath f = Some (sha256hex env bytes) ->
  processFile env kbPath f w = (Ok tt, w).
Proof.
  intros Hb Hh Hd Hstored.
  assert (Hsha : calculateSHA256 env f w = (Ok (sha256hex env bytes), w)).
  { unfold calculateSHA256. go. reflexivity. }
  unfold processFile. rewrite bind_eq, Hsha.
  rewrite bind_eq. cbn [gets]. rewrite (bool_decide_eq_true_2 _ Hd).
  rewrite bind_eq. cbn [negb when ret].
  rewrite bind_eq. cbn [gets].
  rewrite (bool_decide_eq_true_2 _ Hstored). reflexivity.
Qed.

Lemma rebuild_outcome kbs wm w1 :
  rebuild env kbs wm = (Ok tt, w1) ->
  (rootDir w1 = rootDir wm /\ kbDirs w1 = kbDirs wm /\ files w1 = files wm
   /\ indexDirs w1 = indexDirs wm /\ hashRecords w1 = hashRecords wm)
  /\ (faissIndex w1 = None ->
      exists evs,
        Forall quiet evs
        /\ w1 = set_trace (trace wm ++ evs) wm
        /\ forall t, rebuild env kbs (set_trace t wm) = (Ok tt, set_trace (t ++ evs) wm)).
Proof.
  unfold rebuild.
  destruct (uniform_collectAll env [] kbs wm) as (r & evs & Hq & Hcollect).
  pose proof (Hcollect (trace wm)) as Hfirst. rewrite set_trace_id in Hfirst.
  rewrite bind_eq, Hfirst. destruct r as [docs | e]; [| discriminate].
  destruct docs as [| d docs].
  - intros [= <-]. split; [cbn; auto 10 |].
    intros _. exists evs. split; [exact Hq |]. split; [reflexivity |].
    intros t. rewrite bind_eq, Hcollect. reflexivity.
  - intros Hbuild.
    destruct (buildFromAll_outcome env _ _ _ _ Hbuild)
      as (Hroot & Hkb & Hfiles & Hdirs & Hrec & _ & [(Herr & _) | (_ & Hsome & _)]);
      [discriminate |].
    split; [auto 10 |]. intros Hnone. rewrite Hnone in Hsome. destruct Hsome; discriminate.
Qed.

(** C5. When [updateIndex] has returned normally, calling it again on the
    world it left, with the same argument, returns normally and changes
    nothing but the trace, to which it adds no embedding call, no save and no
    hash write.  In the scan itself, a file whose hash record holds the
    digest of its bytes is passed over: the world is left exactly as it was,
    so its content is not read, nothing is embedded and the store is not
    saved. *)
Theorem updateIndex_twice (kb : option string) (w w1 : World) :
  updateIndex env kb w = (Ok tt, w1) ->
  (exists evs,
     updateIndex env kb w1 = (Ok tt, set_trace (trace w1 ++ evs) w1)
     /\ Forall quiet evs)
  /\ (forall kbPath f bytes w0,
        files w0 !! f = Some bytes ->
        fault env (HashFile f) = false ->
        indexDirPathOf kbPath f ∈ indexDirs w0 ->
        hashRecords w0 !! indexFilePathOf kbPath f = Some (sha256hex env bytes) ->
        processFile env kbPath f w0 = (Ok tt, w0)).
Proof.
  intros Hrun. split; [| intros; eapply unchanged_file_is_skipped; eauto].
  unfold updateIndex in *. apply rethrowing_ok in Hrun.
  (* the knowledge bases scanned are the same in both runs *)
  assert (Hchoose : exists kbs,
            forall w2, rootDir w2 = rootDir w ->
              match Config.truthy kb with
              | Some name => ret [name]
              | None => readdirRoot
              end w2 = (Ok kbs, w2)).
  { destruct (Config.truthy kb) as [name |]; [exists [name]; reflexivity |].
    revert Hrun. rewrite bind_eq. unfold readdirRoot at 1. rewrite bind_eq. cbn [gets].
    destruct (rootDir w) as [names |] eqn:Hroot; [| discriminate].
    intros _. exists names. intros w2 Hw2. unfold readdirRoot. rewrite bind_eq.
    cbn [gets]. rewrite Hw2. reflexivity. }
  destruct Hchoose as (kbs & Hchoose).
  rewrite bind_eq, (Hchoose w eq_refl), bind_eq in Hrun.
  destruct (foldM (scanKnowledgeBase env) false kbs w) as [[any | e] wm] eqn:Hmain;
    [| discriminate].
  rewrite bind_eq in Hrun. cbn [gets] in Hrun.
  pose proof (mainLoop_grows env false kbs _ _ _ Logic.I Hmain)
    as ((Hroot & Hkb & Hfiles) & _ & _).
  pose proof (mainLoop_settles env _ _ _ _ _ Hmain) as Hsettled.
  pose proof (mainLoop_flag _ _ _ _ _ Hmain) as Hflag.
  (* the fallback keeps what the scan reads *)
  assert (Hafter : (rootDir w1 = rootDir wm /\ kbDirs w1 = kbDirs wm /\ files w1 = files wm
                    /\ indexDirs w1 = indexDirs wm /\ hashRecords w1 = hashRecords wm)
                   /\ (faissIndex w1 = None -> any = true ->
                       exists evs,
                         Forall quiet evs
                         /\ w1 = set_trace (trace wm ++ evs) wm
                         /\ forall t, rebuild env kbs (set_trace t wm)
                                      = (Ok tt, set_trace (t ++ evs) wm))).
  { destruct (bool_decide (faissIndex wm = None) && any) eqn:Hcond; cbn [when] in Hrun.
    - destruct (rebuild_outcome _ _ _ Hrun) as [Hsame Hnone]. split; auto.
    - injection Hrun as <-. split; [auto 10 |]. intros Hnone ->.
      rewrite (bool_decide_eq_true_2 _ Hnone) in Hcond. discriminate. }
  destruct Hafter as ((Hroot1 & Hkb1 & Hfiles1 & Hdirs1 & Hrec1) & Hfallback).
  (* the second scan *)
  destruct (mainLoop_quiet kbs false w1) as (evs2 & Hmain2 & Hq2).
  { intros name Hin Hdot f Hf. rewrite Hkb1, Hkb in Hf.
    eapply settled_same; [exact Hfiles1 | rewrite Hdirs1; reflexivity | exact Hrec1 |].
    eapply Hsettled; eauto. }
  rewrite Hkb1, Hkb, <- Hflag in Hmain2.
  assert (Hinner : forall final,
            when (bool_decide (faissIndex w1 = None) && any) (rebuild env kbs)
              (set_trace (trace w1 ++ evs2) w1) = (Ok tt, final) ->
            rethrowing
              (knowledgeBases <-
                 match Config.truthy kb with
                 | Some name => ret [name]
                 | None => readdirRoot
                 end ;;
               anyFileProcessed <- foldM (scanKnowledgeBase env) false knowledgeBases ;;
               handle <- gets faissIndex ;;
               when (bool_decide (handle = None) && anyFileProcessed)
                 (rebuild env knowledgeBases))
              logUnlessLogged w1 = (Ok tt, final)).
  { intros final Hfinal. apply rethrowing_ok.
    rewrite bind_eq, (Hchoose w1) by congruence.
    rewrite bind_eq, Hmain2, bind_eq. cbn [gets]. exact Hfinal. }
  destruct (bool_decide (faissIndex w1 = None) && any) eqn:Hcond2.
  - apply andb_true_iff in Hcond2 as [Hnone%bool_decide_eq_true ->].
    destruct (Hfallback Hnone eq_refl) as (evs & Hq & Hw1 & Hrebuild).
    exists (evs2 ++ evs). split; [| apply Forall_app; auto].
    apply Hinner. cbn [when]. clear Hinner Hmain2. subst w1.
    etransitivity; [exact (Hrebuild ((trace wm ++ evs) ++ evs2)) |].
    unfold set_trace. cbn. rewrite <- !app_assoc. reflexivity.
  - exists evs2. split; [| exact Hq2]. apply Hinner. reflexivity.
Qed.

End Idempotence.

Lemma updateIndex_twice_witness :
  let env := Fixtures.plainEnv Fixtures.noFault in
  let w1 := (FaissIndexManager.updateIndex env None Fixtures.twoFileWorld).2 in
  (exists evs,
     FaissIndexManager.updateIndex env None w1 = (Ok tt, set_trace (trace w1 ++ evs) w1)
     /\ Forall quiet evs)
  /\ (forall kbPath f bytes w0,
        files w0 !! f = Some bytes ->
        fault env (HashFile f) = false ->
        FaissIndexManager.indexDirPathOf kbPath f ∈ indexDirs w0 ->
        hashRecords w0 !! FaissIndexManager.indexFilePathOf kbPath f
        = Some (sha256hex env bytes) ->
        FaissIndexManager.processFile env kbPath f w0 = (Ok tt, w0)).
Proof.
  intros env w1.
  apply (updateIndex_twice env None Fixtures.twoFileWorld w1).
  vm_compute. reflexivity.
Defined.

Section StoreOutcomes.

Import FaissIndexManager.

Variable env : Env.

Lemma indexDocuments_store f rp h docs w r w' :
  indexDocuments env f rp h docs w = (r, w') ->
  (faissIndex w' = faissIndex w
   \/ faissIndex w' = Some (default [] (faissIndex w) ++ docs))
  /\ (isOk r = true ->
      faissIndex w' = Some (default [] (faissIndex w) ++ docs)
      /\ storeFile w' = faissIndex w').
Proof.
  unfold indexDocuments, addToIndex, saveIndex, writeHashRecord, handleFsOperationError.
  go.
  destruct (fault env (Embed f)); go; [intros [= <- <-]; cbn; split; [auto | discriminate] |].
  destruct (fault env (SaveStore f)); go; [intros [= <- <-]; cbn; split; [auto | discriminate] |].
  destruct (fault env (WriteHash rp)); go; intros [= <- <-]; cbn; split; auto; discriminate.
Qed.

Lemma buildFromAll_store docs w r w' :
  buildFromAll env docs w = (r, w') ->
  (faissIndex w' = faissIndex w
   \/ faissIndex w' = Some (default [] (faissIndex w) ++ docs))
  /\ (isOk r = true ->
      faissIndex w' = Some (default [] (faissIndex w) ++ docs)
      /\ storeFile w' = faissIndex w').
Proof.
  unfold buildFromAll, addToIndex, saveIndex, handleFsOperationError.
  go.
  destruct (fault env RebuildEmbed); go; [intros [= <- <-]; cbn; split; [auto | discriminate] |].
  destruct (fault env RebuildSave); go; intros [= <- <-]; cbn; split; auto; discriminate.
Qed.

Lemma appendsOnly_refl S w : appendsOnly S w true w.
Proof. left. reflexivity. Qed.

Lemma appendsOnly_trans S w1 w2 w3 ok :
  appendsOnly S w1 true w2 -> appendsOnly S w2 ok w3 -> appendsOnly S w1 ok w3.
Proof.
  intros [H12 | (a1 & Hs1 & H12)] [H23 | (a2 & Hs2 & H23)].
  - left. congruence.
  - right. exists a2. rewrite H23, H12. auto.
  - right. exists a1. rewrite H23, H12. auto.
  - right. exists (a1 ++ a2). split; [apply Forall_app; auto |].
    rewrite H23, H12. cbn. rewrite app_assoc. reflexivity.
Qed.

Lemma updateIndex_appendsOnly kb :
  sat always (appendsOnly (visible env)) (updateIndex env kb).
Proof.
  apply sat_updateIndex.
  - apply appendsOnly_refl.
  - apply appendsOnly_trans.
  - intros w ok w' Hcalm. left. apply (calm_fields _ _ _ Hcalm).
  - intros name rel bytes docs w r w' Hne Hvis _ Hsrc Hrun.
    destruct (indexDocuments_store _ _ _ _ _ _ _ Hrun) as [[Hsame | Happ] _];
      [left; exact Hsame | right].
    exists docs. split; [| exact Happ].
    eapply Forall_impl; [exact Hsrc |]. intros d <-. exists name, rel. auto.
  - intros docs w r w' Hsrc Hrun.
    destruct (buildFromAll_store _ _ _ _ Hrun) as [[Hsame | Happ] _];
      [left; exact Hsame | right; eauto].
  - intros w w0 l H. exact H.
Qed.

Lemma savedOrUntouched_trans w1 w2 w3 ok :
  savedOrUntouched w1 true w2 -> savedOrUntouched w2 ok w3 -> savedOrUntouched w1 ok w3.
Proof.
  intros H12 H23 Hok. destruct (H12 eq_refl) as [[Hs Hi] | Hsaved];
    destruct (H23 Hok) as [[Hs' Hi'] | Hsaved']; auto.
  - left. split; congruence.
  - right. rewrite Hs', Hi'. exact Hsaved.
Qed.

Lemma updateIndex_savedOrUntouched kb :
  sat always savedOrUntouched (updateIndex env kb).
Proof.
  apply sat_updateIndex.
  - intros w _. left. auto.
  - apply savedOrUntouched_trans.
  - intros w ok w' Hcalm _. left.
    destruct (calm_fields _ _ _ Hcalm) as (_ & _ & _ & _ & Hi & Hs). auto.
  - intros name rel bytes docs w r w' _ _ _ _ Hrun Hok.
    destruct (indexDocuments_store _ _ _ _ _ _ _ Hrun) as [_ Hdone].
    destruct (Hdone Hok) as [Hi Hs]. right. split; [rewrite Hi; eauto | exact Hs].
  - intros docs w r w' _ Hrun Hok.
    destruct (buildFromAll_store _ _ _ _ Hrun) as [_ Hdone].
    destruct (Hdone Hok) as [Hi Hs]. right. split; [rewrite Hi; eauto | exact Hs].
  - intros w w0 l _ [=].
Qed.

(** X1. [updateIndex] never removes a document from the in-memory store and
    never drops the handle: whatever its argument and however it ends, the
    store afterwards is the store before followed by the documents added,
    and each added document has as source a file under a knowledge base of
    the root, along names none of which starts with a dot. *)
Theorem updateIndex_only_appends (kb : option string) (w : World) :
  let w' := (updateIndex env kb w).2 in
  exists added,
    default [] (faissIndex w') = default [] (faissIndex w) ++ added
    /\ sourcedIn (visible env) added
    /\ (faissIndex w' = None -> faissIndex w = None /\ added = []).
Proof.
  destruct (updateIndex env kb w) as [r w'] eqn:Hrun. cbn.
  destruct (updateIndex_appendsOnly kb _ _ _ Logic.I Hrun) as [Hsame | (added & Hsrc & Happ)].
  - exists []. rewrite Hsame, app_nil_r. split; [reflexivity |].
    split; [constructor | auto].
  - exists added. rewrite Happ. split; [reflexivity |]. split; [exact Hsrc | discriminate].
Qed.

(** X2. When [updateIndex] returns normally, either it has touched neither
    the store on disk nor the handle, or the store on disk is exactly the
    store the handle holds: what was added in memory has been saved. *)
Theorem updateIndex_saves_what_it_adds (kb : option string) (w w' : World) :
  updateIndex env kb w = (Ok tt, w') ->
  (storeFile w' = storeFile w /\ faissIndex w' = faissIndex w)
  \/ (is_Some (faissIndex w') /\ storeFile w' = faissIndex w').
Proof.
  intros Hrun. exact (updateIndex_savedOrUntouched kb _ _ _ Logic.I Hrun eq_refl).
Qed.

End StoreOutcomes.

Lemma updateIndex_saves_what_it_adds_witness :
  let env := Fixtures.plainEnv Fixtures.noFault in
  let w' := (FaissIndexManager.updateIndex env None Fixtures.twoFileWorld).2 in
  (storeFile w' = storeFile Fixtures.twoFileWorld
   /\ faissIndex w' = faissIndex Fixtures.twoFileWorld)
  \/ (is_Some (faissIndex w') /\ storeFile w' = faissIndex w').
Proof.
  intros env w'.
  apply (updateIndex_saves_what_it_adds env None Fixtures.twoFileWorld w').
  vm_compute. reflexivity.
Defined.

Section AfterSuccess.

Import FaissIndexManager.

Variable env : Env.

Lemma updateIndex_ok_inv kb w w' :
  updateIndex env kb w = (Ok tt, w') ->
  (Config.truthy kb = None -> is_Some (rootDir w))
  /\ exists any wm,
       foldM (scanKnowledgeBase env) false (knowledgeBasesOf kb w) w = (Ok any, wm)
       /\ when (bool_decide (faissIndex wm = None) && any)
            (rebuild env (knowledgeBasesOf kb w)) wm = (Ok tt, w').
Proof.
  unfold updateIndex, knowledgeBasesOf. intros Hrun%rethrowing_ok. revert Hrun.
  rewrite bind_eq.
  destruct (Config.truthy kb) as [name |].
  - cbn [ret]. rewrite bind_eq.
    destruct (foldM _ false [name] w) as [[any | e] wm] eqn:Hmain; [| discriminate].
    rewrite bind_eq. cbn [gets]. intros Hrest. split; [discriminate | eauto].
  - unfold readdirRoot. rewrite bind_eq. cbn [gets].
    destruct (rootDir w) as [names |]; [| discriminate].
    change (default [] (Some names)) with names. cbn [ret]. rewrite bind_eq.
    destruct (foldM _ false names w) as [[any | e] wm] eqn:Hmain; [| discriminate].
    rewrite bind_eq. cbn [gets]. intros Hrest. split; eauto.
Qed.

Lemma updateIndex_ok_intro kb w any wm w' :
  (Config.truthy kb = None -> is_Some (rootDir w)) ->
  foldM (scanKnowledgeBase env) false (knowledgeBasesOf kb w) w = (Ok any, wm) ->
  when (bool_decide (faissIndex wm = None) && any)
    (rebuild env (knowledgeBasesOf kb w)) wm = (Ok tt, w') ->
  updateIndex env kb w = (Ok tt, w').
Proof.
  unfold updateIndex, knowledgeBasesOf. intros Hroot Hmain Hrest. apply rethrowing_ok.
  rewrite bind_eq. destruct (Config.truthy kb) as [name |].
  - cbn [ret]. rewrite bind_eq, Hmain, bind_eq. exact Hrest.
  - destruct (Hroot eq_refl) as [names Hnames]. unfold readdirRoot.
    rewrite bind_eq. cbn [gets]. rewrite Hnames in *.
    change (default [] (Some names)) with names in *. cbn [ret].
    rewrite bind_eq, Hmain, bind_eq. exact Hrest.
Qed.

Lemma fallback_keeps kbs c wm w' :
  when c (rebuild env kbs) wm = (Ok tt, w') ->
  kbDirs w' = kbDirs wm /\ files w' = files wm
  /\ indexDirs w' = indexDirs wm /\ hashRecords w' = hashRecords wm.
Proof.
  destruct c; cbn [when].
  - intros Hrun. destruct (rebuild_outcome _ _ _ _ Hrun) as [(_ & ? & ? & ? & ?) _]. auto.
  - intros [= <-]. auto.
Qed.

Lemma updateIndex_settles kb w w' :
  updateIndex env kb w = (Ok tt, w') ->
  forall name, name ∈ knowledgeBasesOf kb w -> Str.startsWithDot name = false ->
  forall f, f ∈ Utils.traverse (knowledgeBasePathOf env name) (kbDirs w !! name) ->
            settled env (knowledgeBasePathOf env name) f w'.
Proof.
  intros Hrun name Hname Hdot f Hf.
  destruct (updateIndex_ok_inv _ _ _ Hrun) as (_ & any & wm & Hmain & Hrest).
  destruct (fallback_keeps _ _ _ _ Hrest) as (_ & Hfiles & Hdirs & Hrec).
  eapply settled_same; [exact Hfiles | rewrite Hdirs; reflexivity | exact Hrec |].
  eapply mainLoop_settles; eauto.
Qed.

(** X3. When [updateIndex] returns normally, every file that the scan
    returns for a knowledge base it went through is up to date: its bytes can
    be hashed, its metadata directory exists, and its hash record holds the
    digest of its bytes, unless its text cannot be read or it is markdown
    that splits into no chunk.  The knowledge-base tree itself is as it
    was. *)
Theorem updateIndex_brings_up_to_date (kb : option string) (w w' : World) :
  updateIndex env kb w = (Ok tt, w') ->
  kbDirs w' = kbDirs w /\ files w' = files w
  /\ forall name,
       name ∈ knowledgeBasesOf kb w -> Str.startsWithDot name = false ->
       forall f, f ∈ Utils.traverse (knowledgeBasePathOf env name) (kbDirs w !! name) ->
                 settled env (knowledgeBasePathOf env name) f w'.
Proof.
  intros Hrun.
  destruct (updateIndex_keepsTree env _ _ _ _ Logic.I Hrun) as (_ & Hkb & Hfiles).
  split; [exact Hkb |]. split; [exact Hfiles |].
  apply updateIndex_settles. exact Hrun.
Qed.

(** *** Without faults the scan goes through *)

Lemma foldM_succeeds {A B} (I : World -> Prop) (f : B -> A -> M B) (l : list A) :
  (forall b x w, x ∈ l -> I w -> exists b' w', f b x w = (Ok b', w') /\ I w') ->
  forall b w, I w -> exists b' w', foldM f b l w = (Ok b', w') /\ I w'.
Proof.
  induction l as [| x l IH]; intros Hf b w Hw; cbn [foldM].
  - exists b, w. auto.
  - destruct (Hf b x w ltac:(left) Hw) as (b1 & w1 & Hstep & Hw1).
    rewrite bind_eq, Hstep. apply IH; [| exact Hw1].
    intros b0 y w0 Hy. apply Hf. right. exact Hy.
Qed.

Hypothesis no_fault : forall op, fault env op = false.

Lemma processFile_succeeds kbPath f w :
  is_Some (files w !! f) -> exists w', processFile env kbPath f w = (Ok tt, w').
Proof.
  intros [bytes Hb].
  unfold processFile, calculateSHA256, mkdirIndexDir, readText, createDocuments,
    indexDocuments, addToIndex, saveIndex, writeHashRecord.
  go. rewrite !no_fault. go.
  destruct (bool_decide (indexDirPathOf kbPath f ∈ indexDirs w)); go;
    rewrite ?no_fault; go;
    (destruct (bool_decide (_ = Some (sha256hex env bytes))); go; [eauto |]);
    rewrite ?Hb; go;
    (destruct (isMarkdown f); go;
     [destruct (map _ (splitMarkdown env bytes)); go; eauto |]); eauto.
Qed.

Lemma scanKnowledgeBase_succeeds (w0 : World) any name w :
  (forall n f, f ∈ Utils.traverse (knowledgeBasePathOf env n) (kbDirs w0 !! n) ->
               is_Some (files w0 !! f)) ->
  files w = files w0 /\ kbDirs w = kbDirs w0 ->
  exists any' w',
    scanKnowledgeBase env any name w = (Ok any', w')
    /\ (files w' = files w0 /\ kbDirs w' = kbDirs w0).
Proof.
  intros Hpresent [Hfiles Hkb]. unfold scanKnowledgeBase.
  destruct (Str.startsWithDot name); [exists any, w; auto |].
  rewrite bind_eq.
  destruct (getFilesRecursively (knowledgeBasePathOf env name) name w) as [r w1] eqn:Hscan.
  destruct (getFilesRecursively_outcome _ _ _ _ _ Hscan) as [-> Hcalm].
  destruct (calm_fields _ _ _ Hcalm) as (_ & Hkb1 & Hfiles1 & _).
  apply (foldM_succeeds (fun w2 => files w2 = files w0 /\ kbDirs w2 = kbDirs w0));
    [| split; congruence].
  intros b f w2 Hf [Hfiles2 Hkb2]. rewrite Hkb in Hf.
  destruct (processFile_succeeds (knowledgeBasePathOf env name) f w2) as [w3 Hstep].
  { rewrite Hfiles2. eapply Hpresent, Hf. }
  exists true, w3. rewrite bind_eq, Hstep. split; [reflexivity |].
  destruct (processFile_grows env name f (traverse_below _ _ _ Hf) _ _ _ Logic.I Hstep)
    as ((_ & Hkb3 & Hfiles3) & _).
  split; congruence.
Qed.

Lemma collectFile_succeeds acc f w :
  exists docs w', collectFile env acc f w = (Ok docs, w').
Proof.
  unfold collectFile, readText, createDocuments. go. rewrite !no_fault. go.
  destruct (files w !! f); go; [| eauto].
  destruct (isMarkdown f); go; eauto.
Qed.

Lemma collectAll_succeeds acc kbs w :
  exists docs w', foldM (collectKnowledgeBase env) acc kbs w = (Ok docs, w').
Proof.
  destruct (foldM_succeeds (fun _ => True) (collectKnowledgeBase env) kbs) with (b := acc) (w := w)
    as (docs & w' & Hrun & _); [| exact Logic.I | eauto].
  intros b name w0 _ _. unfold collectKnowledgeBase.
  destruct (Str.startsWithDot name); [exists b, w0; auto |].
  rewrite bind_eq.
  destruct (getFilesRecursively (knowledgeBasePathOf env name) name w0) as [r w1] eqn:Hscan.
  destruct (getFilesRecursively_outcome _ _ _ _ _ Hscan) as [-> _].
  destruct (foldM_succeeds (fun _ => True) (collectFile env)
              (Utils.traverse (knowledgeBasePathOf env name) (kbDirs w0 !! name)))
    with (b := b) (w := w1) as (docs & w2 & Hrun & _); [| exact Logic.I | eauto].
  intros b0 f w2 _ _. destruct (collectFile_succeeds b0 f w2) as (docs & w3 & Hstep). eauto.
Qed.

Lemma rebuild_succeeds kbs w : exists w', rebuild env kbs w = (Ok tt, w').
Proof.
  unfold rebuild. destruct (collectAll_succeeds [] kbs w) as (docs & w1 & Hrun).
  rewrite bind_eq, Hrun. destruct docs as [| d docs]; [eexists; reflexivity |].
  unfold buildFromAll, addToIndex, saveIndex. go. rewrite !no_fault. go. eauto.
Qed.

(** X4. [updateIndex] fails only when an operation fails: with no
    operation refused, the root readable when no knowledge base is named, and
    every file the scan lists present, it returns normally. *)
Theorem updateIndex_succeeds_without_faults (kb : option string) (w : World) :
  (Config.truthy kb = None -> is_Some (rootDir w)) ->
  (forall name f,
     f ∈ Utils.traverse (knowledgeBasePathOf env name) (kbDirs w !! name) ->
     is_Some (files w !! f)) ->
  exists w', updateIndex env kb w = (Ok tt, w').
Proof.
  intros Hroot Hpresent.
  destruct (foldM_succeeds (fun w0 => files w0 = files w /\ kbDirs w0 = kbDirs w)
              (scanKnowledgeBase env) (knowledgeBasesOf kb w))
    with (b := false) (w := w) as (any & wm & Hmain & _); [| auto |].
  { intros b name w0 _ Hw0. apply scanKnowledgeBase_succeeds; assumption. }
  destruct (bool_decide (faissIndex wm = None) && any) eqn:Hcond.
  - destruct (rebuild_succeeds (knowledgeBasesOf kb w) wm) as [w' Hrebuild].
    exists w'. eapply updateIndex_ok_intro; eauto. rewrite Hcond. exact Hrebuild.
  - exists wm. eapply updateIndex_ok_intro; eauto. rewrite Hcond. reflexivity.
Qed.

End AfterSuccess.

Lemma updateIndex_brings_up_to_date_witness :
  let env := Fixtures.plainEnv Fixtures.noFault in
  let w' := (FaissIndexManager.updateIndex env None Fixtures.twoFileWorld).2 in
  settled env (FaissIndexManager.knowledgeBasePathOf env "kb1")
    (Fixtures.kb1Path ++ ["a.md"]) w'.
Proof.
  intros env w'.
  refine (proj2 (proj2 (updateIndex_brings_up_to_date env None Fixtures.twoFileWorld w' _))
            "kb1" _ _ (Fixtures.kb1Path ++ ["a.md"]) _).
  - vm_compute. reflexivity.
  - left.
  - reflexivity.
  - left.
Defined.

Lemma updateIndex_succeeds_without_faults_witness :
  exists w',
    FaissIndexManager.updateIndex (Fixtures.plainEnv Fixtures.noFault) None
      Fixtures.twoFileWorld = (Ok tt, w').
Proof.
  apply (updateIndex_succeeds_without_faults (Fixtures.plainEnv Fixtures.noFault)).
  - intros op. reflexivity.
  - intros _. eexists. reflexivity.
  - intros name f. destruct (decide (name = "kb1")) as [-> | Hother].
    + intros Hf. apply elem_of_cons in Hf as [-> | Hf]; [eexists; reflexivity |].
      apply elem_of_cons in Hf as [-> | Hf]; [eexists; reflexivity | inversion Hf].
    + cbn. rewrite lookup_singleton_ne by congruence. inversion 1.
Defined.

Section Rebuild.

Import FaissIndexManager.

Variable env : Env.

Lemma documentsOf_same w w' f :
  files w' = files w -> documentsOf env w' f = documentsOf env w f.
Proof. unfold documentsOf. intros ->. reflexivity. Qed.

Lemma allDocumentsOf_same w w' kbs :
  files w' = files w -> kbDirs w' = kbDirs w ->
  allDocumentsOf env w' kbs = allDocumentsOf env w kbs.
Proof.
  intros Hfiles Hkb. unfold allDocumentsOf, documentsOf. rewrite Hfiles, Hkb. reflexivity.
Qed.

Lemma collectFile_exact acc f w docs w' :
  collectFile env acc f w = (Ok docs, w') -> docs = acc ++ documentsOf env w f.
Proof.
  unfold collectFile, documentsOf. rewrite bind_eq, readText_outcome.
  destruct (fault env (ReadText f)).
  - rewrite bind_eq. cbn. intros [= <- _]. rewrite app_nil_r. reflexivity.
  - destruct (files w !! f) as [content |].
    + rewrite bind_eq. unfold createDocuments.
      destruct (isMarkdown f); [destruct (fault env (SplitText f)) |]; cbn;
        [discriminate | |]; intros [= <- _]; reflexivity.
    + rewrite bind_eq. cbn. intros [= <- _]. rewrite app_nil_r. reflexivity.
Qed.

Lemma collectFiles_exact fs acc w docs w' :
  foldM (collectFile env) acc fs w = (Ok docs, w') ->
  docs = acc ++ flat_map (documentsOf env w) fs.
Proof.
  revert acc w. induction fs as [| f fs IH]; intros acc w; cbn [foldM flat_map].
  - intros [= <- _]. rewrite app_nil_r. reflexivity.
  - rewrite bind_eq.
    destruct (collectFile env acc f w) as [[docs1 | e] w1] eqn:Hstep; [| discriminate].
    pose proof (sat_calm_collectFile env acc f _ _ _ Logic.I Hstep) as Hcalm.
    destruct (calm_fields _ _ _ Hcalm) as (_ & _ & Hfiles & _).
    apply collectFile_exact in Hstep as ->.
    intros Hrest. rewrite (IH _ _ Hrest), <- app_assoc. f_equal. f_equal.
    apply flat_map_ext. intros f'. apply documentsOf_same, Hfiles.
Qed.

Lemma collectAll_exact kbs acc w docs w' :
  foldM (collectKnowledgeBase env) acc kbs w = (Ok docs, w') ->
  docs = acc ++ allDocumentsOf env w kbs.
Proof.
  revert acc w. induction kbs as [| name kbs IH]; intros acc w;
    cbn [foldM allDocumentsOf flat_map].
  - intros [= <- _]. rewrite app_nil_r. reflexivity.
  - rewrite bind_eq.
    destruct (collectKnowledgeBase env acc name w) as [[docs1 | e] w1] eqn:Hstep;
      [| discriminate].
    pose proof (sat_calm_collectKnowledgeBase env acc name _ _ _ Logic.I Hstep) as Hcalm.
    destruct (calm_fields _ _ _ Hcalm) as (_ & Hkb & Hfiles & _).
    intros Hrest. rewrite (IH _ _ Hrest). fold (allDocumentsOf env w kbs).
    rewrite (allDocumentsOf_same _ _ _ Hfiles Hkb), app_assoc. f_equal.
    revert Hstep. unfold collectKnowledgeBase.
    destruct (Str.startsWithDot name).
    + intros [= <- _]. rewrite app_nil_r. reflexivity.
    + rewrite bind_eq.
      destruct (getFilesRecursively (knowledgeBasePathOf env name) name w) as [r w0] eqn:Hscan.
      destruct (getFilesRecursively_outcome _ _ _ _ _ Hscan) as [-> Hcalm0].
      destruct (calm_fields _ _ _ Hcalm0) as (_ & _ & Hfiles0 & _).
      intros Hcollect%collectFiles_exact. rewrite Hcollect. f_equal.
      apply flat_map_ext. intros f. apply documentsOf_same, Hfiles0.
Qed.

Lemma flagAfter_true K kbs : flagAfter env K true kbs = true.
Proof.
  unfold flagAfter. induction kbs as [| name kbs IH]; cbn [fold_left]; [reflexivity |].
  destruct (Str.startsWithDot name); [exact IH |].
  destruct (Utils.traverse _ _); exact IH.
Qed.

Lemma unflagged_no_documents w kbs :
  flagAfter env (kbDirs w) false kbs = false -> allDocumentsOf env w kbs = [].
Proof.
  unfold flagAfter, allDocumentsOf.
  induction kbs as [| name kbs IH]; cbn [fold_left flat_map]; [reflexivity |].
  destruct (Str.startsWithDot name); [exact IH |].
  destruct (Utils.traverse _ _) as [| f fs]; [exact IH |].
  intros Hflag. pose proof (flagAfter_true (kbDirs w) kbs) as Htrue.
  unfold flagAfter in Htrue. congruence.
Qed.

(** X5. The fallback of [updateIndex].  When the handle is null and every
    file of the knowledge bases gone through is up to date, a call that
    returns normally writes no hash record and leaves as store, in memory and
    on disk, exactly the documents of the files the scan returns for those
    knowledge bases, in scan order; when there is no such document, the
    handle stays null and the store on disk is not touched. *)
Theorem updateIndex_rebuilds_from_scanned_files (kb : option string) (w w' : World) :
  faissIndex w = None ->
  (forall name,
     name ∈ knowledgeBasesOf kb w -> Str.startsWithDot name = false ->
     forall f, f ∈ Utils.traverse (knowledgeBasePathOf env name) (kbDirs w !! name) ->
               settled env (knowledgeBasePathOf env name) f w) ->
  updateIndex env kb w = (Ok tt, w') ->
  hashRecords w' = hashRecords w
  /\ match allDocumentsOf env w (knowledgeBasesOf kb w) with
     | [] => faissIndex w' = None /\ storeFile w' = storeFile w
     | docs => faissIndex w' = Some docs /\ storeFile w' = Some docs
     end.
Proof.
  intros Hnull Hsettled Hrun.
  destruct (updateIndex_ok_inv _ _ _ _ Hrun) as (_ & any & wm & Hmain & Hrest).
  destruct (mainLoop_quiet env (knowledgeBasesOf kb w) false w Hsettled)
    as (evs & Hquiet & _).
  rewrite Hquiet in Hmain. injection Hmain as <- <-.
  cbn [faissIndex set_trace] in Hrest. rewrite Hnull in Hrest.
  rewrite (bool_decide_eq_true_2 _ eq_refl) in Hrest. cbn [andb] in Hrest.
  destruct (flagAfter env (kbDirs w) false (knowledgeBasesOf kb w)) eqn:Hflag;
    cbn [when] in Hrest.
  - revert Hrest. unfold rebuild. rewrite bind_eq.
    destruct (foldM (collectKnowledgeBase env) [] _ _) as [[docs | e] w1] eqn:Hcollect;
      [| discriminate].
    pose proof (sat_calm_collectAll env _ _ _ _ _ Logic.I Hcollect) as Hcalm.
    destruct (calm_fields _ _ _ Hcalm) as (_ & _ & _ & Hrec1 & Hidx1 & Hstore1).
    apply collectAll_exact in Hcollect. cbn [app] in Hcollect.
    rewrite (allDocumentsOf_same w (set_trace (trace w ++ evs) w)) in Hcollect
      by reflexivity.
    subst docs.
    destruct (allDocumentsOf env w (knowledgeBasesOf kb w)) as [| d docs].
    + intros [= <-]. rewrite Hrec1, Hidx1, Hstore1. cbn. auto.
    + intros Hbuild.
      destruct (buildFromAll_outcome env _ _ _ _ Hbuild) as (_ & _ & _ & _ & Hrec & _).
      destruct (buildFromAll_store env _ _ _ _ Hbuild) as [_ Hdone].
      destruct (Hdone eq_refl) as [Hidx Hstore].
      rewrite Hidx1 in Hidx. cbn in Hidx. rewrite Hnull in Hidx. cbn in Hidx.
      rewrite Hrec, Hrec1, Hstore, Hidx. auto.
  - injection Hrest as <-. rewrite (unflagged_no_documents _ _ Hflag). cbn. auto.
Qed.

End Rebuild.

Lemma updateIndex_rebuilds_from_scanned_files_witness :
  let env := Fixtures.plainEnv Fixtures.noFault in
  let w' := (FaissIndexManager.updateIndex env None Scenarios.resetWorld).2 in
  hashRecords w' = hashRecords Scenarios.resetWorld
  /\ match allDocumentsOf env Scenarios.resetWorld (knowledgeBasesOf None Scenarios.resetWorld) with
     | [] => faissIndex w' = None /\ storeFile w' = storeFile Scenarios.resetWorld
     | docs => faissIndex w' = Some docs /\ storeFile w' = Some docs
     end.
Proof.
  intros env w'.
  apply (updateIndex_rebuilds_from_scanned_files env None Scenarios.resetWorld w').
  - reflexivity.
  - intros name Hname Hdot f Hf.
    eapply settled_same;
      [| | | eapply (updateIndex_settles env None Fixtures.twoFileWorld);
             [vm_compute; reflexivity | exact Hname | exact Hdot | exact Hf]];
      reflexivity.
  - vm_compute. reflexivity.
Defined.

(** ** Failures are reported once *)

Section Reports.

Import FaissIndexManager.

Variable env : Env.

Lemma noReport_app evs1 evs2 : noReport evs1 -> noReport evs2 -> noReport (evs1 ++ evs2).
Proof. intros H1 H2. apply Forall_app. auto. Qed.

Lemma reporting_ret {A} (a : A) : reporting (ret a).
Proof.
  intros w r w' [= <- <-]. exists []. rewrite app_nil_r. split; [reflexivity | constructor].
Qed.

Lemma reporting_gets {A} (f : World -> A) : reporting (gets f).
Proof.
  intros w r w' [= <- <-]. exists []. rewrite app_nil_r. split; [reflexivity | constructor].
Qed.

Lemma reporting_modify (f : World -> World) :
  (forall w, trace (f w) = trace w) -> reporting (modify f).
Proof.
  intros Hf w r w' [= <- <-]. exists []. rewrite app_nil_r, Hf.
  split; [reflexivity | constructor].
Qed.

Lemma reporting_emit (ev : Event) : isReport ev = false -> reporting (emit ev).
Proof.
  intros Hev w r w' [= <- <-]. exists [ev]. split; [reflexivity |].
  repeat constructor. exact Hev.
Qed.

Lemma reporting_throw {A} (e : Error) : alreadyLogged e = false -> reporting (@throw A e).
Proof.
  intros He w r w' [= <- <-]. exists []. rewrite app_nil_r. split; [reflexivity |].
  cbn. rewrite He. constructor.
Qed.

Lemma reporting_handleFs {A} (op : IoOp) :
  alreadyLogged (Thrown op) = true -> reporting (@handleFsOperationError A op).
Proof.
  intros Hop w r w' [= <- <-]. exists [EvLog (LogFsFailed op)]. split; [reflexivity |].
  cbn [reportsInside reportOf]. rewrite Hop. exists []. split; [reflexivity | constructor].
Qed.

Lemma reporting_bind {A B} (m : M A) (f : A -> M B) :
  reporting m -> (forall a, reporting (f a)) -> reporting (bind m f).
Proof.
  intros Hm Hf w r w'. rewrite bind_eq.
  destruct (m w) as [[a | e] w1] eqn:Hrun; destruct (Hm _ _ _ Hrun) as (evs1 & Htr1 & Hr1).
  - intros Hrest. destruct (Hf a _ _ _ Hrest) as (evs2 & Htr2 & Hr2).
    exists (evs1 ++ evs2). split; [rewrite Htr2, Htr1, app_assoc; reflexivity |].
    cbn in Hr1. destruct r as [b | e]; cbn in *.
    + apply noReport_app; assumption.
    + destruct (alreadyLogged e).
      * destruct Hr2 as (evs0 & -> & Hno). exists (evs1 ++ evs0).
        split; [rewrite app_assoc; reflexivity | apply noReport_app; assumption].
      * apply noReport_app; assumption.
  - intros [= <- <-]. exists evs1. auto.
Qed.

Lemma reporting_when (c : bool) (m : M unit) : reporting m -> reporting (when c m).
Proof. destruct c; cbn; auto using reporting_ret. Qed.

Lemma reporting_foldM {A B} (f : B -> A -> M B) (l : list A) :
  (forall b x, reporting (f b x)) -> forall b, reporting (foldM f b l).
Proof.
  intros Hf. induction l as [| x l IH]; intros b; cbn [foldM].
  - apply reporting_ret.
  - apply reporting_bind; auto.
Qed.

(** The outer [catch]. *)
Lemma reporting_rethrowing {A} (m : M A) w r w' :
  reporting m ->
  rethrowing m logUnlessLogged w = (r, w') ->
  exists evs, trace w' = trace w ++ evs /\ reportedOnce r evs.
Proof.
  intros Hm. unfold rethrowing.
  destruct (m w) as [[a | e] w1] eqn:Hrun; destruct (Hm _ _ _ Hrun) as (evs & Htr & Hr).
  - intros [= <- <-]. exists evs. auto.
  - cbn in Hr. unfold logUnlessLogged.
    destruct (alreadyLogged e) eqn:He; cbn; intros [= <- <-].
    + exists evs. auto.
    + exists (evs ++ [EvLog (LogUncaught e)]). cbn. rewrite Htr, app_assoc.
      split; [reflexivity |]. exists evs. split; [| exact Hr].
      destruct e as [op | | | |]; cbn [reportOf]; rewrite ?He; reflexivity.
Qed.

Create HintDb reporting.

Ltac rep :=
  repeat first
    [ solve [auto 1 with reporting nocore]
    | apply reporting_handleFs; reflexivity
    | apply reporting_ret
    | apply reporting_gets
    | apply reporting_throw; reflexivity
    | apply reporting_emit; reflexivity
    | apply reporting_modify; intros ?; reflexivity
    | apply reporting_when
    | apply reporting_foldM; intros ? ?
    | apply reporting_bind; [| intros ?]
    | match goal with
      | |- reporting (match ?x with _ => _ end) => destruct x
      end ].

Lemma reporting_initialize_body this :
  reporting
    (dirExists <- gets faissDir ;;
     when (negb dirExists) (mkdirFaissDir env) ;;
     storedModelName <- readStoredModelName env ;;
     match Config.truthy storedModelName with
     | Some stored =>
         if String.eqb stored (modelName this) then ret tt
         else
           logLine (LogModelChanged stored (modelName this)) ;;
           onDisk <- gets storeFile ;;
           when (bool_decide (is_Some onDisk)) (unlinkStore env) ;;
           modify (set_faissIndex None)
     | None => ret tt
     end ;;
     onDisk <- gets storeFile ;;
     match onDisk with
     | Some st => loadStore env st
     | None => modify (set_faissIndex None)
     end ;;
     writeModelName env (modelName this)).
Proof.
  unfold mkdirFaissDir, readStoredModelName, unlinkStore, loadStore, writeModelName, logLine.
  rep.
Qed.

Lemma reporting_getFilesRecursively dir name : reporting (getFilesRecursively dir name).
Proof. unfold getFilesRecursively, logLine. rep. Qed.

Lemma reporting_createDocuments f content : reporting (createDocuments env f content).
Proof. unfold createDocuments. rep. Qed.

Lemma reporting_readText f : reporting (readText env f).
Proof. unfold readText. rep. Qed.

Lemma reporting_calculateSHA256 f : reporting (calculateSHA256 env f).
Proof. unfold calculateSHA256. rep. Qed.

Lemma reporting_mkdirIndexDir d : reporting (mkdirIndexDir env d).
Proof. unfold mkdirIndexDir. rep. Qed.

Lemma reporting_indexDocuments f rp h docs : reporting (indexDocuments env f rp h docs).
Proof. unfold indexDocuments, addToIndex, saveIndex, writeHashRecord. rep. Qed.

Lemma reporting_buildFromAll docs : reporting (buildFromAll env docs).
Proof. unfold buildFromAll, addToIndex, saveIndex. rep. Qed.

Local Hint Resolve reporting_getFilesRecursively reporting_createDocuments
  reporting_readText reporting_calculateSHA256 reporting_mkdirIndexDir
  reporting_indexDocuments reporting_buildFromAll : reporting.

Lemma reporting_processFile kbPath f : reporting (processFile env kbPath f).
Proof. unfold processFile, logLine. rep. Qed.

Local Hint Resolve reporting_processFile : reporting.

Lemma reporting_scanKnowledgeBase any name : reporting (scanKnowledgeBase env any name).
Proof. unfold scanKnowledgeBase. rep. Qed.

Lemma reporting_collectFile acc f : reporting (collectFile env acc f).
Proof. unfold collectFile, logLine. rep. Qed.

Local Hint Resolve reporting_scanKnowledgeBase reporting_collectFile : reporting.

Lemma reporting_rebuild kbs : reporting (rebuild env kbs).
Proof. unfold rebuild, collectKnowledgeBase. rep. Qed.

Local Hint Resolve reporting_rebuild : reporting.

Lemma reporting_updateIndex_body kb :
  reporting
    (knowledgeBases <-
       match Config.truthy kb with
       | Some name => ret [name]
       | None => readdirRoot
       end ;;
     anyFileProcessed <- foldM (scanKnowledgeBase env) false knowledgeBases ;;
     handle <- gets faissIndex ;;
     when (bool_decide (handle = None) && anyFileProcessed) (rebuild env knowledgeBases)).
Proof. unfold readdirRoot. rep. Qed.

(** X6. [initialize] and [updateIndex] report each failure exactly once.  A
    run that returns normally writes no failure report; a run that throws
    ends its log with the one report of the error thrown (its line, which
    the stack follows when there is one): the report of
    [handleFsOperationError] when the failing operation is one it guards,
    the report of the outer [catch] otherwise. *)
Theorem failure_is_reported_once (this : Manager) (kb : option string) (w : World) :
  (let out := initialize env this w in
   exists evs, trace out.2 = trace w ++ evs /\ reportedOnce out.1 evs)
  /\ (let out := updateIndex env kb w in
      exists evs, trace out.2 = trace w ++ evs /\ reportedOnce out.1 evs).
Proof.
  split; cbn zeta.
  - destruct (initialize env this w) as [r w'] eqn:Hrun. cbn.
    eapply reporting_rethrowing; [apply (reporting_initialize_body this) | exact Hrun].
  - destruct (updateIndex env kb w) as [r w'] eqn:Hrun. cbn.
    eapply reporting_rethrowing; [apply (reporting_updateIndex_body kb) | exact Hrun].
Qed.

End Reports.

(** ** [initialize] *)

Section Initialize.

Import FaissIndexManager.

Variable env : Env.

Lemma truthy_some (o : option string) (s : string) :
  Config.truthy o = Some s -> o = Some s /\ s <> "".
Proof.
  unfold Config.truthy. destruct o as [[| c s'] |]; try discriminate.
  intros [= <-]. split; [reflexivity | discriminate].
Qed.

(** Case analysis along the branches of a run. *)
Ltac branches :=
  repeat (go;
          match goal with
          | |- context [match ?x with _ => _ end] =>
              lazymatch x with
              | context [match _ with _ => _ end] => fail
              | _ => destruct x eqn:?
              end
          end);
  go.

Lemma initialize_ok_facts this w w' :
  initialize env this w = (Ok tt, w') ->
  faissDir w' = true
  /\ modelNameFile w' = Some (modelName this)
  /\ faissIndex w' = storeFile w'
  /\ (storeFile w' = storeFile w \/ storeFile w' = None)
  /\ (rootDir w' = rootDir w /\ kbDirs w' = kbDirs w /\ files w' = files w
      /\ indexDirs w' = indexDirs w /\ hashRecords w' = hashRecords w
      /\ pendingDir w' = pendingDir w /\ pendingFile w' = pendingFile w)
  /\ fault env WriteModelName = false
  /\ (is_Some (storeFile w') -> fault env LoadStore = false).
Proof.
  unfold initialize, mkdirFaissDir, readStoredModelName, unlinkStore, loadStore,
    writeModelName, handleFsOperationError, logUnlessLogged.
  branches; intros [= <-]; cbn; repeat split; auto; try discriminate;
    try (intros [? ?]); try congruence;
    destruct (faissDir w); cbn in *; congruence.
Qed.

(** X7. What a successful [initialize] leaves: the index directory exists,
    the model-name file holds the live model name, and the handle holds
    exactly the store that is on disk (both absent, or the same store); the
    store on disk is the one found or has been deleted; the knowledge bases,
    the hash records and the pending list are as they were. *)
Theorem initialize_postcondition (this : Manager) (w w' : World) :
  initialize env this w = (Ok tt, w') ->
  faissDir w' = true
  /\ modelNameFile w' = Some (modelName this)
  /\ faissIndex w' = storeFile w'
  /\ (storeFile w' = storeFile w \/ storeFile w' = None)
  /\ (rootDir w' = rootDir w /\ kbDirs w' = kbDirs w /\ files w' = files w
      /\ indexDirs w' = indexDirs w /\ hashRecords w' = hashRecords w
      /\ pendingDir w' = pendingDir w /\ pendingFile w' = pendingFile w).
Proof.
  intros Hrun. destruct (initialize_ok_facts _ _ _ Hrun) as (? & ? & ? & ? & ? & _).
  auto.
Qed.

(** X8. [initialize] deletes the store on disk only when it has read a
    non-empty recorded model name that differs from the live one: in every
    other run, however it ends, the store on disk is the one found. *)
Theorem initialize_deletes_only_on_drift (this : Manager) (w : World) :
  let w' := (initialize env this w).2 in
  storeFile w' = storeFile w
  \/ (storeFile w' = None
      /\ exists stored,
           modelNameFile w = Some stored /\ stored <> "" /\ stored <> modelName this
           /\ fault env ReadModelName = false).
Proof.
  cbn zeta.
  unfold initialize, mkdirFaissDir, readStoredModelName, unlinkStore, loadStore,
    writeModelName, handleFsOperationError, logUnlessLogged.
  branches; auto;
    right; (split; [reflexivity |]);
    match goal with
    | H : Config.truthy _ = Some _ |- _ => apply truthy_some in H as [[= ->] ?]
    end;
    eexists; repeat split; eauto;
    match goal with
    | H : String.eqb _ _ = false |- _ => apply String.eqb_neq in H; exact H
    end.
Qed.

(** X9. [initialize] can be repeated: after a run that returned normally, a
    second run returns normally and changes nothing but the log. *)
Theorem initialize_twice (this : Manager) (w w1 : World) :
  initialize env this w = (Ok tt, w1) ->
  exists evs,
    initialize env this w1 = (Ok tt, set_trace (trace w1 ++ evs) w1)
    /\ Forall isLog evs.
Proof.
  intros Hrun.
  destruct (initialize_ok_facts _ _ _ Hrun)
    as (Hdir & Hname & Hidx & _ & _ & Hwrite & Hload).
  clear Hrun.
  assert (Hsame : forall t,
            set_modelNameFile (Some (modelName this))
              (set_faissIndex (storeFile w1) (set_trace t w1)) = set_trace t w1).
  { intros t. destruct w1; cbn in *. subst. reflexivity. }
  assert (Hkeep : forall t,
            (onDisk <- gets storeFile ;;
             match onDisk with
             | Some st => loadStore env st
             | None => modify (set_faissIndex None)
             end ;;
             writeModelName env (modelName this)) (set_trace t w1)
            = (Ok tt, set_trace t w1)).
  { intros t. unfold loadStore, writeModelName. rewrite Hwrite. go.
    destruct (storeFile w1) as [st |] eqn:Hst.
    - rewrite (Hload ltac:(eauto)). go. rewrite (Hsame t). reflexivity.
    - go. rewrite (Hsame t). reflexivity. }
  unfold initialize, readStoredModelName.
  destruct (fault env ReadModelName) eqn:Hread.
  - exists [EvLog LogModelNameUnreadable]. split; [| repeat constructor].
    apply rethrowing_ok.
    repeat (rewrite bind_eq; cbn [gets ret when negb logLine emit modify];
            rewrite ?Hdir, ?Hname, ?Hread).
    cbn [Config.truthy]. exact (Hkeep _).
  - exists []. split; [| constructor]. rewrite set_trace_same.
    apply rethrowing_ok.
    repeat (rewrite bind_eq; cbn [gets ret when negb logLine emit modify];
            rewrite ?Hdir, ?Hname, ?Hread).
    assert (Hcheck : match Config.truthy (Some (modelName this)) with
                     | Some stored =>
                         if String.eqb stored (modelName this) then ret tt
                         else
                           logLine (LogModelChanged stored (modelName this)) ;;
                           onDisk <- gets storeFile ;;
                           when (bool_decide (is_Some onDisk)) (unlinkStore env) ;;
                           modify (set_faissIndex None)
                     | None => ret tt
                     end w1 = (Ok tt, w1)).
    { destruct (Config.truthy (Some (modelName this))) as [stored |] eqn:Ht;
        [| reflexivity].
      apply truthy_some in Ht as [[= <-] _]. rewrite String.eqb_refl. reflexivity. }
    cbn [ret]. rewrite bind_eq, Hcheck. pose proof (Hkeep (trace w1)) as Hlast.
    rewrite set_trace_id in Hlast. exact Hlast.
Qed.

End Initialize.

Lemma initialize_postcondition_witness :
  let w' := (FaissIndexManager.initialize (Fixtures.plainEnv Fixtures.noFault)
               Fixtures.otherManager Fixtures.driftedWorld).2 in
  faissDir w' = true
  /\ modelNameFile w' = Some "other-model"
  /\ faissIndex w' = storeFile w'
  /\ (storeFile w' = storeFile Fixtures.driftedWorld \/ storeFile w' = None)
  /\ (rootDir w' = rootDir Fixtures.driftedWorld
      /\ kbDirs w' = kbDirs Fixtures.driftedWorld
      /\ files w' = files Fixtures.driftedWorld
      /\ indexDirs w' = indexDirs Fixtures.driftedWorld
      /\ hashRecords w' = hashRecords Fixtures.driftedWorld
      /\ pendingDir w' = pendingDir Fixtures.driftedWorld
      /\ pendingFile w' = pendingFile Fixtures.driftedWorld).
Proof.
  intros w'.
  apply (initialize_postcondition (Fixtures.plainEnv Fixtures.noFault)
           Fixtures.otherManager Fixtures.driftedWorld w').
  vm_compute. reflexivity.
Defined.

Lemma initialize_twice_witness :
  let env := Fixtures.plainEnv Fixtures.noFault in
  let w1 := (FaissIndexManager.initialize env Fixtures.otherManager
               Fixtures.driftedWorld).2 in
  exists evs,
    FaissIndexManager.initialize env Fixtures.otherManager w1
    = (Ok tt, set_trace (trace w1 ++ evs) w1)
    /\ Forall isLog evs.
Proof.
  intros env w1.
  apply (initialize_twice env Fixtures.otherManager Fixtures.driftedWorld w1).
  vm_compute. reflexivity.
Defined.

(** ** The pending list and the ingestion, when they go through *)

Section Ingestion.

Import FaissIndexManager UrlManager.

Variable env : Env.

Lemma suggestUrl_run uuid now u kb rs w :
  pendingDir w = true \/ fault env MkdirPendingDir = false ->
  fault env WritePending = false ->
  let entry := {| id := uuid; url := u; knowledge_base := kb; reason := rs;
                  suggested_at := now; status := pending |} in
  suggestUrl env uuid now u kb rs w
  = (Ok entry, set_pendingFile (Listed (pendingUrlsOf w ++ [entry])) (set_pendingDir true w)).
Proof.
  intros Hdir Hwrite entry. unfold suggestUrl.
  rewrite bind_eq, loadPendingUrls_run, bind_eq.
  fold entry. rewrite (savePendingUrls_ok env _ _ Hdir Hwrite). reflexivity.
Qed.

(** X10. A suggestion that can be written is appended to the pending list as
    a pending record with the given URL, knowledge base and reason, whether
    or not the URL is already listed; the records already there keep their
    order, and the listing of pending URLs that follows ends with the new
    record. *)
Theorem suggestUrl_appends (uuid now u kb rs : string) (w : World) :
  pendingDir w = true \/ fault env MkdirPendingDir = false ->
  fault env WritePending = false ->
  exists entry w',
    suggestUrl env uuid now u kb rs w = (Ok entry, w')
    /\ (id entry = uuid /\ url entry = u /\ knowledge_base entry = kb
        /\ reason entry = rs /\ suggested_at entry = now /\ status entry = pending)
    /\ pendingFile w' = Listed (pendingUrlsOf w ++ [entry])
    /\ listPendingUrls w'
       = (Ok (List.filter isPending (pendingUrlsOf w) ++ [entry]), w')
    /\ (files w' = files w /\ kbDirs w' = kbDirs w /\ faissIndex w' = faissIndex w
        /\ trace w' = trace w).
Proof.
  intros Hdir Hwrite. eexists _, _.
  split; [apply (suggestUrl_run uuid now u kb rs w Hdir Hwrite) |].
  split; [cbn; auto 10 |]. split; [reflexivity |]. split; [| cbn; auto].
  unfold listPendingUrls. rewrite bind_eq, loadPendingUrls_run.
  unfold pendingUrlsOf at 1. cbn [pendingFile set_pendingFile].
  rewrite List.filter_app. reflexivity.
Qed.

(** *** Re-indexing leaves the pending list alone *)

Lemma updateIndex_keepsPending kb : sat always keepsPending (updateIndex env kb).
Proof.
  apply sat_updateIndex.
  - intros w. split; reflexivity.
  - intros w1 w2 w3 ok [? ?] [? ?]. split; congruence.
  - intros w ok w' (Hsame & _). rewrite <- Hsame. destruct w'; split; reflexivity.
  - intros name rel bytes docs w r w' _ _ _ _.
    unfold indexDocuments, addToIndex, saveIndex, writeHashRecord, handleFsOperationError.
    go. repeat (destruct (fault env _); go); intros [= <- <-]; split; reflexivity.
  - intros docs w r w' _.
    unfold buildFromAll, addToIndex, saveIndex, handleFsOperationError.
    go. repeat (destruct (fault env _); go); intros [= <- <-]; split; reflexivity.
  - intros w w0 l H. exact H.
Qed.

Lemma find_approveFound (i : string) (urls : list PendingUrl) (entry : PendingUrl) :
  List.find (hasId i) urls = Some entry ->
  List.find (hasId i) (approveFound i urls) = Some (setApproved entry).
Proof.
  induction urls as [| u urls IH]; cbn [List.find approveFound]; [discriminate |].
  destruct (hasId i u) eqn:Hu.
  - intros [= <-]. cbn [List.find]. unfold hasId in *. cbn [id setApproved].
    rewrite Hu. reflexivity.
  - intros Hfind. cbn [List.find]. rewrite Hu. auto.
Qed.

Lemma savePendingUrls_written urls w w' :
  savePendingUrls env urls w = (Ok tt, w') -> pendingFile w' = Listed urls.
Proof.
  unfold savePendingUrls. run.
  destruct (pendingDir w); run;
    repeat (destruct (fault env _); run); intros [= <-]; reflexivity.
Qed.

(** X11. An approval that succeeds was for a record that was pending; it
    has written the markdown file named after the record's URL in the
    record's knowledge base, and it keeps the record in the list with the
    status [approved], every other record as it was.  The record is
    therefore no longer pending, and approving the same id again fails with
    nothing changed. *)
Theorem approveUrl_marks_approved (i now : string) (w : World) (out : Path * string) (w' : World) :
  approveUrl env (Fixtures.reindexWith env) i now w = (Ok out, w') ->
  exists entry,
    List.find (hasId i) (pendingUrlsOf w) = Some entry
    /\ status entry = pending
    /\ out = (knowledgeBasePathOf env (knowledge_base entry)
                ++ [Sanitize.sanitizeUrlForFilename (url entry) +:+ ".md"],
              knowledge_base entry)
    /\ is_Some (files w' !! out.1)
    /\ pendingFile w' = Listed (approveFound i (pendingUrlsOf w))
    /\ List.find (hasId i) (pendingUrlsOf w') = Some (setApproved entry)
    /\ forall now',
         approveUrl env (Fixtures.reindexWith env) i now' w'
         = (Err (NotPending i approved), w').
Proof.
  unfold approveUrl at 1, Fixtures.reindexWith.
  rewrite bind_eq, loadPendingUrls_run.
  destruct (List.find (hasId i) (pendingUrlsOf w)) as [entry |] eqn:Hfind; [| discriminate].
  destruct (isPending entry) eqn:Hpending; cbn [negb]; [| discriminate].
  rewrite bind_eq.
  destruct (fetchAndConvert env (url entry) w) as [[c | e] w0] eqn:Hfetch; [| discriminate].
  apply fetchAndConvert_pure in Hfetch as ->.
  rewrite bind_eq.
  destruct (saveMarkdown env (knowledge_base entry) (url entry) c.2 c.1 now w)
    as [[fp | e] w1] eqn:Hsave; [| discriminate].
  destruct (saveMarkdown_ok env _ _ _ _ _ _ _ _ Hsave) as (Hfp & Hfile & _).
  rewrite bind_eq.
  destruct (savePendingUrls env _ w1) as [[[] | e] w2] eqn:Hpend; [| discriminate].
  pose proof (savePendingUrls_written _ _ _ Hpend) as Hwritten.
  apply savePendingUrls_frame in Hpend as (Hfiles2 & _).
  rewrite bind_eq.
  destruct (updateIndex env (Some (knowledge_base entry)) w2) as [[[] | e] w3] eqn:Hrun;
    [| discriminate].
  destruct (updateIndex_keepsPending _ _ _ _ Logic.I Hrun) as [_ Hpending3].
  destruct (updateIndex_keepsTree env _ _ _ _ Logic.I Hrun) as (_ & _ & Hfiles3).
  intros [= <- <-]. exists entry.
  assert (Hafter : pendingUrlsOf w3 = approveFound i (pendingUrlsOf w)).
  { unfold pendingUrlsOf at 1. rewrite Hpending3, Hwritten. reflexivity. }
  split; [reflexivity |]. split; [apply isPending_true, Hpending |].
  split; [rewrite Hfp; reflexivity |].
  split; [cbn; rewrite Hfiles3, Hfiles2, Hfile; eauto |].
  split; [rewrite Hpending3; exact Hwritten |].
  split; [rewrite Hafter; apply find_approveFound, Hfind |].
  intros now'. unfold approveUrl. rewrite bind_eq, loadPendingUrls_run, Hafter.
  rewrite (find_approveFound _ _ _ Hfind). reflexivity.
Qed.

(** *** What [saveMarkdown] writes *)

Lemma saveMarkdown_inv kb u title md now w fp w1 :
  saveMarkdown env kb u title md now w = (Ok fp, w1) ->
  let filename := Sanitize.sanitizeUrlForFilename u +:+ ".md" in
  exists entries0,
    (kbDirs w !! kb = Some entries0 \/ (kbDirs w !! kb = None /\ entries0 = []))
    /\ existsb (isDirNamed filename) entries0 = false
    /\ fp = knowledgeBasePathOf env kb ++ [filename]
    /\ kbDirs w1
       = <[kb := if existsb (hasName filename) entries0 then entries0
                 else entries0 ++ [Utils.DFile filename]]> (kbDirs w)
    /\ files w1 = <[fp := frontmatter env u title now +:+ md]> (files w)
    /\ (indexDirs w1 = indexDirs w /\ hashRecords w1 = hashRecords w
        /\ storeFile w1 = storeFile w /\ faissIndex w1 = faissIndex w
        /\ pendingFile w1 = pendingFile w /\ trace w1 = trace w).
Proof.
  intros Hrun filename. revert Hrun.
  unfold saveMarkdown, mkdirKb, writeKbFile, knowledgeBasePathOf, PathOps.join.
  fold filename. run. destruct (bool_decide _) eqn:Hdir; run.
  - destruct (kbDirs w !! kb) as [entries |] eqn:Hkb; run; [| discriminate].
    destruct (fault env _); run; [discriminate |].
    destruct (existsb (isDirNamed filename) entries) eqn:Hnodir; run; [discriminate |].
    intros [= <- <-]. exists entries. cbn. auto 15.
  - apply bool_decide_eq_false in Hdir.
    destruct (kbDirs w !! kb) as [entries |] eqn:Hkb; [exfalso; apply Hdir; eauto |].
    destruct (fault env (MkdirKb kb)); run; [discriminate |].
    rewrite lookup_insert_eq. run.
    destruct (fault env _); run; [discriminate |].
    intros [= <- <-]. exists []. cbn. rewrite insert_insert_eq. auto 15.
Qed.

Lemma hasName_elem (name : string) (entries : list Utils.Dirent) :
  existsb (hasName name) entries = true ->
  existsb (isDirNamed name) entries = false ->
  Utils.DOther name ∉ entries ->
  Utils.DFile name ∈ entries.
Proof.
  induction entries as [| e entries IH]; cbn [existsb]; [discriminate |].
  intros Hname Hdir Hother.
  apply orb_false_iff in Hdir as [Hdir1 Hdir].
  apply not_elem_of_cons in Hother as [Hne Hother].
  apply orb_true_iff in Hname as [Hhere | Hlater]; [| right; auto].
  unfold hasName in Hhere. apply String.eqb_eq in Hhere.
  destruct e as [n | n es | n]; cbn in *; subst.
  - left.
  - rewrite String.eqb_refl in Hdir1. discriminate.
  - congruence.
Qed.

Lemma traverse_file_here (dir : Path) (entries : list Utils.Dirent) (name : string) :
  Utils.DFile name ∈ entries -> Str.startsWithDot name = false ->
  dir ++ [name] ∈ Utils.traverse dir (Some entries).
Proof.
  intros Hin Hdot. cbn [Utils.traverse]. unfold Utils.traverseEntries.
  apply elem_of_concat. exists [dir ++ [name]]. split; [left |].
  apply list_elem_of_fmap. exists (Utils.DFile name). split; [| exact Hin].
  cbn. rewrite Hdot. reflexivity.
Qed.

(** X12. A URL added directly ends up indexed when its file can be seen by
    the scan.  When neither the knowledge-base name nor the file name derived
    from the URL starts with a dot, and no entry of that name other than a
    regular file is in the way, an addition that succeeds has written the
    file with its front matter and the converted page, the scan of the
    knowledge base returns it, and it is up to date: its hash record holds
    the digest of what was written, unless its text cannot be read back or
    it splits into no chunk. *)
Theorem addUrl_indexes_visible_file (u kb now : string) (w : World) (fp : Path) (w' : World) :
  let filename := Sanitize.sanitizeUrlForFilename u +:+ ".md" in
  Str.startsWithDot filename = false ->
  kb <> "" -> Str.startsWithDot kb = false ->
  (forall entries, kbDirs w !! kb = Some entries -> Utils.DOther filename ∉ entries) ->
  addUrl env (Fixtures.reindexWith env) u kb now w = (Ok fp, w') ->
  fp = knowledgeBasePathOf env kb ++ [filename]
  /\ (exists title md, files w' !! fp = Some (frontmatter env u title now +:+ md))
  /\ fp ∈ Utils.traverse (knowledgeBasePathOf env kb) (kbDirs w' !! kb)
  /\ settled env (knowledgeBasePathOf env kb) fp w'.
Proof.
  intros filename Hdot Hkbne Hkbdot Hother. unfold addUrl, Fixtures.reindexWith.
  rewrite bind_eq.
  destruct (fetchAndConvert env u w) as [[c | e] w0] eqn:Hfetch; [| discriminate].
  apply fetchAndConvert_pure in Hfetch as ->.
  rewrite bind_eq.
  destruct (saveMarkdown env kb u c.2 c.1 now w) as [[fp0 | e] w1] eqn:Hsave;
    [| discriminate].
  destruct (saveMarkdown_inv _ _ _ _ _ _ _ _ Hsave)
    as (entries0 & Hbefore & Hnodir & Hfp & Hkb1 & Hfiles1 & _).
  fold filename in Hnodir, Hfp, Hkb1.
  rewrite bind_eq.
  destruct (updateIndex env (Some kb) w1) as [[[] | e] w2] eqn:Hrun; [| discriminate].
  intros [= <- <-].
  destruct (updateIndex_keepsTree env _ _ _ _ Logic.I Hrun) as (_ & Hkb2 & Hfiles2).
  assert (Hscan : fp0 ∈ Utils.traverse (knowledgeBasePathOf env kb) (kbDirs w1 !! kb)).
  { rewrite Hkb1, lookup_insert_eq, Hfp. apply traverse_file_here; [| exact Hdot].
    destruct (existsb (hasName filename) entries0) eqn:Hname.
    - apply hasName_elem; auto.
      destruct Hbefore as [Hsome | [_ ->]]; [eapply Hother, Hsome | inversion 1].
    - apply elem_of_app. right. left. }
  split; [exact Hfp |].
  split; [exists c.2, c.1; rewrite Hfiles2, Hfiles1, lookup_insert_eq; reflexivity |].
  split; [rewrite Hkb2; exact Hscan |].
  eapply (updateIndex_settles env (Some kb) w1 w2 Hrun kb); auto.
  unfold knowledgeBasesOf. rewrite (truthy_nonempty _ Hkbne). left.
Qed.

(** X13. The scheme is not part of the file name: ["http://"] and
    ["https://"] in front of the same rest give the same name, the one of
    the rest.  Two URLs with the same derived name are written to the same
    file of a knowledge base: the second ingestion replaces the content of
    the first and adds no directory entry. *)
Theorem same_name_overwrites (kb : string) (w : World) :
  (forall rest,
     Sanitize.sanitizeUrlForFilename ("http://" +:+ rest)
     = Sanitize.sanitizeUrlForFilename rest
     /\ Sanitize.sanitizeUrlForFilename ("https://" +:+ rest)
        = Sanitize.sanitizeUrlForFilename rest)
  /\ (forall u1 u2 t1 t2 m1 m2 n1 n2 fp1 w1 fp2 w2,
        Sanitize.sanitizeUrlForFilename u1 = Sanitize.sanitizeUrlForFilename u2 ->
        saveMarkdown env kb u1 t1 m1 n1 w = (Ok fp1, w1) ->
        saveMarkdown env kb u2 t2 m2 n2 w1 = (Ok fp2, w2) ->
        fp2 = fp1
        /\ files w2 !! fp1 = Some (frontmatter env u2 t2 n2 +:+ m2)
        /\ kbDirs w2 = kbDirs w1).
Proof.
  split.
  - intros rest. unfold Sanitize.sanitizeUrlForFilename.
    split; do 4 f_equal; cbv [String.append]; cbn; destruct rest; reflexivity.
  - intros u1 u2 t1 t2 m1 m2 n1 n2 fp1 w1 fp2 w2 Hname Hfirst Hsecond.
    destruct (saveMarkdown_ok env _ _ _ _ _ _ _ _ Hfirst)
      as (Hfp1 & _ & _ & _ & entries & Hkb1 & Hlisted).
    destruct (saveMarkdown_inv _ _ _ _ _ _ _ _ Hsecond)
      as (entries0 & Hbefore & _ & Hfp2 & Hkb2 & Hfiles2 & _).
    rewrite <- Hname in Hfp2, Hkb2.
    destruct Hbefore as [Hsome | [Hnone _]]; [| congruence].
    assert (entries0 = entries) as -> by congruence.
    rewrite Hlisted in Hkb2.
    split; [congruence |]. split.
    + rewrite Hfiles2, Hfp2, <- Hfp1, lookup_insert_eq. reflexivity.
    + rewrite Hkb2. apply insert_id. exact Hkb1.
Qed.

End Ingestion.

(** ** The recursive scan, exactly *)

Section ScanExactly.

Import Utils.

Lemma traverseEntry_leads (entry : Dirent) :
  forall dir f,
    f ∈ traverseEntry dir entry ->
    exists rel,
      f = dir ++ direntName entry :: rel
      /\ forall entries, entry ∈ entries -> leadsToFile entries (direntName entry :: rel).
Proof.
  induction entry as [n | n | n | n es IH] using Dirent_nested_ind; intros dir f.
  - cbn. destruct (Str.startsWithDot n) eqn:Hn; [inversion 1 |].
    intros ->%list_elem_of_singleton. exists []. split; [reflexivity |].
    intros entries Hin. apply leads_here; assumption.
  - cbn. destruct (Str.startsWithDot n); inversion 1.
  - cbn. destruct (Str.startsWithDot n); inversion 1.
  - rewrite traverseEntry_dir. destruct (Str.startsWithDot n) eqn:Hn; [inversion 1 |].
    unfold traverseEntries. intros Hin.
    apply elem_of_concat in Hin as (fs & Hf & Hfs).
    apply list_elem_of_fmap in Hfs as (e & -> & He).
    rewrite Forall_forall in IH.
    destruct (IH e He _ _ Hf) as (rel & -> & Hleads).
    exists (direntName e :: rel). cbn [direntName]. split.
    + unfold PathOps.join. rewrite <- app_assoc. reflexivity.
    + intros entries Hentry. eapply leads_down; eauto.
Qed.

Lemma elem_of_traverseEntries dir entries f :
  f ∈ traverseEntries dir entries <-> exists e, e ∈ entries /\ f ∈ traverseEntry dir e.
Proof.
  unfold traverseEntries. rewrite elem_of_concat. split.
  - intros (fs & Hf & Hfs). apply list_elem_of_fmap in Hfs as (e & -> & He). eauto.
  - intros (e & He & Hf). exists (traverseEntry dir e). split; [exact Hf |].
    apply list_elem_of_fmap. eauto.
Qed.

Lemma leads_traversed entries rel :
  leadsToFile entries rel -> forall dir, dir ++ rel ∈ traverseEntries dir entries.
Proof.
  induction 1 as [entries name Hin Hdot | entries name sub rel Hin Hdot _ IH]; intros dir;
    apply elem_of_traverseEntries.
  - exists (DFile name). split; [exact Hin |]. cbn. rewrite Hdot. left.
  - exists (DDir name (Some sub)). split; [exact Hin |].
    rewrite traverseEntry_dir, Hdot.
    replace (dir ++ name :: rel) with (PathOps.join dir name ++ rel);
      [apply IH | unfold PathOps.join; rewrite <- app_assoc; reflexivity].
Qed.

(** X14. What [getFilesRecursively] returns, exactly: the paths, below the
    directory scanned, that lead to a regular file through readable
    directories along names none of which starts with a dot.  So a directory
    that cannot be read hides only what is below it, and a directory that
    cannot be read at the top yields no file. *)
Theorem getFilesRecursively_exactly (dir : Path) (entries : list Dirent) (f : Path) :
  (f ∈ traverse dir (Some entries)
   <-> exists rel, leadsToFile entries rel /\ f = dir ++ rel)
  /\ traverse dir None = [].
Proof.
  split; [| reflexivity]. cbn [traverse]. split.
  - intros (e & He & Hf)%elem_of_traverseEntries.
    destruct (traverseEntry_leads e _ _ Hf) as (rel & -> & Hleads). eauto.
  - intros (rel & Hleads & ->). apply leads_traversed, Hleads.
Qed.

Lemma traverseEntries_distinct entries :
  distinctNames entries -> forall dir, NoDup (traverseEntries dir entries).
Proof.
  induction 1 as [entries Hnames _ IH]. intros dir.
  assert (Hsub : forall e, e ∈ entries -> NoDup (traverseEntry dir e)).
  { intros [n | n [sub |] | n] He; cbn -[traverseEntry].
    - cbn. destruct (Str.startsWithDot n); repeat constructor. inversion 1.
    - rewrite traverseEntry_dir. destruct (Str.startsWithDot n); [constructor |].
      eapply IH, He.
    - cbn. destruct (Str.startsWithDot n); constructor.
    - cbn. destruct (Str.startsWithDot n); constructor. }
  clear IH. unfold traverseEntries.
  induction entries as [| e entries IHl]; cbn [map concat]; [constructor |].
  cbn [map] in Hnames. apply NoDup_cons in Hnames as [Hfresh Hnames].
  apply NoDup_app. split; [apply Hsub; left |]. split.
  - intros f Hf Hrest.
    apply elem_of_concat in Hrest as (fs & Hf' & Hfs).
    apply list_elem_of_fmap in Hfs as (e' & -> & He').
    destruct (traverseEntry_leads e _ _ Hf) as (rel & -> & _).
    destruct (traverseEntry_leads e' _ _ Hf') as (rel' & Heq & _).
    apply app_inv_head in Heq. injection Heq as Hname _.
    apply Hfresh. rewrite Hname. apply list_elem_of_fmap. eauto.
  - apply IHl; [exact Hnames |]. intros e' He'. apply Hsub. right. exact He'.
Qed.

(** X15. When no directory holds two entries of the same name, the scan
    returns no file twice. *)
Theorem getFilesRecursively_lists_once (dir : Path) (entries : list Dirent) :
  distinctNames entries -> NoDup (traverse dir (Some entries)).
Proof. intros Hd. apply traverseEntries_distinct, Hd. Qed.

End ScanExactly.

Lemma getFilesRecursively_lists_once_witness :
  NoDup (Utils.traverse Fixtures.kb1Path
           (Some [Utils.DFile "a.md"; Utils.DDir "sub" (Some [Utils.DFile "a.md"])])).
Proof.
  apply getFilesRecursively_lists_once.
  constructor.
  - apply (bool_decide_unpack _). vm_compute. reflexivity.
  - intros name sub Hin.
    apply elem_of_cons in Hin as [[=] | Hin].
    apply elem_of_cons in Hin as [[= _ ->] | Hin]; [| inversion Hin].
    constructor.
    + apply (bool_decide_unpack _). vm_compute. reflexivity.
    + intros name' sub' Hin'. apply elem_of_cons in Hin' as [[=] | Hin']. inversion Hin'.
Defined.

(** ** File names made from URLs *)

Section FileNames.

Import Sanitize.

Lemma everyChar_replaceReserved s : everyChar notReserved (replaceReserved s) = true.
Proof.
  induction s as [| c s IH]; cbn [replaceReserved everyChar]; [reflexivity |].
  rewrite IH, andb_true_r. unfold notReserved. destruct (isReserved c) eqn:Hc; [reflexivity |].
  rewrite Hc. reflexivity.
Qed.

Lemma everyChar_collapse p s :
  everyChar p s = true -> everyChar p (collapseUnderscores s) = true.
Proof.
  induction s as [| c s IH]; [reflexivity |].
  cbn [everyChar]. intros [Hc Hs]%andb_true_iff. specialize (IH Hs).
  cbn [collapseUnderscores]. destruct s as [| c' s']; [cbn; rewrite Hc; reflexivity |].
  destruct (Ascii.eqb c "_" && Ascii.eqb c' "_"); [exact IH |].
  cbn [everyChar]. rewrite Hc. exact IH.
Qed.

Lemma everyChar_dropLeading p s :
  everyChar p s = true -> everyChar p (dropLeadingUnderscore s) = true.
Proof.
  destruct s as [| c s]; [reflexivity |]. cbn [everyChar].
  intros [Hc Hs]%andb_true_iff. unfold dropLeadingUnderscore.
  destruct c as [[] [] [] [] [] [] [] []]; cbn [everyChar]; rewrite ?Hc; auto.
Qed.

Lemma everyChar_dropTrailing p s :
  everyChar p s = true -> everyChar p (dropTrailingUnderscore s) = true.
Proof.
  induction s as [| c s IH]; [reflexivity |].
  cbn [everyChar]. intros [Hc Hs]%andb_true_iff. specialize (IH Hs).
  cbn [dropTrailingUnderscore]. destruct s as [| c' s'].
  - destruct (Ascii.eqb c "_"); cbn; rewrite ?Hc; reflexivity.
  - cbn [everyChar]. rewrite Hc. exact IH.
Qed.

Lemma everyChar_substring p n s :
  everyChar p s = true -> everyChar p (substring 0 n s) = true.
Proof.
  revert s. induction n as [| n IH]; intros [| c s]; cbn; auto.
  intros [Hc Hs]%andb_true_iff. rewrite Hc. cbn. auto.
Qed.

Lemma length_substring n s : String.length (substring 0 n s) <= n.
Proof.
  revert s. induction n as [| n IH]; intros [| c s]; cbn; try lia.
  specialize (IH s). lia.
Qed.

Lemma startsWithDot_app s t :
  Str.startsWithDot (s +:+ t)
  = if String.eqb s "" then Str.startsWithDot t else Str.startsWithDot s.
Proof. destruct s; reflexivity. Qed.

(** X16. The file name made from a URL has at most 200 characters and none
    of them is ['/'], [':'], ['?'] or ['#'], so with [".md"] appended it names
    an entry directly under the knowledge base.  That entry is hidden from
    the scan exactly when the name made from the URL is empty or starts with
    a dot. *)
Theorem sanitizeUrlForFilename_is_a_name (url : string) :
  let name := sanitizeUrlForFilename url in
  String.length name <= 200
  /\ everyChar notReserved name = true
  /\ (Str.startsWithDot (name +:+ ".md") = true
      <-> name = "" \/ Str.startsWithDot name = true).
Proof.
  cbn zeta. split; [apply length_substring |]. split.
  - unfold sanitizeUrlForFilename, slice200, trimUnderscores.
    apply everyChar_substring, everyChar_dropTrailing, everyChar_dropLeading,
      everyChar_collapse, everyChar_replaceReserved.
  - rewrite startsWithDot_app.
    destruct (sanitizeUrlForFilename url) as [| c s]; cbn [String.eqb].
    + split; [auto | reflexivity].
    + split; [auto | intros [[=] | H]; exact H].
Qed.

End FileNames.

(** ** The constructor *)

Section Constructor.

Import FaissIndexManager.

Lemma orDefault_nonempty (o : option string) (fallback : string) :
  fallback <> "" -> Config.orDefault o fallback <> "".
Proof.
  unfold Config.orDefault. destruct (Config.truthy o) as [s |] eqn:Ht; cbn; [| auto].
  intros _. apply truthy_some in Ht as [_ Hs]. exact Hs.
Qed.

(** X17. The constructor fails only for want of an API key, an empty key
    counting as none: with the provider ["openai"] it needs
    [OPENAI_API_KEY], with ["ollama"] it needs nothing, and with any other
    provider, named or not, it is the HuggingFace one and needs
    [HUGGINGFACE_API_KEY].  When it succeeds, the manager records the
    provider as configured and a model name that is never empty. *)
Theorem constructor_needs_only_a_key (pe : Config.ProcessEnv) :
  let provider := Config.EMBEDDING_PROVIDER pe in
  match constructor pe with
  | Ok this =>
      embeddingProvider this = provider
      /\ modelName this <> ""
      /\ (provider = "ollama"
          \/ (provider = "openai" /\ is_Some (Config.truthy (Config.env_OPENAI_API_KEY pe)))
          \/ (provider <> "ollama" /\ provider <> "openai"
              /\ is_Some (Config.truthy (Config.env_HUGGINGFACE_API_KEY pe))))
  | Err e =>
      (e = MissingApiKey "openai" /\ provider = "openai"
       /\ Config.truthy (Config.env_OPENAI_API_KEY pe) = None)
      \/ (e = MissingApiKey "huggingface" /\ provider <> "ollama" /\ provider <> "openai"
          /\ Config.truthy (Config.env_HUGGINGFACE_API_KEY pe) = None)
  end.
Proof.
  cbn zeta. unfold constructor.
  destruct (String.eqb_spec (Config.EMBEDDING_PROVIDER pe) "ollama") as [Hollama | Hollama].
  - cbn. split; [reflexivity |]. split; [| auto].
    apply orDefault_nonempty. discriminate.
  - destruct (String.eqb_spec (Config.EMBEDDING_PROVIDER pe) "openai") as [Hopenai | Hopenai].
    + destruct (Config.truthy (Config.env_OPENAI_API_KEY pe)) eqn:Hkey; cbn; [| auto].
      split; [reflexivity |]. split; [apply orDefault_nonempty; discriminate |].
      right. left. eauto.
    + destruct (Config.truthy (Config.env_HUGGINGFACE_API_KEY pe)) eqn:Hkey; cbn;
        [| right; auto].
      split; [reflexivity |]. split; [apply orDefault_nonempty; discriminate |].
      right. right. eauto.
Qed.

End Constructor.

(** ** The logger *)

Section LoggerProperties.

Import Logger.

Lemma passes_named (LOG_LEVEL : option string) (active : LogLevel) :
  envLevel LOG_LEVEL = levelName active ->
  forall level,
    passes LOG_LEVEL level = bool_decide (LEVEL_PRIORITY active <= LEVEL_PRIORITY level).
Proof.
  intros Henv level. unfold passes, activeLevel. rewrite Henv.
  destruct active, level; vm_compute; reflexivity.
Qed.

Lemma passes_unknown (LOG_LEVEL : option string) :
  lookup (envLevel LOG_LEVEL) = Undefined ->
  forall level, passes LOG_LEVEL level = bool_decide (20 <= LEVEL_PRIORITY level).
Proof.
  intros Hlook level. unfold passes, activeLevel. rewrite Hlook.
  destruct level; vm_compute; reflexivity.
Qed.

Lemma lookup_cases (key : string) :
  (exists level, key = levelName level) \/ lookup key = Inherited \/ lookup key = Undefined.
Proof.
  unfold lookup.
  destruct (String.eqb_spec key "debug") as [-> | _]; [left; exists debug; reflexivity |].
  destruct (String.eqb_spec key "info") as [-> | _]; [left; exists info; reflexivity |].
  destruct (String.eqb_spec key "warn") as [-> | _]; [left; exists warn; reflexivity |].
  destruct (String.eqb_spec key "error") as [-> | _]; [left; exists error; reflexivity |].
  destruct (_ || _); auto.
Qed.

Lemma passes_inherited (LOG_LEVEL : option string) :
  lookup (envLevel LOG_LEVEL) = Inherited -> forall level, passes LOG_LEVEL level = true.
Proof.
  intros Hlook level. unfold passes, activeLevel. rewrite Hlook. cbn [truthy].
  rewrite Hlook. destruct level; reflexivity.
Qed.

(** X18. The level filter of the logger.  Whatever [LOG_LEVEL] holds, an
    [error] line is never dropped, and a level that passes lets every level
    of higher priority pass.  When [LOG_LEVEL] names a level, in any letter
    case, a line passes exactly when its priority is at least that level's;
    when it is unset, empty, or not a name the priority table knows, the
    filter is the one of [info]. *)
Theorem write_level_filter (LOG_LEVEL : option string) :
  passes LOG_LEVEL error = true
  /\ (forall level level',
        passes LOG_LEVEL level = true ->
        LEVEL_PRIORITY level <= LEVEL_PRIORITY level' ->
        passes LOG_LEVEL level' = true)
  /\ (forall given active,
        LOG_LEVEL = Some given ->
        Str.toLowerCase given = levelName active ->
        forall level,
          passes LOG_LEVEL level = true <-> LEVEL_PRIORITY active <= LEVEL_PRIORITY level)
  /\ (Config.truthy LOG_LEVEL = None \/ lookup (envLevel LOG_LEVEL) = Undefined ->
      forall level, passes LOG_LEVEL level = passes (Some "info") level).
Proof.
  assert (Hall : (exists active, forall level,
                    passes LOG_LEVEL level
                    = bool_decide (LEVEL_PRIORITY active <= LEVEL_PRIORITY level))
                 \/ (forall level, passes LOG_LEVEL level = true)).
  { destruct (lookup_cases (envLevel LOG_LEVEL)) as [[active Hnamed] | [Hin | Hun]].
    - left. exists active. apply passes_named, Hnamed.
    - right. apply passes_inherited, Hin.
    - left. exists info. apply passes_unknown, Hun. }
  split; [| split; [| split]].
  - destruct Hall as [[active Hp] | Hp]; rewrite Hp; [| reflexivity].
    apply bool_decide_eq_true. destruct active; cbn; lia.
  - intros level level' Hpass Hle. destruct Hall as [[active Hp] | Hp]; rewrite Hp in *;
      [| reflexivity].
    apply bool_decide_eq_true in Hpass. apply bool_decide_eq_true. lia.
  - intros given active -> Hlower level.
    assert (Hne : given <> "") by (intros ->; destruct active; discriminate).
    rewrite (passes_named (Some given) active).
    + apply bool_decide_eq_true.
    + unfold envLevel, Config.orDefault. rewrite (truthy_nonempty _ Hne). exact Hlower.
  - intros Hdefault level.
    assert (Hun : lookup (envLevel LOG_LEVEL) = Undefined
                  \/ envLevel LOG_LEVEL = levelName info).
    { destruct Hdefault as [Hunset | Hun]; [right | left; exact Hun].
      unfold envLevel, Config.orDefault. rewrite Hunset. reflexivity. }
    destruct Hun as [Hun | Hinfo].
    + rewrite (passes_unknown _ Hun). destruct level; reflexivity.
    + rewrite (passes_named _ info Hinfo). destruct level; reflexivity.
Qed.

Lemma destinations_cases (LOG_FILE : option string) (setup : FileSetup) :
  destinations LOG_FILE setup = [Stderr] \/ destinations LOG_FILE setup = [Stderr; LogFile].
Proof.
  unfold destinations. destruct (Config.truthy LOG_FILE); [| auto].
  destruct (_ && _); [auto |]. destruct (appendFails setup); auto.
Qed.

(** X19. Where a line goes.  A line that passes the filter is offered to
    stderr first and then to the log file when there is one; as long as
    stderr takes what is written to it, [write] does not throw, stderr
    receives the line once, the file receives it once unless its stream
    throws, and then stderr receives the failure notice instead.  A line
    that does not pass is written nowhere.  [write] throws only when both
    stderr and the file stream throw. *)
Theorem write_delivers (throws : Destination -> bool) (LOG_LEVEL LOG_FILE : option string)
    (setup : FileSetup) (now : string) (level : LogLevel) (message failure : string)
    (s : Streams) :
  let dests := destinations LOG_FILE setup in
  let line := formatLine now level message in
  let out := write throws LOG_LEVEL dests now level message failure s in
  (passes LOG_LEVEL level = false -> out = Some s)
  /\ (passes LOG_LEVEL level = true -> throws Stderr = false ->
      exists s',
        out = Some s'
        /\ stderrLines s'
           = stderrLines s ++ line
               :: (if bool_decide (LogFile ∈ dests) && throws LogFile then [failure] else [])
        /\ fileLines s'
           = fileLines s
               ++ (if bool_decide (LogFile ∈ dests) && negb (throws LogFile) then [line]
                   else []))
  /\ (out = None -> throws Stderr = true /\ throws LogFile = true /\ LogFile ∈ dests).
Proof.
  cbn zeta. unfold write.
  assert (Hno : bool_decide (LogFile ∈ [Stderr]) = false).
  { apply bool_decide_eq_false. intros Hin. apply elem_of_cons in Hin as [[=] | Hin].
    inversion Hin. }
  assert (Hyes : LogFile ∈ [Stderr; LogFile]) by (right; left).
  destruct (destinations_cases LOG_FILE setup) as [-> | ->];
    rewrite ?Hno, ?(bool_decide_eq_true_2 _ Hyes);
    destruct (passes LOG_LEVEL level); cbn [deliver andb]; unfold writeTo.
  - split; [discriminate |]. split.
    + intros _ ->. eexists. split; [reflexivity |]. cbn. rewrite app_nil_r. auto.
    + destruct (throws Stderr); discriminate.
  - split; [reflexivity |]. split; discriminate.
  - split; [discriminate |]. split.
    + intros _ ->. destruct (throws LogFile); cbn [negb];
        eexists; (split; [reflexivity |]); cbn; rewrite ?app_nil_r, <- ?app_assoc; auto.
    + destruct (throws Stderr), (throws LogFile); cbn; try discriminate. auto.
  - split; [reflexivity |]. split; discriminate.
Qed.

End LoggerProperties.

Lemma write_level_filter_witness :
  Logger.passes (Some "WARN") Logger.info = true
  <-> Logger.LEVEL_PRIORITY Logger.warn <= Logger.LEVEL_PRIORITY Logger.info.
Proof.
  exact (proj1 (proj2 (proj2 (write_level_filter (Some "WARN")))) "WARN" Logger.warn
           eq_refl eq_refl Logger.info).
Defined.

Lemma write_delivers_witness :
  let throws := fun d => match d with Logger.Stderr => false | Logger.LogFile => true end in
  let setup := {| Logger.parentExists := true; Logger.mkdirFails := false;
                  Logger.appendFails := false |} in
  let s := {| Logger.stderrLines := []; Logger.fileLines := [] |} in
  exists s',
    Logger.write throws None (Logger.destinations (Some "kb.log") setup)
      "t" Logger.error "boom" "Failed to write log" s = Some s'
    /\ Logger.stderrLines s'
       = Logger.stderrLines s ++ Logger.formatLine "t" Logger.error "boom"
           :: (if bool_decide (Logger.LogFile ∈ Logger.destinations (Some "kb.log") setup)
                  && throws Logger.LogFile
               then ["Failed to write log"] else [])
    /\ Logger.fileLines s'
       = Logger.fileLines s
           ++ (if bool_decide (Logger.LogFile ∈ Logger.destinations (Some "kb.log") setup)
                  && negb (throws Logger.LogFile)
               then [Logger.formatLine "t" Logger.error "boom"] else []).
Proof.
  intros throws setup s.
  apply (proj1 (proj2 (write_delivers throws None (Some "kb.log") setup "t" Logger.error
                         "boom" "Failed to write log" s))); reflexivity.
Defined.

(** ** The tool handlers *)

Section Server.

Import KnowledgeBaseServer.

Variable env : Env.
Variable render : Render.
Variable search :
  Store -> string -> nat -> FaissIndexManager.ScoreFilter -> Res (list (Document * Q)).

Local Abbreviation call := (callTool env render search).

Lemma tryCatch_replies {A} (m : M A) ok line withStack prefix w :
  repliesCleanly (tryCatch render m ok line withStack prefix w).
Proof.
  unfold tryCatch. destruct (m w) as [[a | e] w'];
    eexists; (split; [reflexivity |]); cbn; [left | right]; split; congruence.
Qed.

Lemma raise_untouched code message w : raisesUntouched code w (raise code message w).
Proof. unfold raise, raisesUntouched. cbn. eauto. Qed.

(** Membership in a list written out. *)
Ltac member := solve [repeat (first [left | right])].

Lemma elem_of_tools (t : Tool) :
  t ∈ tools ->
  name t ∈ ["list_knowledge_bases"; "retrieve_knowledge"; "suggest_url";
            "list_pending_urls"; "approve_url"; "reject_url"; "add_url"].
Proof.
  unfold tools. intros Hin.
  repeat (apply elem_of_cons in Hin as [-> | Hin]; [cbn; member |]).
  inversion Hin.
Qed.

Lemma carries_none (t : Tool) (field : string) :
  field ∈ required t -> ~ carriesRequired t None.
Proof. intros Hin Hc. destruct (Hc field Hin) as (fields & s & [=] & _). Qed.

Lemma carries_field (t : Tool) (fields : gmap string Json) (field : string) :
  field ∈ required t -> asString (fields !! field) = None ->
  ~ carriesRequired t (Some fields).
Proof.
  intros Hin Hnone Hc. destruct (Hc field Hin) as (fields' & s & [= <-] & Hs).
  rewrite Hs in Hnone. discriminate.
Qed.

Lemma asString_some (v : option Json) (s : string) :
  asString v = Some s -> v = Some (JString s).
Proof. destruct v as [[] |]; cbn; congruence. Qed.

(** X20. A tool call is answered, and not thrown back, exactly when the
    tool is one of those advertised and the arguments carry every property
    its schema requires, as a string.  An unknown tool raises
    [MethodNotFound] and missing or ill-typed required arguments raise
    [InvalidParams]; either way nothing is logged and nothing has changed.
    Every other failure comes back as a reply flagged [isError], with the
    error logged; a reply that is not flagged logs nothing. *)
Theorem callTool_answers_by_schema (uuid now toolName : string) (args : Args) (w : World) :
  let out := call uuid now toolName args w in
  ((exists t, t ∈ tools /\ name t = toolName /\ carriesRequired t args)
   /\ repliesCleanly out)
  \/ ((forall t, t ∈ tools -> name t <> toolName)
      /\ raisesUntouched MethodNotFound w out)
  \/ ((exists t, t ∈ tools /\ name t = toolName /\ ~ carriesRequired t args)
      /\ raisesUntouched InvalidParams w out).
Proof.
  cbn zeta. unfold callTool.
  destruct (String.eqb_spec toolName "list_knowledge_bases") as [-> | H1].
  { left. split; [| apply tryCatch_replies].
    eexists. split; [left |]. split; [reflexivity |]. intros field Hf. inversion Hf. }
  destruct (String.eqb_spec toolName "retrieve_knowledge") as [-> | H2].
  { unfold handleRetrieveKnowledge.
    set (t := {| name := "retrieve_knowledge";
                 properties := [("query", TString); ("knowledge_base_name", TString);
                                ("threshold", TNumber)];
                 required := ["query"] |}).
    assert (Ht : t ∈ tools) by (unfold tools; member).
    destruct args as [fields |].
    2:{ right. right. split; [| apply raise_untouched].
        exists t. split; [exact Ht |]. split; [reflexivity |].
        apply (carries_none t "query"). left. }
    destruct (asString (fields !! "query")) as [query |] eqn:Hq.
    - left. split; [| apply tryCatch_replies].
      exists t. split; [exact Ht |]. split; [reflexivity |].
      intros field Hf. apply list_elem_of_singleton in Hf as ->.
      exists fields, query. split; [reflexivity | apply asString_some, Hq].
    - right. right. split; [| apply raise_untouched].
      exists t. split; [exact Ht |]. split; [reflexivity |].
      apply (carries_field t fields "query"); [left | exact Hq]. }
  destruct (String.eqb_spec toolName "suggest_url") as [-> | H3].
  { unfold handleSuggestUrl.
    set (t := {| name := "suggest_url";
                 properties := [("url", TString); ("knowledge_base", TString);
                                ("reason", TString)];
                 required := ["url"; "knowledge_base"; "reason"] |}).
    assert (Ht : t ∈ tools) by (unfold tools; member).
    destruct args as [fields |].
    2:{ right. right. split; [| apply raise_untouched].
        exists t. split; [exact Ht |]. split; [reflexivity |].
        apply (carries_none t "url"). left. }
    destruct (asString (fields !! "url")) as [u |] eqn:Hu.
    2:{ right. right. split; [| apply raise_untouched].
        exists t. split; [exact Ht |]. split; [reflexivity |].
        apply (carries_field t fields "url"); [left | exact Hu]. }
    destruct (asString (fields !! "knowledge_base")) as [kb |] eqn:Hkb.
    2:{ right. right. split; [| apply raise_untouched].
        exists t. split; [exact Ht |]. split; [reflexivity |].
        apply (carries_field t fields "knowledge_base"); [right; left | exact Hkb]. }
    destruct (asString (fields !! "reason")) as [rs |] eqn:Hrs.
    2:{ right. right. split; [| apply raise_untouched].
        exists t. split; [exact Ht |]. split; [reflexivity |].
        apply (carries_field t fields "reason"); [right; right; left | exact Hrs]. }
    left. split; [| apply tryCatch_replies].
    exists t. split; [exact Ht |]. split; [reflexivity |].
    intros field Hf. exists fields.
    repeat (apply elem_of_cons in Hf as [-> | Hf];
            [eexists; split; [reflexivity | apply asString_some; eassumption] |]).
    inversion Hf. }
  destruct (String.eqb_spec toolName "list_pending_urls") as [-> | H4].
  { left. split; [| apply tryCatch_replies].
    eexists. split; [do 3 right; left |]. split; [reflexivity |].
    intros field Hf. inversion Hf. }
  destruct (String.eqb_spec toolName "approve_url") as [-> | H5].
  { unfold handleApproveUrl.
    set (t := {| name := "approve_url"; properties := [("id", TString)];
                 required := ["id"] |}).
    assert (Ht : t ∈ tools) by (unfold tools; member).
    destruct args as [fields |].
    2:{ right. right. split; [| apply raise_untouched].
        exists t. split; [exact Ht |]. split; [reflexivity |].
        apply (carries_none t "id"). left. }
    destruct (asString (fields !! "id")) as [i |] eqn:Hi.
    - left. split; [| apply tryCatch_replies].
      exists t. split; [exact Ht |]. split; [reflexivity |].
      intros field Hf. apply list_elem_of_singleton in Hf as ->.
      exists fields, i. split; [reflexivity | apply asString_some, Hi].
    - right. right. split; [| apply raise_untouched].
      exists t. split; [exact Ht |]. split; [reflexivity |].
      apply (carries_field t fields "id"); [left | exact Hi]. }
  destruct (String.eqb_spec toolName "reject_url") as [-> | H6].
  { unfold handleRejectUrl.
    set (t := {| name := "reject_url"; properties := [("id", TString)];
                 required := ["id"] |}).
    assert (Ht : t ∈ tools) by (unfold tools; member).
    destruct args as [fields |].
    2:{ right. right. split; [| apply raise_untouched].
        exists t. split; [exact Ht |]. split; [reflexivity |].
        apply (carries_none t "id"). left. }
    destruct (asString (fields !! "id")) as [i |] eqn:Hi.
    - left. split; [| apply tryCatch_replies].
      exists t. split; [exact Ht |]. split; [reflexivity |].
      intros field Hf. apply list_elem_of_singleton in Hf as ->.
      exists fields, i. split; [reflexivity | apply asString_some, Hi].
    - right. right. split; [| apply raise_untouched].
      exists t. split; [exact Ht |]. split; [reflexivity |].
      apply (carries_field t fields "id"); [left | exact Hi]. }
  destruct (String.eqb_spec toolName "add_url") as [-> | H7].
  { unfold handleAddUrl.
    set (t := {| name := "add_url";
                 properties := [("url", TString); ("knowledge_base", TString)];
                 required := ["url"; "knowledge_base"] |}).
    assert (Ht : t ∈ tools) by (unfold tools; member).
    destruct args as [fields |].
    2:{ right. right. split; [| apply raise_untouched].
        exists t. split; [exact Ht |]. split; [reflexivity |].
        apply (carries_none t "url"). left. }
    destruct (asString (fields !! "url")) as [u |] eqn:Hu.
    2:{ right. right. split; [| apply raise_untouched].
        exists t. split; [exact Ht |]. split; [reflexivity |].
        apply (carries_field t fields "url"); [left | exact Hu]. }
    destruct (asString (fields !! "knowledge_base")) as [kb |] eqn:Hkb.
    2:{ right. right. split; [| apply raise_untouched].
        exists t. split; [exact Ht |]. split; [reflexivity |].
        apply (carries_field t fields "knowledge_base"); [right; left | exact Hkb]. }
    left. split; [| apply tryCatch_replies].
    exists t. split; [exact Ht |]. split; [reflexivity |].
    intros field Hf. exists fields.
    repeat (apply elem_of_cons in Hf as [-> | Hf];
            [eexists; split; [reflexivity | apply asString_some; eassumption] |]).
    inversion Hf. }
  right. left. split; [| apply raise_untouched].
  intros t Ht%elem_of_tools Heq. rewrite Heq in Ht.
  repeat (apply elem_of_cons in Ht as [-> | Ht]; [congruence |]). inversion Ht.
Qed.

(** X21. Asking before anything is indexed.  When there is no store in
    memory and the scan finds no file in the knowledge bases it goes
    through, [retrieve_knowledge] does not answer with an empty result: the
    search throws, and the reply is flagged [isError] with the message that
    the index is not initialized.  The call has changed nothing but the
    log. *)
Theorem retrieve_knowledge_without_index (fields : gmap string Json) (query : string) (w : World) :
  let kb := asString (fields !! "knowledge_base_name") in
  fields !! "query" = Some (JString query) ->
  faissIndex w = None ->
  (Config.truthy kb = None -> is_Some (rootDir w)) ->
  (forall name,
     name ∈ knowledgeBasesOf kb w -> Str.startsWithDot name = false ->
     Utils.traverse (FaissIndexManager.knowledgeBasePathOf env name) (kbDirs w !! name) = []) ->
  let out := handleRetrieveKnowledge env render search (Some fields) w in
  outcome out
  = Reply {| text := "Error retrieving knowledge: FAISS index is not initialized";
             isError := true |}
  /\ logged out = LogRetrieving NotInitialized :: stackLines render NotInitialized
  /\ exists evs, after out = set_trace (trace w ++ evs) w /\ Forall quiet evs.
Proof.
  intros kb Hquery Hnull Hroot Hempty. cbn zeta.
  unfold handleRetrieveKnowledge. rewrite Hquery. cbn [asString]. fold kb.
  destruct (mainLoop_quiet env (knowledgeBasesOf kb w) false w) as (evs & Hmain & Hq).
  { intros name Hname Hdot f Hf. rewrite (Hempty name Hname Hdot) in Hf. inversion Hf. }
  assert (Hflag : flagAfter env (kbDirs w) false (knowledgeBasesOf kb w) = false).
  { clear Hmain. unfold flagAfter.
    induction (knowledgeBasesOf kb w) as [| name kbs IH]; cbn [fold_left]; [reflexivity |].
    destruct (Str.startsWithDot name) eqn:Hdot.
    - apply IH. intros n Hn. apply Hempty. right. exact Hn.
    - rewrite (Hempty name ltac:(left) Hdot). apply IH.
      intros n Hn. apply Hempty. right. exact Hn. }
  rewrite Hflag in Hmain.
  assert (Hupdate : FaissIndexManager.updateIndex env kb w
                    = (Ok tt, set_trace (trace w ++ evs) w)).
  { eapply updateIndex_ok_intro; [exact Hroot | exact Hmain |].
    rewrite andb_false_r. reflexivity. }
  unfold tryCatch. rewrite bind_eq, Hupdate.
  unfold FaissIndexManager.similaritySearch. rewrite bind_eq. cbn [gets faissIndex set_trace].
  rewrite Hnull. cbn. split; [reflexivity |]. split; [reflexivity |]. eauto.
Qed.

End Server.

(** ** What changed gets indexed *)

Section Completeness.

Import FaissIndexManager.

Variable env : Env.

Ltac branches :=
  repeat (go;
          match goal with
          | |- context [match ?x with _ => _ end] =>
              lazymatch x with
              | context [match _ with _ => _ end] => fail
              | _ => destruct x eqn:?
              end
          end);
  go.

Lemma processFile_effect kbPath f w r w' :
  processFile env kbPath f w = (r, w') ->
  (forall d, d ∈ default [] (faissIndex w) -> d ∈ default [] (faissIndex w'))
  /\ ((hashRecords w' = hashRecords w
       /\ (isOk r = true -> storeFile w' = storeFile w /\ faissIndex w' = faissIndex w))
      \/ (isOk r = true
          /\ (exists h, hashRecords w' = <[indexFilePathOf kbPath f := h]> (hashRecords w))
          /\ is_Some (faissIndex w')
          /\ storeFile w' = faissIndex w'
          /\ forall d, d ∈ documentsOf env w f -> d ∈ default [] (faissIndex w'))).
Proof.
  unfold processFile, calculateSHA256, mkdirIndexDir, readText, createDocuments,
    indexDocuments, addToIndex, saveIndex, writeHashRecord, handleFsOperationError,
    documentsOf.
  branches.
  all: intros [= <- <-]; cbn.
  all: split; [intros d0 Hd0; rewrite ?elem_of_app; auto |].
  all: try (left; split; [reflexivity | first [discriminate | auto]]; fail).
  all: right; split; [reflexivity |]; split; [eexists; reflexivity |];
    split; [eauto |]; split; [reflexivity |];
    intros d0 Hd0; apply elem_of_app; right; exact Hd0.
Qed.

Lemma advances_refl w : advances env w true w.
Proof.
  split; [apply keepsTree_refl |]. split; [auto |]. split; [intros _; left; auto |].
  intros name rel _. left. reflexivity.
Qed.

Lemma advances_trans w1 w2 w3 ok :
  advances env w1 true w2 -> advances env w2 ok w3 -> advances env w1 ok w3.
Proof.
  intros (Ht12 & Hs12 & Hu12 & Hr12) (Ht23 & Hs23 & Hu23 & Hr23).
  split; [eapply keepsTree_trans; eauto |]. split; [auto |].
  split; [eapply savedOrUntouched_trans; eauto |].
  intros name rel Hne.
  destruct (Hr23 name rel Hne) as [Hsame23 | [Hdocs23 Hsaved23]].
  - destruct (Hr12 name rel Hne) as [Hsame12 | [Hdocs12 Hsaved12]];
      [left; congruence | right].
    split; [auto |]. intros Hok.
    destruct (Hu23 Hok) as [[Hs Hi] | [_ Hsaved]]; [| exact Hsaved].
    rewrite Hs, Hi. auto.
  - right. split; [| exact Hsaved23].
    intros d Hd. apply Hdocs23. destruct Ht12 as (_ & _ & Hfiles).
    rewrite (documentsOf_same env w1 w2 _ Hfiles). exact Hd.
Qed.

Lemma calm_advances w ok w' : calm w ok w' -> advances env w ok w'.
Proof.
  intros Hcalm. destruct (calm_fields _ _ _ Hcalm) as (_ & _ & _ & Hrec & Hidx & Hstore).
  split; [apply calm_keepsTree, Hcalm |]. split; [rewrite Hidx; auto |].
  split; [intros _; left; auto |]. intros name rel _. left. rewrite Hrec. reflexivity.
Qed.

Lemma processFile_advances name f :
  below (knowledgeBasePathOf env name) f ->
  sat always (advances env) (processFile env (knowledgeBasePathOf env name) f).
Proof.
  intros Hbelow w r w' _ Hrun.
  destruct (processFile_grows env name f Hbelow _ _ _ Logic.I Hrun) as (Htree & _ & _).
  destruct Hbelow as (rel & Hne & _ & ->).
  destruct (processFile_effect _ _ _ _ _ Hrun) as [Hstore Hcases].
  split; [exact Htree |]. split; [exact Hstore |].
  destruct Hcases as [[Hrec Hsame] | (Hok & [h Hrec] & Hsome & Hsaved & Hdocs)].
  - split; [intros Hok; left; apply Hsame; destruct r; [reflexivity | discriminate] |].
    intros name' rel' _. left. rewrite Hrec. reflexivity.
  - split; [intros _; right; auto |].
    intros name' rel' Hne'. rewrite Hrec, (indexFilePathOf_below _ _ Hne).
    destruct (decide (knowledgeBasePathOf env name' ++ ".index" :: rel'
                      = knowledgeBasePathOf env name ++ ".index" :: rel)) as [Heq | Hother].
    + right. apply record_injective in Heq as [-> ->]. auto.
    + left. rewrite lookup_insert_ne by congruence. reflexivity.
Qed.

Lemma mainLoop_advances any kbs :
  sat always (advances env) (foldM (scanKnowledgeBase env) any kbs).
Proof.
  apply (sat_foldM always _ advances_refl advances_trans (always_stable _)).
  intros b name _. unfold scanKnowledgeBase.
  destruct (Str.startsWithDot name); [apply sat_ret, advances_refl |].
  apply (sat_bind_with always _ advances_trans (always_stable _)
           (Forall (below (knowledgeBasePathOf env name)))).
  - eapply sat_weaken; [apply calm_advances | apply sat_calm_getFilesRecursively].
  - intros w files w' _ Hrun. apply getFilesRecursively_outcome in Hrun as [[= ->] _].
    apply traverse_all_below.
  - intros files Hfiles. rewrite Forall_forall in Hfiles.
    apply (sat_foldM always _ advances_refl advances_trans (always_stable _)).
    intros b' f Hf. apply (sat_bind always _ advances_trans (always_stable _)).
    + apply processFile_advances, Hfiles, Hf.
    + intros _. apply sat_ret, advances_refl.
Qed.

(** X22. What is new or has changed gets indexed.  When [updateIndex]
    returns normally, every document of a scanned file whose hash record did
    not hold the digest of its bytes is in the store, and the store on disk
    is the one in memory. *)
Theorem updateIndex_indexes_what_changed (kb : option string) (w w' : World)
    (name : string) (f : Path) (bytes : string) :
  updateIndex env kb w = (Ok tt, w') ->
  name ∈ knowledgeBasesOf kb w -> Str.startsWithDot name = false ->
  f ∈ Utils.traverse (knowledgeBasePathOf env name) (kbDirs w !! name) ->
  files w !! f = Some bytes ->
  hashRecords w !! indexFilePathOf (knowledgeBasePathOf env name) f
  <> Some (sha256hex env bytes) ->
  forall d,
    d ∈ documentsOf env w f ->
    d ∈ default [] (faissIndex w') /\ storeFile w' = faissIndex w'.
Proof.
  intros Hrun Hname Hdot Hf Hbytes Hstale d Hd.
  destruct (updateIndex_ok_inv env _ _ _ Hrun) as (_ & any & wm & Hmain & Hrest).
  pose proof (mainLoop_settles env _ _ _ _ _ Hmain name Hname Hdot f Hf)
    as (bytes' & Hb' & _ & _ & Hcases).
  destruct (mainLoop_advances _ _ _ _ _ Logic.I Hmain) as ((_ & _ & Hfiles) & _ & _ & Hrec).
  destruct (traverse_below _ _ _ Hf) as (rel & Hne & _ & ->).
  rewrite Hfiles, Hbytes in Hb'. injection Hb' as <-.
  rewrite (indexFilePathOf_below _ _ Hne) in *.
  assert (Hin : d ∈ default [] (faissIndex wm) /\ storeFile wm = faissIndex wm).
  { destruct (Hrec name rel Hne) as [Hsame | [Hdocs Hsaved]]; [| auto].
    exfalso. revert Hd. unfold documentsOf. rewrite Hbytes.
    destruct Hcases as [Hstored | [-> | (-> & _ & ->)]];
      [congruence | inversion 1 |].
    destruct (fault env _); inversion 1. }
  destruct Hin as [Hin Hsaved].
  destruct (bool_decide (faissIndex wm = None) && any) eqn:Hcond; cbn [when] in Hrest.
  - apply andb_true_iff in Hcond as [Hnone%bool_decide_eq_true _].
    rewrite Hnone in Hin. inversion Hin.
  - injection Hrest as <-. auto.
Qed.

End Completeness.

Lemma updateIndex_indexes_what_changed_witness :
  let env := Fixtures.plainEnv Fixtures.noFault in
  let w' := (FaissIndexManager.updateIndex env None Fixtures.twoFileWorld).2 in
  FaissIndexManager.mkDocument (Fixtures.kb1Path ++ ["a.md"]) "# Hello"
    ∈ default [] (faissIndex w')
  /\ storeFile w' = faissIndex w'.
Proof.
  intros env w'.
  apply (updateIndex_indexes_what_changed env None Fixtures.twoFileWorld w' "kb1"
           (Fixtures.kb1Path ++ ["a.md"]) "# Hello").
  - vm_compute. reflexivity.
  - left.
  - reflexivity.
  - left.
  - reflexivity.
  - discriminate.
  - left.
Defined.

(** ** More on the pending list *)

Section PendingFrame.

Import FaissIndexManager UrlManager.

Variable env : Env.

Lemma savePendingUrls_only urls w :
  onlyPendingListChanged w (savePendingUrls env urls w).2.
Proof.
  unfold savePendingUrls, onlyPendingListChanged. run.
  destruct (pendingDir w) eqn:Hdir; run;
    repeat (destruct (fault env _); run); destruct w; cbn in *; subst; reflexivity.
Qed.

(** X23. Suggesting, listing and rejecting act on the pending list alone:
    whatever their outcome, the knowledge bases, their files, the store, the
    hash records and the log are as they were, and listing changes nothing
    at all.  So rejecting a URL that was approved earlier removes its record
    and leaves its file, and what was indexed from it, in place. *)
Theorem pending_list_operations_touch_only_the_list
    (uuid now u kb rs i : string) (w : World) :
  onlyPendingListChanged w (suggestUrl env uuid now u kb rs w).2
  /\ (listPendingUrls w).2 = w
  /\ onlyPendingListChanged w (rejectUrl env i w).2.
Proof.
  split; [| split].
  - unfold suggestUrl. rewrite bind_eq, loadPendingUrls_run, bind_eq.
    pose proof (savePendingUrls_only
                  (pendingUrlsOf w ++ [{| id := uuid; url := u; knowledge_base := kb;
                                          reason := rs; suggested_at := now;
                                          status := pending |}]) w) as Honly.
    destruct (savePendingUrls env _ w) as [[[] | e] w1]; exact Honly.
  - unfold listPendingUrls. rewrite bind_eq, loadPendingUrls_run. reflexivity.
  - unfold rejectUrl. rewrite bind_eq, loadPendingUrls_run.
    destruct (findIndex (hasId i) (pendingUrlsOf w)) as [idx |].
    + apply savePendingUrls_only.
    + cbn. unfold onlyPendingListChanged. destruct w; reflexivity.
Qed.

(** X24. The approval is recorded before the re-indexing.  When [approveUrl]
    throws and the pending list is no longer what it was, the error is the
    one of the re-indexing: the markdown file is written and the record is
    already [approved], so approving the same id again is refused while the
    page may not be indexed yet. *)
Theorem approveUrl_records_before_reindexing (i now : string) (w : World) (e : Error) (w' : World) :
  approveUrl env (Fixtures.reindexWith env) i now w = (Err e, w') ->
  pendingFile w' <> pendingFile w ->
  exists entry w2,
    List.find (hasId i) (pendingUrlsOf w) = Some entry
    /\ status entry = pending
    /\ updateIndex env (Some (knowledge_base entry)) w2 = (Err e, w')
    /\ pendingFile w' = Listed (approveFound i (pendingUrlsOf w))
    /\ is_Some (files w' !! (knowledgeBasePathOf env (knowledge_base entry)
                               ++ [Sanitize.sanitizeUrlForFilename (url entry) +:+ ".md"]))
    /\ forall now',
         approveUrl env (Fixtures.reindexWith env) i now' w'
         = (Err (NotPending i approved), w').
Proof.
  unfold approveUrl at 1, Fixtures.reindexWith.
  rewrite bind_eq, loadPendingUrls_run.
  destruct (List.find (hasId i) (pendingUrlsOf w)) as [entry |] eqn:Hfind;
    [| intros [= _ <-]; congruence].
  destruct (isPending entry) eqn:Hpending; cbn [negb]; [| intros [= _ <-]; congruence].
  rewrite bind_eq.
  destruct (fetchAndConvert env (url entry) w) as [[c | e0] w0] eqn:Hfetch;
    apply fetchAndConvert_pure in Hfetch as ->; [| intros [= _ <-]; congruence].
  rewrite bind_eq.
  destruct (saveMarkdown env (knowledge_base entry) (url entry) c.2 c.1 now w)
    as [[fp | e0] w1] eqn:Hsave.
  2:{ intros [= _ <-] Hdiff. exfalso. apply Hdiff.
      eapply saveMarkdown_pendingFile; eauto. }
  destruct (saveMarkdown_ok env _ _ _ _ _ _ _ _ Hsave) as (Hfp & Hfile & _).
  pose proof (saveMarkdown_pendingFile env _ _ _ _ _ _ _ _ Hsave) as Hpend1.
  rewrite bind_eq.
  destruct (savePendingUrls env _ w1) as [[[] | e0] w2] eqn:Hpend.
  2:{ intros [= _ <-] Hdiff. exfalso. apply Hdiff.
      rewrite (savePendingUrls_err env _ _ _ _ Hpend). exact Hpend1. }
  pose proof (savePendingUrls_written env _ _ _ Hpend) as Hwritten.
  apply savePendingUrls_frame in Hpend as (Hfiles2 & _).
  rewrite bind_eq.
  destruct (updateIndex env (Some (knowledge_base entry)) w2) as [[[] | e0] w3] eqn:Hrun;
    [discriminate |].
  destruct (updateIndex_keepsPending env _ _ _ _ Logic.I Hrun) as [_ Hpending3].
  destruct (updateIndex_keepsTree env _ _ _ _ Logic.I Hrun) as (_ & _ & Hfiles3).
  intros [= <- <-] _. exists entry, w2.
  assert (Hafter : pendingUrlsOf w3 = approveFound i (pendingUrlsOf w)).
  { unfold pendingUrlsOf at 1. rewrite Hpending3, Hwritten. reflexivity. }
  split; [reflexivity |]. split; [apply isPending_true, Hpending |].
  split; [exact Hrun |]. split; [rewrite Hpending3; exact Hwritten |].
  split; [rewrite Hfiles3, Hfiles2, <- Hfp, Hfile; eauto |].
  intros now'. unfold approveUrl. rewrite bind_eq, loadPendingUrls_run, Hafter.
  rewrite (find_approveFound _ _ _ Hfind). reflexivity.
Qed.

End PendingFrame.

(** ** A named knowledge base *)

Section Scoped.

Import FaissIndexManager.

Variable env : Env.
Variable kbs : list string.

Lemma scopedTo_refl w : scopedTo env kbs w true w.
Proof. split; [auto | apply indexesOnly_refl]. Qed.

Lemma scopedTo_trans w1 w2 w3 ok :
  scopedTo env kbs w1 true w2 -> scopedTo env kbs w2 ok w3 -> scopedTo env kbs w1 ok w3.
Proof.
  intros [Hr12 Hi12] [Hr23 Hi23]. split; [| eapply indexesOnly_trans; eauto].
  intros name rel Hout. rewrite Hr23, Hr12 by exact Hout. reflexivity.
Qed.

Lemma calm_scopedTo w ok w' : calm w ok w' -> scopedTo env kbs w ok w'.
Proof.
  intros Hcalm. split; [| apply calm_indexesOnly, Hcalm].
  destruct (calm_fields _ _ _ Hcalm) as (_ & _ & _ & Hrec & _).
  intros name rel _. rewrite Hrec. reflexivity.
Qed.

Lemma processFile_scopedTo name f :
  name ∈ kbs -> below (knowledgeBasePathOf env name) f ->
  sat always (scopedTo env kbs) (processFile env (knowledgeBasePathOf env name) f).
Proof.
  intros Hname Hbelow w r w' _ Hrun. split.
  - destruct (processFile_grows env name f Hbelow _ _ _ Logic.I Hrun) as (_ & _ & Hrec).
    destruct Hbelow as (rel & Hne & _ & ->).
    intros name' rel' Hout.
    destruct (processFile_effect env _ _ _ _ _ Hrun) as [_ [[Hsame _] | (_ & [h Hins] & _)]];
      [rewrite Hsame; reflexivity |].
    rewrite Hins, (indexFilePathOf_below _ _ Hne), lookup_insert_ne; [reflexivity |].
    intros Heq. apply record_injective in Heq as [<- _]. contradiction.
  - destruct (processFile_cases env _ _ _ _ _ Hrun)
      as [[_ Hcalm]
         | (bytes & w0 & _ & _ & Hcalm & _
            & [(-> & -> & _) | (docs & _ & Hsrc & _ & Hidx)])].
    + apply calm_indexesOnly, Hcalm.
    + apply calm_indexesOnly, Hcalm.
    + eapply indexesOnly_trans; [apply calm_indexesOnly, Hcalm |].
      eapply index_indexesOnly; [| exact Hidx].
      eapply Forall_impl; [exact Hsrc |]. intros d <-. exists name. auto.
Qed.

Lemma mainLoop_scopedTo any :
  sat always (scopedTo env kbs) (foldM (scanKnowledgeBase env) any kbs).
Proof.
  apply (sat_foldM always _ scopedTo_refl scopedTo_trans (always_stable _)).
  intros b name Hname. unfold scanKnowledgeBase.
  destruct (Str.startsWithDot name); [apply sat_ret, scopedTo_refl |].
  apply (sat_bind_with always _ scopedTo_trans (always_stable _)
           (Forall (below (knowledgeBasePathOf env name)))).
  - eapply sat_weaken; [apply calm_scopedTo | apply sat_calm_getFilesRecursively].
  - intros w files w' _ Hrun. apply getFilesRecursively_outcome in Hrun as [[= ->] _].
    apply traverse_all_below.
  - intros files Hfiles. rewrite Forall_forall in Hfiles.
    apply (sat_foldM always _ scopedTo_refl scopedTo_trans (always_stable _)).
    intros b' f Hf. apply (sat_bind always _ scopedTo_trans (always_stable _)).
    + apply processFile_scopedTo; auto.
    + intros _. apply sat_ret, scopedTo_refl.
Qed.

Lemma documentsOf_source w f d : d ∈ documentsOf env w f -> source (metadata d) = f.
Proof.
  unfold documentsOf. destruct (fault env (ReadText f)); [inversion 1 |].
  destruct (files w !! f) as [content |]; [| inversion 1].
  destruct (isMarkdown f).
  - intros (chunk & -> & _)%list_elem_of_fmap. reflexivity.
  - intros ->%list_elem_of_singleton. reflexivity.
Qed.

Lemma allDocumentsOf_under w : sourcedIn (under env kbs) (allDocumentsOf env w kbs).
Proof.
  apply Forall_forall. intros d Hd. unfold allDocumentsOf in Hd.
  apply list_elem_of_In, List.in_flat_map in Hd as (name & Hname & Hd).
  destruct (Str.startsWithDot name); [inversion Hd |].
  apply List.in_flat_map in Hd as (f & Hf & Hd).
  apply list_elem_of_In in Hname, Hf, Hd.
  rewrite (documentsOf_source _ _ _ Hd). exists name. split; [exact Hname |].
  eapply traverse_below, Hf.
Qed.

Lemma rebuild_scopedTo : sat always (scopedTo env kbs) (rebuild env kbs).
Proof.
  unfold rebuild.
  apply (sat_bind_with always _ scopedTo_trans (always_stable _)
           (sourcedIn (under env kbs))).
  - eapply sat_weaken; [apply calm_scopedTo | apply sat_calm_collectAll].
  - intros w docs w' _ Hrun. apply collectAll_exact in Hrun as ->. cbn [app].
    apply allDocumentsOf_under.
  - intros [| d docs] Hsrc; [apply sat_ret, scopedTo_refl |].
    intros w r w' _ Hrun. split; [| eapply build_indexesOnly; eauto].
    destruct (buildFromAll_outcome env _ _ _ _ Hrun) as (_ & _ & _ & _ & Hrec & _).
    intros name rel _. rewrite Hrec. reflexivity.
Qed.

End Scoped.

Section Named.

Import FaissIndexManager.

Variable env : Env.


End Named.

(** ** Searching *)

Section Retrieve.

Import KnowledgeBaseServer.

Variable env : Env.
Variable render : Render.
Variable search :
  Store -> string -> nat -> FaissIndexManager.ScoreFilter -> Res (list (Document * Q)).


End Retrieve.

(** ** Extensions and hash records *)

Section Names.

Import FaissIndexManager.

Lemma lastDot_app s t i acc :
  Str.lastDot (s +:+ t) i acc = Str.lastDot t (i + String.length s) (Str.lastDot s i acc).
Proof.
  revert i acc. induction s as [| c s IH]; intros i acc.
  - cbn. rewrite Nat.add_0_r. reflexivity.
  - change (String c s +:+ t) with (String c (s +:+ t)). cbn [Str.lastDot String.length].
    rewrite IH. f_equal. lia.
Qed.

Lemma lastDot_noDot t i acc : everyChar noDot t = true -> Str.lastDot t i acc = acc.
Proof.
  revert i acc. induction t as [| c t IH]; intros i acc; cbn; [reflexivity |].
  intros [Hc Ht]%andb_true_iff. unfold noDot in Hc. apply negb_true_iff in Hc.
  rewrite Hc. apply IH, Ht.
Qed.

Lemma lastDot_dot ext i acc :
  everyChar noDot ext = true -> Str.lastDot ("." +:+ ext) i acc = Some i.
Proof.
  intros Hno. change ("." +:+ ext) with (String "."%char ext). cbn [Str.lastDot].
  change (Ascii.eqb "." ".") with true. cbn iota. apply lastDot_noDot, Hno.
Qed.

Lemma substring_all t : substring 0 (String.length t) t = t.
Proof. induction t as [| c t IH]; cbn; [reflexivity | rewrite IH; reflexivity]. Qed.

Lemma substring_suffix s t :
  substring (String.length s) (String.length (s +:+ t) - String.length s) (s +:+ t) = t.
Proof.
  induction s as [| c s IH].
  - cbn. rewrite Nat.sub_0_r. apply substring_all.
  - change (String c s +:+ t) with (String c (s +:+ t)). cbn. exact IH.
Qed.

Lemma string_length_app s t : String.length (s +:+ t) = String.length s + String.length t.
Proof.
  induction s as [| c s IH]; [reflexivity |].
  change (String c s +:+ t) with (String c (s +:+ t)). cbn. rewrite IH. reflexivity.
Qed.

Lemma basename_join (dir : Path) (name : string) : PathOps.basename (dir ++ [name]) = name.
Proof. unfold PathOps.basename. apply last_last. Qed.

Lemma extname_of base ext :
  base <> "" -> ext <> "" -> everyChar noDot ext = true ->
  Str.extname (base +:+ "." +:+ ext) = "." +:+ ext.
Proof.
  intros Hbase Hext Hno. unfold Str.extname.
  rewrite lastDot_app, (lastDot_dot _ _ _ Hno), Nat.add_0_l.
  destruct (String.length base) as [| n] eqn:Hlen; [destruct base; [congruence | discriminate] |].
  assert (Hnot : String.eqb (base +:+ "." +:+ ext) ".." = false).
  { apply String.eqb_neq. intros Heq. apply (f_equal String.length) in Heq.
    rewrite !string_length_app in Heq. destruct ext; [congruence |].
    cbn [String.length] in Heq. lia. }
  rewrite Hnot, <- Hlen. apply (substring_suffix base ("." +:+ ext)).
Qed.

Lemma extname_none name : everyChar noDot name = true -> Str.extname name = "".
Proof. intros Hno. unfold Str.extname. rewrite (lastDot_noDot _ _ _ Hno). reflexivity. Qed.

Lemma extname_dotfile ext : everyChar noDot ext = true -> Str.extname ("." +:+ ext) = "".
Proof.
  intros Hno. unfold Str.extname. rewrite (lastDot_dot _ _ _ Hno). reflexivity.
Qed.

(** X27. Which files are split as markdown.  A file whose name ends in a
    dot and an extension is split into chunks exactly when the extension,
    in any letter case, is [md]; a file with no dot in its name, or whose
    only dot is the first character, is indexed as one document. *)
Theorem isMarkdown_by_extension (dir : Path) (base ext : string) :
  everyChar noDot ext = true ->
  (base <> "" -> ext <> "" ->
   isMarkdown (dir ++ [base +:+ "." +:+ ext]) = String.eqb (Str.toLowerCase ext) "md")
  /\ isMarkdown (dir ++ [ext]) = false
  /\ isMarkdown (dir ++ ["." +:+ ext]) = false.
Proof.
  intros Hno. unfold isMarkdown. rewrite !basename_join. split; [| split].
  - intros Hbase Hext. rewrite (extname_of _ _ Hbase Hext Hno). reflexivity.
  - rewrite (extname_none _ Hno). reflexivity.
  - rewrite (extname_dotfile _ Hno). reflexivity.
Qed.

Variable env : Env.


End Names.

(** ** Instances *)

Lemma suggestUrl_appends_witness :
  exists entry w',
    UrlManager.suggestUrl (Fixtures.plainEnv Fixtures.noFault) "u3" "now" "https://x/new"
      "kb1" "why" Fixtures.pendingWorld = (Ok entry, w')
    /\ (id entry = "u3" /\ url entry = "https://x/new" /\ knowledge_base entry = "kb1"
        /\ reason entry = "why" /\ suggested_at entry = "now" /\ status entry = pending)
    /\ pendingFile w' = Listed (pendingUrlsOf Fixtures.pendingWorld ++ [entry])
    /\ UrlManager.listPendingUrls w'
       = (Ok (List.filter UrlManager.isPending (pendingUrlsOf Fixtures.pendingWorld)
                ++ [entry]), w')
    /\ (files w' = files Fixtures.pendingWorld /\ kbDirs w' = kbDirs Fixtures.pendingWorld
        /\ faissIndex w' = faissIndex Fixtures.pendingWorld
        /\ trace w' = trace Fixtures.pendingWorld).
Proof.
  apply (suggestUrl_appends (Fixtures.plainEnv Fixtures.noFault));
    [left; reflexivity | reflexivity].
Defined.

Lemma approveUrl_marks_approved_witness :
  let env := Fixtures.plainEnv Fixtures.noFault in
  let run := UrlManager.approveUrl env (Fixtures.reindexWith env) "u1" "now"
               Fixtures.pendingWorld in
  let out := (["kbs"; "kb1"; "x_doc.md"], "kb1") in
  exists entry,
    List.find (UrlManager.hasId "u1") (pendingUrlsOf Fixtures.pendingWorld) = Some entry
    /\ status entry = pending
    /\ out = (FaissIndexManager.knowledgeBasePathOf env (knowledge_base entry)
                ++ [Sanitize.sanitizeUrlForFilename (url entry) +:+ ".md"],
              knowledge_base entry)
    /\ is_Some (files run.2 !! out.1)
    /\ pendingFile run.2
       = Listed (UrlManager.approveFound "u1" (pendingUrlsOf Fixtures.pendingWorld))
    /\ List.find (UrlManager.hasId "u1") (pendingUrlsOf run.2)
       = Some (UrlManager.setApproved entry)
    /\ forall now',
         UrlManager.approveUrl env (Fixtures.reindexWith env) "u1" now' run.2
         = (Err (NotPending "u1" approved), run.2).
Proof.
  intros env run out.
  apply (approveUrl_marks_approved env "u1" "now" Fixtures.pendingWorld out run.2).
  vm_compute. reflexivity.
Defined.

Lemma addUrl_indexes_visible_file_witness :
  let env := Fixtures.plainEnv Fixtures.noFault in
  let fp := ["kbs"; "kb1"; "x_doc.md"] in
  let w' := (UrlManager.addUrl env (Fixtures.reindexWith env) "https://x/doc" "kb1" "now"
               Fixtures.twoFileWorld).2 in
  fp = FaissIndexManager.knowledgeBasePathOf env "kb1"
         ++ [Sanitize.sanitizeUrlForFilename "https://x/doc" +:+ ".md"]
  /\ (exists title md,
        files w' !! fp = Some (UrlManager.frontmatter env "https://x/doc" title "now" +:+ md))
  /\ fp ∈ Utils.traverse (FaissIndexManager.knowledgeBasePathOf env "kb1") (kbDirs w' !! "kb1")
  /\ settled env (FaissIndexManager.knowledgeBasePathOf env "kb1") fp w'.
Proof.
  intros env fp w'.
  apply (addUrl_indexes_visible_file env "https://x/doc" "kb1" "now" Fixtures.twoFileWorld).
  - reflexivity.
  - discriminate.
  - reflexivity.
  - intros entries [= <-] Hin.
    apply elem_of_cons in Hin as [[=] | Hin].
    apply elem_of_cons in Hin as [[=] | Hin]. inversion Hin.
  - vm_compute. reflexivity.
Defined.

Lemma retrieve_knowledge_without_index_witness :
  let env := Fixtures.plainEnv Fixtures.noFault in
  let fields : gmap string KnowledgeBaseServer.Json :=
    {[ "query" := KnowledgeBaseServer.JString "hello" ]} in
  let out := KnowledgeBaseServer.handleRetrieveKnowledge env Scenarios.plainRender
               Fixtures.referenceSearch (Some fields) Fixtures.emptyWorld in
  KnowledgeBaseServer.outcome out
  = KnowledgeBaseServer.Reply
      {| KnowledgeBaseServer.text := "Error retrieving knowledge: FAISS index is not initialized";
         KnowledgeBaseServer.isError := true |}
  /\ KnowledgeBaseServer.logged out
     = KnowledgeBaseServer.LogRetrieving NotInitialized
         :: KnowledgeBaseServer.stackLines Scenarios.plainRender NotInitialized
  /\ exists evs,
       KnowledgeBaseServer.after out
       = set_trace (trace Fixtures.emptyWorld ++ evs) Fixtures.emptyWorld
       /\ Forall quiet evs.
Proof.
  intros env fields out.
  apply (retrieve_knowledge_without_index env Scenarios.plainRender
           Fixtures.referenceSearch fields "hello" Fixtures.emptyWorld).
  - reflexivity.
  - reflexivity.
  - intros _. eexists. reflexivity.
  - intros name Hname. vm_compute in Hname. inversion Hname.
Defined.

Lemma approveUrl_records_before_reindexing_witness :
  let env := Fixtures.plainEnv Scenarios.noSave in
  let run := UrlManager.approveUrl env (Fixtures.reindexWith env) "u1" "now"
               Fixtures.pendingWorld in
  exists entry w2,
    List.find (UrlManager.hasId "u1") (pendingUrlsOf Fixtures.pendingWorld) = Some entry
    /\ status entry = pending
    /\ FaissIndexManager.updateIndex env (Some (knowledge_base entry)) w2
       = (Err (Thrown (SaveStore ["kbs"; "kb1"; "x_doc.md"])), run.2)
    /\ pendingFile run.2
       = Listed (UrlManager.approveFound "u1" (pendingUrlsOf Fixtures.pendingWorld))
    /\ is_Some (files run.2
                  !! (FaissIndexManager.knowledgeBasePathOf env (knowledge_base entry)
                        ++ [Sanitize.sanitizeUrlForFilename (url entry) +:+ ".md"]))
    /\ forall now',
         UrlManager.approveUrl env (Fixtures.reindexWith env) "u1" now' run.2
         = (Err (NotPending "u1" approved), run.2).
Proof.
  intros env run.
  apply (approveUrl_records_before_reindexing env "u1" "now" Fixtures.pendingWorld
           (Thrown (SaveStore ["kbs"; "kb1"; "x_doc.md"])) run.2).
  - vm_compute. reflexivity.
  - vm_compute. discriminate.
Defined.



Lemma isMarkdown_by_extension_witness :
  FaissIndexManager.isMarkdown (Fixtures.kb1Path ++ ["README" +:+ "." +:+ "MD"])
  = String.eqb (Str.toLowerCase "MD") "md".
Proof.
  apply (proj1 (isMarkdown_by_extension Fixtures.kb1Path "README" "MD" eq_refl));
    discriminate.
Defined.


(** ** Trying again after a save that failed *)

Section Retry.

Import FaissIndexManager.

Lemma processFile_reaches_index env kbPath f bytes w :
  files w !! f = Some bytes ->
  hashRecords w !! indexFilePathOf kbPath f <> Some (sha256hex env bytes) ->
  fault env (HashFile f) = false ->
  fault env (MkdirIndexDir (indexDirPathOf kbPath f)) = false ->
  fault env (ReadText f) = false ->
  fault env (SplitText f) = false ->
  documentsOf env w f <> [] ->
  exists w0,
    files w0 = files w /\ hashRecords w0 = hashRecords w /\ storeFile w0 = storeFile w
    /\ faissIndex w0 = faissIndex w
    /\ processFile env kbPath f w
       = indexDocuments env f (indexFilePathOf kbPath f) (sha256hex env bytes)
           (documentsOf env w f) w0.
Proof.
  intros Hb Hstale Hhash Hmkdir Hread Hsplit Hdocs.
  unfold processFile, calculateSHA256, mkdirIndexDir, readText, createDocuments.
  revert Hdocs. unfold documentsOf. rewrite Hread, Hb. intros Hdocs.
  go.
  destruct (bool_decide (indexDirPathOf kbPath f ∈ indexDirs w)); go;
    rewrite ?(bool_decide_eq_false_2 _ Hstale); go;
    (destruct (isMarkdown f); go;
     [destruct (map (mkDocument f) (splitMarkdown env bytes)) as [| d docs] eqn:Hmap;
      [congruence |] |]);
    eexists; (split; [| split; [| split; [| split; [| reflexivity]]]]); reflexivity.
Qed.

(** X29. Trying again after a save that failed.  When the save that follows
    the addition of a file's documents is refused, the documents stay in the
    store in memory while the store on disk and the hash records are as
    before; so when the file is processed again and the save goes through,
    its documents are added a second time, and the store then holds them
    twice, in memory and on disk. *)
Theorem retry_after_failed_save_adds_again (env : Env) (kbPath f : Path) (bytes : string) (w : World) :
  let later := withFaults env (fun _ => false) in
  let record := indexFilePathOf kbPath f in
  let docs := documentsOf env w f in
  files w !! f = Some bytes ->
  hashRecords w !! record <> Some (sha256hex env bytes) ->
  docs <> [] ->
  fault env (HashFile f) = false ->
  fault env (MkdirIndexDir (indexDirPathOf kbPath f)) = false ->
  fault env (ReadText f) = false ->
  fault env (SplitText f) = false ->
  fault env (Embed f) = false ->
  fault env (SaveStore f) = true ->
  exists w1 w2,
    processFile env kbPath f w = (Err (Thrown (SaveStore f)), w1)
    /\ storeFile w1 = storeFile w
    /\ hashRecords w1 = hashRecords w
    /\ faissIndex w1 = Some (default [] (faissIndex w) ++ docs)
    /\ processFile later kbPath f w1 = (Ok tt, w2)
    /\ faissIndex w2 = Some ((default [] (faissIndex w) ++ docs) ++ docs)
    /\ storeFile w2 = faissIndex w2
    /\ hashRecords w2 !! record = Some (sha256hex env bytes).
Proof.
  intros later record docs Hb Hstale Hdocs Hhash Hmkdir Hread Hsplit Hembed Hsave.
  destruct (processFile_reaches_index env kbPath f bytes w Hb Hstale Hhash Hmkdir Hread Hsplit Hdocs)
    as (w0 & Hfiles0 & Hrec0 & Hstore0 & Hidx0 & Hfirst).
  fold docs record in Hfirst.
  destruct (indexDocuments env f record (sha256hex env bytes) docs w0) as [r1 w1] eqn:Hrun1.
  assert (Hout1 : r1 = Err (Thrown (SaveStore f))
                  /\ files w1 = files w0 /\ hashRecords w1 = hashRecords w0
                  /\ storeFile w1 = storeFile w0
                  /\ faissIndex w1 = Some (default [] (faissIndex w0) ++ docs)).
  { revert Hrun1. unfold indexDocuments, addToIndex, saveIndex, handleFsOperationError.
    go. intros [= <- <-]. cbn. auto. }
  destruct Hout1 as (-> & Hfiles1 & Hrec1 & Hstore1 & Hidx1).
  assert (Hsame : documentsOf later w1 f = docs).
  { unfold docs, documentsOf. cbn [fault later withFaults splitMarkdown].
    rewrite Hread, Hfiles1, Hfiles0. reflexivity. }
  destruct (processFile_reaches_index later kbPath f bytes w1) as
    (w0' & Hfiles0' & Hrec0' & Hstore0' & Hidx0' & Hsecond);
    try reflexivity.
  { rewrite Hfiles1, Hfiles0. exact Hb. }
  { rewrite Hrec1, Hrec0. exact Hstale. }
  { rewrite Hsame. exact Hdocs. }
  rewrite Hsame in Hsecond. cbn [sha256hex later withFaults] in Hsecond.
  destruct (indexDocuments later f (indexFilePathOf kbPath f) (sha256hex env bytes) docs w0')
    as [r2 w2] eqn:Hrun2.
  assert (Hout2 : r2 = Ok tt
                  /\ hashRecords w2 = <[record := sha256hex env bytes]> (hashRecords w0')
                  /\ storeFile w2 = faissIndex w2
                  /\ faissIndex w2 = Some (default [] (faissIndex w0') ++ docs)).
  { revert Hrun2. unfold indexDocuments, addToIndex, saveIndex, writeHashRecord.
    cbn [fault later withFaults]. go. intros [= <- <-]. cbn. auto. }
  destruct Hout2 as (-> & Hrec2 & Hstore2 & Hidx2).
  exists w1, w2.
  split; [exact Hfirst |]. split; [congruence |]. split; [congruence |].
  split; [rewrite Hidx1, Hidx0; reflexivity |]. split; [exact Hsecond |].
  split; [rewrite Hidx2, Hidx0', Hidx1, Hidx0; reflexivity |].
  split; [exact Hstore2 |]. rewrite Hrec2. apply lookup_insert_eq.
Qed.

End Retry.

Lemma retry_after_failed_save_adds_again_witness :
  let env := Fixtures.plainEnv Fixtures.saveFault in
  let later := withFaults env (fun _ => false) in
  let f := Fixtures.kb1Path ++ ["b.txt"] in
  let docs := documentsOf env Fixtures.twoFileWorld f in
  exists w1 w2,
    FaissIndexManager.processFile env Fixtures.kb1Path f Fixtures.twoFileWorld
    = (Err (Thrown (SaveStore f)), w1)
    /\ storeFile w1 = storeFile Fixtures.twoFileWorld
    /\ hashRecords w1 = hashRecords Fixtures.twoFileWorld
    /\ faissIndex w1 = Some (default [] (faissIndex Fixtures.twoFileWorld) ++ docs)
    /\ FaissIndexManager.processFile later Fixtures.kb1Path f w1 = (Ok tt, w2)
    /\ faissIndex w2 = Some ((default [] (faissIndex Fixtures.twoFileWorld) ++ docs) ++ docs)
    /\ storeFile w2 = faissIndex w2
    /\ hashRecords w2 !! FaissIndexManager.indexFilePathOf Fixtures.kb1Path f
       = Some (sha256hex env "World").
Proof.
  intros env later f docs.
  apply (retry_after_failed_save_adds_again env Fixtures.kb1Path f "World"
           Fixtures.twoFileWorld);
    first [reflexivity | discriminate].
Defined.
